(** * casepulse-backend: cause-list scrapers

    A shallow embedding of [scrapers/bombay_high_court.py] and
    [scrapers/nclat.py], and the properties their specification states
    about them.

    Python values are modelled as follows.
    - A [str] is the list of its code points ([pystr]).
    - A [dict] is an association list in insertion order; [d.get(k)] is
      [get k d], which is [VNone] for a missing key.
    - An exception is a value of [exn]; code that may raise returns a
      [result] inside the state monad [io], whose state is the part of the
      world the code changes (the log of browser and network calls, the
      files on disk).
    - What the code takes from libraries whose tables are too large to
      write out (the Unicode character database behind [str.lower], [\d]
      and [\w]; [datetime.strptime]/[strftime]; [urljoin]) is the
      interface [PyLib], with the laws the proofs rely on. *)

From Stdlib Require Import ZArith NArith List String Ascii Lia Bool.
From stdpp Require Import base list gmap.
From Equations Require Import Equations.
Import ListNotations.
Local Open Scope N_scope.

(** ** Strings *)

Abbreviation pystr := (list N) (only parsing).

(** A literal of the source, as code points. *)
Definition py (s : string) : pystr :=
  map N_of_ascii (list_ascii_of_string s).

Definition nonempty (s : pystr) : bool :=
  match s with [] => false | _ :: _ => true end.

Definition pystr_eqb (a b : pystr) : bool := bool_decide (a = b).

(** [str.isspace] on one code point, which is also the class [\s] of a
    [str] pattern: the table [_PyUnicode_IsWhitespace] of CPython. *)
Definition isspace (c : N) : bool :=
  ((9 <=? c) && (c <=? 13)) || ((28 <=? c) && (c <=? 32))
  || (c =? 133) || (c =? 160) || (c =? 5760)
  || ((8192 <=? c) && (c <=? 8202))
  || (c =? 8232) || (c =? 8233) || (c =? 8239) || (c =? 8287)
  || (c =? 12288).

Fixpoint lstrip (s : pystr) : pystr :=
  match s with
  | c :: s' => if isspace c then lstrip s' else s
  | [] => []
  end.

Definition rstrip (s : pystr) : pystr := rev (lstrip (rev s)).

(** [s.strip()] *)
Definition strip (s : pystr) : pystr := rstrip (lstrip s).

(** [s.replace(old, new)] for a one-character [old]. *)
Definition replace_char (old : N) (new : pystr) (s : pystr) : pystr :=
  flat_map (fun c => if c =? old then new else [c]) s.

Fixpoint startswith (p s : pystr) : bool :=
  match p, s with
  | [], _ => true
  | a :: p', b :: s' => (a =? b) && startswith p' s'
  | _ :: _, [] => false
  end.

(** [p in s] *)
Fixpoint contains (p s : pystr) : bool :=
  startswith p s ||
  match s with
  | [] => false
  | _ :: s' => contains p s'
  end.

Definition cons_head (c : N) (ps : list pystr) : list pystr :=
  match ps with
  | p :: ps' => (c :: p) :: ps'
  | [] => [[c]]
  end.

(** [s.split(sep)] for a one-character [sep]. *)
Fixpoint split_on (sep : N) (s : pystr) : list pystr :=
  match s with
  | [] => [[]]
  | c :: s' =>
      if c =? sep then [] :: split_on sep s' else cons_head c (split_on sep s')
  end.

(** [sep.join(parts)] *)
Fixpoint join (sep : pystr) (parts : list pystr) : pystr :=
  match parts with
  | [] => []
  | [p] => p
  | p :: ps => p ++ sep ++ join sep ps
  end.

(** ** Regular expressions

    The patterns of the two scrapers use literals, classes, concatenation,
    alternation, [?] on a group, [*] and [+] on a class, and one capturing
    group. [rx] is the backtracking matcher of [re] on that fragment:
    alternatives are tried left to right and repetitions are greedy. *)

Inductive regex : Type :=
| Eps
| Chr (p : N -> bool)
| Cat (r1 r2 : regex)
| Alt (r1 r2 : regex)
| Opt (r : regex)
| Star (p : N -> bool)
| Grp (r : regex).

Declare Scope re_scope.
Delimit Scope re_scope with re.
Bind Scope re_scope with regex.
Infix "*" := Cat : re_scope.
Infix "+" := Alt : re_scope.

Definition Plus (p : N -> bool) : regex := Cat (Chr p) (Star p).

Definition orelse {A : Type} (x y : option A) : option A :=
  match x with Some a => Some a | None => y end.

Fixpoint star {A : Type} (p : N -> bool) (s : pystr)
    (k : pystr -> option A) : option A :=
  match s with
  | c :: s' => if p c then orelse (star p s' k) (k s) else k s
  | [] => k s
  end.

Fixpoint rx {A : Type} (r : regex) (s : pystr) (g : list pystr)
    (k : pystr -> list pystr -> option A) : option A :=
  match r with
  | Eps => k s g
  | Chr p =>
      match s with
      | c :: s' => if p c then k s' g else None
      | [] => None
      end
  | Cat r1 r2 => rx r1 s g (fun s' g' => rx r2 s' g' k)
  | Alt r1 r2 => orelse (rx r1 s g k) (rx r2 s g k)
  | Opt r1 => orelse (rx r1 s g k) (k s g)
  | Star p => star p s (fun s' => k s' g)
  | Grp r1 =>
      rx r1 s g
        (fun s' g' => k s' (g' ++ [take (length s - length s') s]))
  end.

(** [re.match]: the length of the match at the start of [s], and the
    groups. *)
Definition re_match (r : regex) (s : pystr) : option (nat * list pystr) :=
  rx r s [] (fun s' g => Some ((length s - length s')%nat, g)).

(** [re.fullmatch] *)
Definition re_fullmatch (r : regex) (s : pystr) : bool :=
  match rx r s [] (fun s' _ => if nonempty s' then None else Some tt) with
  | Some _ => true
  | None => false
  end.

(** [re.search]: group 0 and the other groups of the leftmost match. *)
Fixpoint re_search (r : regex) (s : pystr) : option (pystr * list pystr) :=
  match re_match r s with
  | Some (n, g) => Some (take n s, g)
  | None =>
      match s with
      | [] => None
      | _ :: s' => re_search r s'
      end
  end.

(** [re.split] and [re.sub] scan [s] from the left; [skip] counts the
    characters of the current match that are still to be passed over. Every
    pattern the scrapers split or substitute on matches at least one
    character, so the treatment of empty matches is left out. *)
Fixpoint split_scan (r : regex) (s : pystr) (skip : nat) : list pystr :=
  match s with
  | [] => [[]]
  | c :: s' =>
      match skip with
      | S n => split_scan r s' n
      | O =>
          match re_match r s with
          | Some (S n, _) => [] :: split_scan r s' n
          | _ => cons_head c (split_scan r s' O)
          end
      end
  end.

Definition re_split (r : regex) (s : pystr) : list pystr := split_scan r s O.

Fixpoint sub_scan (r : regex) (repl : pystr) (s : pystr) (skip : nat)
    : pystr :=
  match s with
  | [] => []
  | c :: s' =>
      match skip with
      | S n => sub_scan r repl s' n
      | O =>
          match re_match r s with
          | Some (S n, _) => repl ++ sub_scan r repl s' n
          | _ => c :: sub_scan r repl s' O
          end
      end
  end.

Definition re_sub (r : regex) (repl : pystr) (s : pystr) : pystr :=
  sub_scan r repl s O.

(** A literal character of a pattern. *)
Definition lit (a : ascii) : regex := Chr (N.eqb (N_of_ascii a)).

Definition ascii_lower (c : N) : N :=
  if (65 <=? c) && (c <=? 90) then c + 32 else c.

Definition ascii_upper (c : N) : N :=
  if (97 <=? c) && (c <=? 122) then c - 32 else c.

(** Under [re.IGNORECASE] a [str] pattern matches an ASCII letter against
    both of its cases and against the four letters whose case mapping
    lands in ASCII: U+0130 and U+0131 for [i], U+017F for [s], U+212A for
    [k]. *)
Definition icase (a : ascii) (c : N) : bool :=
  let l := ascii_lower (N_of_ascii a) in
  (c =? l) || (c =? ascii_upper l)
  || ((l =? 105) && ((c =? 304) || (c =? 305)))
  || ((l =? 115) && (c =? 383))
  || ((l =? 107) && (c =? 8490)).

Definition ilit (a : ascii) : regex := Chr (icase a).

(** A word of a pattern compiled with [re.IGNORECASE]. *)
Fixpoint iword (w : string) : regex :=
  match w with
  | EmptyString => Eps
  | String a EmptyString => ilit a
  | String a w' => Cat (ilit a) (iword w')
  end.

(** ** Values, exceptions and effects *)

#[warnings="-register-all"]
Inductive value : Type :=
| VNone
| VStr (s : pystr)
| VList (l : list value)
| VDict (d : list (string * value)).

Definition dict := list (string * value).

(** [d.get(k)] *)
Fixpoint get (k : string) (d : dict) : value :=
  match d with
  | [] => VNone
  | (k', v) :: d' => if String.eqb k k' then v else get k d'
  end.

(** [d[k] = v] *)
Fixpoint set (k : string) (v : value) (d : dict) : dict :=
  match d with
  | [] => [(k, v)]
  | (k', v') :: d' =>
      if String.eqb k k' then (k', v) :: d' else (k', v') :: set k v d'
  end.

(** The string a value holds, and [v.append(x)] on a value that is a
    list. *)
Definition str_of (v : value) : pystr :=
  match v with VStr s => s | _ => [] end.

Definition list_append (v x : value) : value :=
  match v with VList l => VList (l ++ [x]) | _ => v end.

Inductive exn : Type :=
| PlaywrightTimeout
| PlaywrightError
| HTTPError
| IndexError
| KeyError
| ValueError
| OverflowError
| PDFSyntaxError
| Exception (msg : string).

Inductive result (A : Type) : Type :=
| Ok (a : A)
| Raise (e : exn).
Arguments Ok {A} a.
Arguments Raise {A} e.

(** A computation over a world of type [W]. *)
Definition io (W A : Type) : Type := W -> W * result A.

Definition ret {W A : Type} (a : A) : io W A := fun w => (w, Ok a).

Definition raise {W A : Type} (e : exn) : io W A := fun w => (w, Raise e).

Definition bind {W A B : Type} (m : io W A) (f : A -> io W B) : io W B :=
  fun w =>
    match m w with
    | (w', Ok a) => f a w'
    | (w', Raise e) => (w', Raise e)
    end.

(** [try: m  except <the exceptions h is defined on>: h e] *)
Definition try_except {W A : Type} (m : io W A) (h : exn -> option (io W A))
    : io W A :=
  fun w =>
    match m w with
    | (w', Ok a) => (w', Ok a)
    | (w', Raise e) =>
        match h e with
        | Some k => k w'
        | None => (w', Raise e)
        end
    end.

(** [try: m  finally: fin] *)
Definition try_finally {W A : Type} (m : io W A) (fin : io W unit)
    : io W A :=
  fun w =>
    match m w with
    | (w', r) =>
        match fin w' with
        | (w'', Ok _) => (w'', r)
        | (w'', Raise e) => (w'', Raise e)
        end
    end.

Notation "x <- m ;; k" := (bind m (fun x => k))
  (at level 100, m at next level, right associativity).
Notation "m ;;; k" := (bind m (fun _ => k))
  (at level 100, right associativity).

(** ** Library interface *)

(** The last day a [datetime] holds: [date.max.toordinal()]. *)
Definition MAXORDINAL : Z := 3652059.

Class PyLib : Type := {
  (** [str.isdecimal] on one code point: the class [\d]. *)
  isdecimal : N -> bool;
  (** [str.isalnum] on one code point: with [_], the class [\w]. *)
  isalnum : N -> bool;
  (** [str.lower] *)
  lower : pystr -> pystr;
  (** [datetime.strptime(s, fmt)] as the day's ordinal; [None] stands for
      [ValueError]. The formats used hold a date only, so the time of day
      is midnight throughout. *)
  strptime : pystr -> string -> option Z;
  (** [dt.strftime(fmt)] *)
  strftime : Z -> string -> pystr;
  (** [urllib.parse.urljoin] *)
  urljoin : pystr -> pystr -> pystr;
  (** The ASCII digits are decimal digits, and no decimal digit is white
      space. *)
  isdecimal_digit : forall c, 48 <= c <= 57 -> isdecimal c = true;
  isdecimal_not_space : forall c, isdecimal c = true -> isspace c = false;
  (** [str.lower] maps a string character by character (but for the
      capital sigma, which it lowers by its place in the word), and what
      it writes is in lower case already: a character of a lowered string
      is left as it is by [lower], a string of such characters is left as
      it is, and so is the space. *)
  lower_lowered : forall s c, In c (lower s) -> lower [c] = [c];
  lower_fixed : forall s, (forall c, In c s -> lower [c] = [c]) -> lower s = s;
  lower_space : lower [32] = [32];
  (** A [datetime] is a day from 0001-01-01 to 9999-12-31. *)
  strptime_range : forall s f d,
    strptime s f = Some d -> (1 <= d <= MAXORDINAL)%Z;
}.

(** ** bombay_high_court.py *)

Module Bombay.

(** What the browser does is logged call by call. *)
Inductive event : Type :=
| Launch
| NewPage
| Goto (url : pystr)
| WaitLoadState
| ClickText (text : string)
| Fill (selector : string) (text : pystr)
| SetDate (date : pystr)
| ClickButton (name : string)
| WaitSelector (selector : string)
| Content
| WriteFile (name : string) (data : pystr)
| Close
| Skipping (date : pystr) (e : exn).

(** A node of [container.locator("h3, table")]: a heading with its inner
    text, or a table with the inner texts of the cells of its body rows. *)
Inductive node : Type :=
| H3 (text : pystr)
| Table (rows : list (list pystr)).

(** One browser session against the court's site: for every call that can
    raise, what it raises (if anything), and what the page shows. *)
Record session : Type := {
  launch_fails : option exn;
  new_page_fails : option exn;
  goto_fails : option exn;
  load_state_fails : option exn;
  party_tab_fails : option exn;
  fill_fails : option exn;
  set_date_fails : option exn;
  search_button_fails : option exn;
  wait_selector_fails : option exn;
  page_content : pystr;
  container_nodes : list node;
  container_text : pystr;
}.

(** The state [extract_cases_from_table] keeps while it walks the rows.
    [results] holds the dict objects themselves and [current_main_case]
    refers to one of them by its position, so that a change made through
    [current_main_case] is a change of the element of [results]. *)
Record rows_state : Type := {
  results : list dict;
  current_main_case : option nat;
  last_case_no : option pystr;
}.

(** The state [search] keeps while it walks the nodes. *)
Record walk_state : Type := {
  current_bench : pystr;
  current_time : pystr;
  current_court_no : pystr;
  all_results : list dict;
}.

Definition BOMBAY_CAUSELIST_URL : pystr :=
  py "https://bombayhighcourt.gov.in/bhc/causelistFinal".

(** [\s+v(?:s\.?)?\s+] with [re.IGNORECASE] *)
Definition parties_sep : regex :=
  (Plus isspace * ilit "v" * Opt (ilit "s" * Opt (lit ".")) * Plus isspace)%re.

Definition split_parties (parties : pystr) : pystr * pystr :=
  if nonempty parties then
    match re_split parties_sep parties with
    | [a; b] => (strip a, strip b)
    | _ => (strip parties, py "N/A")
    end
  else (py "N/A", py "N/A").

Definition normalize_text (s : pystr) : pystr :=
  strip (re_sub (Plus isspace) (py " ") (replace_char 160 (py " ") s)).

(** A call of the browser: it is logged, and it raises what the session
    says it raises. *)
Definition step (e : event) (fails : option exn) : io (list event) unit :=
  fun log =>
    (log ++ [e], match fails with None => Ok tt | Some x => Raise x end).

Section WithLib.
Context `{PyLib}.

(** The dict of a new main case. *)
Definition new_case (case_no petitioner respondent advocates bench court_no
    date court_time : pystr) : dict :=
  [ ("case_number", VStr case_no);
    ("petitioner", VStr petitioner);
    ("respondent", VStr respondent);
    ("advocates", VStr (if nonempty advocates then advocates else py "N/A"));
    ("court", VStr (py "Bombay High Court"));
    ("judge", VStr bench);
    ("court_no", VStr court_no);
    ("date", VStr date);
    ("court_time", VStr court_time);
    ("with_cases", VList []);
    ("remarks", VStr []) ]%string.

(** [d["with_cases"].append({"case_number": ..., "details": ...})] *)
Definition add_with_case (case_no parties : pystr) (d : dict) : dict :=
  set "with_cases"
    (list_append (get "with_cases" d)
       (VDict [("case_number", VStr case_no); ("details", VStr parties)]%string))
    d.

(** [d["remarks"] += text if not d["remarks"] else "\n" + text] *)
Definition add_remark (text : pystr) (d : dict) : dict :=
  let remarks := str_of (get "remarks" d) in
  set "remarks"
    (VStr (remarks ++ (if nonempty remarks then py (String "010" "") ++ text
                       else text)))
    d.

(** The body of the loop over the rows, for a row with the cells [cells]. *)
Definition row_step (bench court_time court_no date : pystr)
    (st : rows_state) (cells : list pystr) : rows_state :=
  match cells with
  | [c0; c1; c2; c3] =>
      let cl_no_raw := normalize_text c0 in
      let case_no := normalize_text c1 in
      let parties := normalize_text c2 in
      let advocates := normalize_text c3 in
      let '(petitioner, respondent) := split_parties parties in
      let is_cl_no := re_fullmatch (Plus isdecimal) cl_no_raw in
      let is_new_case :=
        is_cl_no
        || (nonempty case_no
            && negb (bool_decide (last_case_no st = Some case_no))) in
      if is_new_case then
        {| results :=
             results st ++
             [new_case case_no petitioner respondent advocates bench court_no
                date court_time];
           current_main_case := Some (length (results st));
           last_case_no := Some case_no |}
      else
        match current_main_case st with
        | Some i =>
            if pystr_eqb (lower cl_no_raw) (py "with") then
              {| results := alter (add_with_case case_no parties) i (results st);
                 current_main_case := Some i;
                 last_case_no := last_case_no st |}
            else st
        | None => st
        end
  | [c0] =>
      match current_main_case st with
      | Some i =>
          let text := normalize_text c0 in
          if nonempty text then
            {| results := alter (add_remark text) i (results st);
               current_main_case := Some i;
               last_case_no := last_case_no st |}
          else st
      | None => st
      end
  | _ => st
  end.

Definition extract_cases_from_table (rows : list (list pystr))
    (bench court_time court_no date : pystr) : list dict :=
  results
    (fold_left (row_step bench court_time court_no date) rows
       {| results := []; current_main_case := None; last_case_no := None |}).

(** [HON'?BLE\s+SHRI|HON'?BLE\s+MS|HON'?BLE\s+JUSTICE] *)
Definition judges_re : regex :=
  (iword "HON" * Opt (lit "'") * iword "BLE" * Plus isspace * iword "SHRI"
   + iword "HON" * Opt (lit "'") * iword "BLE" * Plus isspace * iword "MS"
   + iword "HON" * Opt (lit "'") * iword "BLE" * Plus isspace * iword "JUSTICE")%re.

(** [AT\s+\d{1,2}\.\d{2}\s*[AP]\.M\.] *)
Definition time_re : regex :=
  (iword "AT" * Plus isspace * Chr isdecimal * Opt (Chr isdecimal) * lit "."
   * Chr isdecimal * Chr isdecimal * Star isspace
   * Chr (fun c => icase "A" c || icase "P" c) * lit "." * ilit "M" * lit ".")%re.

Definition colon_or_dash (c : N) : bool := (c =? 58) || (c =? 45).

(** [COURT\s+NO\s*[:\-]?\s*(\d+)] *)
Definition court_no_re : regex :=
  (iword "COURT" * Plus isspace * iword "NO" * Star isspace
   * Opt (Chr colon_or_dash) * Star isspace * Grp (Plus isdecimal))%re.

(** [DATE\s*[:\-]?\s*(\d{2}-\d{2}-\d{4})] *)
Definition date_re : regex :=
  (iword "DATE" * Star isspace * Opt (Chr colon_or_dash) * Star isspace
   * Grp (Chr isdecimal * Chr isdecimal * lit "-"
          * Chr isdecimal * Chr isdecimal * lit "-"
          * Chr isdecimal * Chr isdecimal * Chr isdecimal * Chr isdecimal))%re.

Definition group1 (m : pystr * list pystr) : pystr :=
  match snd m with g :: _ => g | [] => [] end.

(** The body of the loop over the nodes of the container. *)
Definition node_step (text date : pystr) (st : walk_state) (n : node)
    : walk_state :=
  match n with
  | H3 heading =>
      let heading := normalize_text heading in
      match re_search judges_re heading with
      | Some _ =>
          {| current_bench := heading;
             current_time := current_time st;
             current_court_no := current_court_no st;
             all_results := all_results st |}
      | None => st
      end
  | Table rows =>
      let preceding_text := normalize_text text in
      let court_time :=
        match re_search time_re preceding_text with
        | Some m => fst m
        | None => current_time st
        end in
      let court_no :=
        match re_search court_no_re preceding_text with
        | Some m => group1 m
        | None => current_court_no st
        end in
      let date_val :=
        match re_search date_re preceding_text with
        | Some m => group1 m
        | None => date
        end in
      {| current_bench := current_bench st;
         current_time := court_time;
         current_court_no := court_no;
         all_results :=
           all_results st ++
           extract_cases_from_table rows (current_bench st) court_time
             court_no date_val |}
  end.

Definition get_default (k : string) (default : value) (d : dict) : value :=
  if existsb (fun kv => String.eqb k (fst kv)) d then get k d else default.

(** The record [search] returns for a case. *)
Definition final_result (case : dict) : dict :=
  [ ("case_number", get "case_number" case);
    ("petitioner", get "petitioner" case);
    ("respondent", get "respondent" case);
    ("advocates", get "advocates" case);
    ("court", get "court" case);
    ("judge", get "judge" case);
    ("court_no", get "court_no" case);
    ("date", get "date" case);
    ("court_time", get "court_time" case);
    ("remarks", get "remarks" case);
    ("with_cases", get_default "with_cases" (VList []) case) ]%string.

Definition walk (s : session) (date : pystr) : list dict :=
  all_results
    (fold_left (node_step (container_text s) date) (container_nodes s)
       {| current_bench := py "N/A";
          current_time := py "N/A";
          current_court_no := py "N/A";
          all_results := [] |}).

(** The site: the session a search for a party and a date runs in. *)
Context (site : pystr -> pystr -> session).

(** The [try] block of [search], once the page is open. *)
Definition search_page (s : session) (party_name date : pystr)
    : io (list event) (list dict) :=
  step (Goto BOMBAY_CAUSELIST_URL) (goto_fails s) ;;;
  step WaitLoadState (load_state_fails s) ;;;
  step (ClickText "Party") (party_tab_fails s) ;;;
  step (Fill "input[placeholder='Party Name']" party_name) (fill_fails s) ;;;
  step (SetDate date) (set_date_fails s) ;;;
  step (ClickButton "Search") (search_button_fails s) ;;;
  try_except
    (step (WaitSelector "#tb_causelist") (wait_selector_fails s))
    (fun e =>
       match e with
       | PlaywrightTimeout =>
           Some (step Content None ;;;
                 step (WriteFile "bombay_debug.html" (page_content s)) None ;;;
                 raise (Exception "Bombay HC: #tb_causelist not found."))
       | _ => None
       end) ;;;
  ret (map final_result (walk s date)).

Definition search (party_name date : option pystr)
    : io (list event) (list dict) :=
  match party_name, date with
  | Some party_name, Some date =>
      if nonempty party_name && nonempty date then
        let s := site party_name date in
        step Launch (launch_fails s) ;;;
        step NewPage (new_page_fails s) ;;;
        try_finally (search_page s party_name date) (step Close None)
      else ret []
  | _, _ => ret []
  end.

(** The [while] loop of [search_range]. *)
Equations? scan_days (party_name : pystr) (current end_dt : Z)
    (all_results : list dict) : io (list event) (list dict)
    by wf (Z.to_nat (end_dt + 1 - current)) lt :=
scan_days party_name current end_dt all_results
    with Z_le_dec current end_dt := {
  | right _ => ret all_results
  | left _ =>
      let cause_date := strftime current "%d-%m-%Y" in
      all_results' <-
        try_except
          (daily_results <- search (Some party_name) (Some cause_date) ;;
           ret (all_results ++ daily_results))
          (fun e => Some (step (Skipping cause_date e) None ;;;
                          ret all_results)) ;;
      if (current <? MAXORDINAL)%Z
      then scan_days party_name (current + 1)%Z end_dt all_results'
      else raise OverflowError }.
Proof. lia. Qed.

Definition search_range (party_name start_date end_date : pystr)
    : io (list event) (list dict) :=
  match strptime start_date "%d-%m-%Y", strptime end_date "%d-%m-%Y" with
  | Some start_dt, Some end_dt =>
      if (end_dt <? start_dt)%Z
      then raise (Exception "Start date cannot be after end date")
      else scan_days party_name start_dt end_dt []
  | _, _ => raise (Exception "Invalid date format. Use DD-MM-YYYY for Bombay")
  end.

End WithLib.
End Bombay.

(** ** nclat.py *)

Module NCLAT.

(** The response model of the structured extraction. *)
Record CauseMatch : Type := {
  case_number : pystr;
  parties : pystr;
  appellant_counsel : pystr;
  respondent_counsel : pystr;
  court_no : pystr;
  judges : pystr;
}.

(** [r.model_dump()] *)
Definition model_dump (r : CauseMatch) : dict :=
  [ ("case_number", VStr (case_number r));
    ("parties", VStr (parties r));
    ("appellant_counsel", VStr (appellant_counsel r));
    ("respondent_counsel", VStr (respondent_counsel r));
    ("court_no", VStr (court_no r));
    ("judges", VStr (judges r)) ]%string.

(** A cell of the listing: [get_text(strip=True)] and the [href] of its
    first link, if it has one. *)
Record cell : Type := {
  cell_text : pystr;
  cell_href : option pystr;
}.

(** A file under [nclat_pdfs]: a PDF with the text [extract_text()] gives
    for each page ([None] for a page without a text layer), or something
    [pdfplumber] cannot open. *)
Inductive file : Type :=
| Pdf (pages : list (option pystr))
| NotPdf.

Inductive event : Type :=
| GetListing (page : nat)
| GetPdf (url : pystr)
| WriteBytes (path : pystr)
| Extract (prompt : pystr)
| ExtractFailed (e : exn).

(** What the code changes: the files on disk, by path, and the log of the
    requests it made. The directory [nclat_pdfs], which the module makes
    when it is loaded, is the entry [NotPdf] at its own path. *)
Record world : Type := {
  files : gmap (list N) file;
  log : list event;
}.

(** What the code reads from outside.
    - [listing]: the pages of the daily cause list. The listing is
      finite: page [k] is its [k]-th element, the rows of cells of its
      table or the error of the request, and a page past the last has no
      rows.
    - [pdf_server]: what a GET of a PDF's address gives.
    - [client]: the answer of [client.chat.completions.create] with
      [response_model=List[CauseMatch]] to a message: the validated rows,
      or the exception the call raises when the request fails or the
      output is no JSON list of objects of that schema. *)
Record site : Type := {
  listing : list (result (list (list cell)));
  pdf_server : pystr -> result file;
  client : pystr -> result (list CauseMatch);
}.

Definition BASE : pystr := py "https://nclat.nic.in".
Definition URL : pystr := BASE ++ py "/daily-cause-list".
Definition SAVE_DIR : pystr := py "nclat_pdfs".

(** [SAVE_DIR / fname], for a name without a slash. *)
Definition save_path (fname : pystr) : pystr :=
  if pystr_eqb fname [] || pystr_eqb fname (py ".") then SAVE_DIR
  else SAVE_DIR ++ py "/" ++ fname.

(** A request, logged. *)
Definition emit (e : event) : io world unit :=
  fun w => ({| files := files w; log := log w ++ [e] |}, Ok tt).

(** A result, returned or raised as it is. *)
Definition lift {A : Type} (r : result A) : io world A := fun w => (w, r).

(** [path.exists()] *)
Definition path_exists (path : pystr) : io world bool :=
  fun w => (w, Ok (bool_decide (is_Some (files w !! path)))).

(** [path.write_bytes(content)] *)
Definition write_bytes (path : pystr) (content : file) : io world unit :=
  fun w =>
    ({| files := <[path := content]> (files w);
        log := log w ++ [WriteBytes path] |}, Ok tt).

(** [pdfplumber.open(path)] *)
Definition pdf_open (path : pystr) : io world (list (option pystr)) :=
  fun w =>
    match files w !! path with
    | Some (Pdf pages) => (w, Ok pages)
    | _ => (w, Raise PDFSyntaxError)
    end.

(** [re.split] pattern of [split_parties]: [\s+v(?:s\.?)?\s+] with
    [re.IGNORECASE] *)
Definition parties_sep : regex :=
  (Plus isspace * ilit "v" * Opt (ilit "s" * Opt (lit ".")) * Plus isspace)%re.

Definition split_parties (parties : pystr) : pystr * pystr :=
  match re_split parties_sep parties with
  | [a; b] => (a, b)
  | _ => (parties, py "N/A")
  end.

(** [l[-1]], for a list that is not empty. *)
Definition last_or {A : Type} (d : A) (l : list A) : A := List.last l d.

Definition quote : pystr := [34].
Definition newline : pystr := [10].

(** The message [ai_extract] sends. *)
Definition prompt (page_text party_name court_no judges : pystr) : pystr :=
  join newline
    [ [];
      py "Extract ONLY the cause list row containing:";
      [];
      py "TARGET PARTY: " ++ quote ++ party_name ++ quote;
      [];
      py "Return:";
      py "- case_number";
      py "- parties";
      py "- appellant_counsel";
      py "- respondent_counsel";
      [];
      py "Court No: " ++ court_no;
      py "Judges: " ++ judges;
      [];
      py "PAGE TEXT:";
      page_text;
      [] ].

Section WithLib.
Context `{PyLib}.

(** [\w] *)
Definition isword (c : N) : bool := isalnum c || (c =? 95).

(** [[^\w\s]] *)
Definition punct (c : N) : bool := negb (isword c) && negb (isspace c).

Definition normalize (text : pystr) : pystr :=
  let text := lower text in
  let text := re_sub (Chr punct) (py " ") text in
  let text := re_sub (Plus isspace) (py " ") text in
  strip text.

(** [[IVX\d]] with [re.I] *)
Definition roman_or_digit (c : N) : bool :=
  icase "I" c || icase "V" c || icase "X" c || isdecimal c.

(** [[-–]]: a hyphen or U+2013 *)
Definition dash (c : N) : bool := (c =? 45) || (c =? 8211).

(** [COURT\s*[-–]?\s*([IVX\d]+)] with [re.I] *)
Definition court_re : regex :=
  (iword "COURT" * Star isspace * Opt (Chr dash) * Star isspace
   * Grp (Plus roman_or_digit))%re.

Definition extract_court_no_page1 (pages : list (option pystr))
    : result pystr :=
  match pages with
  | [] => Raise IndexError
  | page :: _ =>
      let text := match page with Some t => t | None => [] end in
      match re_search court_re text with
      | Some m => Ok (match snd m with g :: _ => g | [] => [] end)
      | None => Ok []
      end
  end.

Definition any_in (keys : list pystr) (line : pystr) : bool :=
  existsb (fun k => contains k line) keys.

(** The loop of [extract_judge_blocks] over the lines. *)
Fixpoint judge_blocks_loop (lines : list pystr) (blocks current : list pystr)
    : list pystr :=
  match lines with
  | [] =>
      match current with
      | [] => blocks
      | _ :: _ => blocks ++ [join (py " ") current]
      end
  | line :: rest =>
      if contains (py "Hon") line then
        match current with
        | [] => judge_blocks_loop rest blocks [line]
        | _ :: _ =>
            judge_blocks_loop rest (blocks ++ [join (py " ") current]) [line]
        end
      else
        match current with
        | [] => judge_blocks_loop rest blocks current
        | _ :: _ =>
            if any_in [py "Member"; py "Judicial"; py "Technical"] line
            then judge_blocks_loop rest blocks (current ++ [line])
            else judge_blocks_loop rest (blocks ++ [join (py " ") current]) []
        end
  end.

Definition extract_judge_blocks (page_text : pystr) : list pystr :=
  let lines :=
    map strip (filter (fun l => nonempty (strip l)) (split_on 10 page_text)) in
  judge_blocks_loop lines [] [].

Context (s : site).

Definition ai_extract (page_text party_name court_no judges : pystr)
    : io world (list CauseMatch) :=
  try_except
    (emit (Extract (prompt page_text party_name court_no judges)) ;;;
     lift (client s (prompt page_text party_name court_no judges)))
    (fun e => Some (emit (ExtractFailed e) ;;; ret [])).

(** The part of [download_pdfs] that handles one row with a link:
    the PDF is fetched unless its path is there already. *)
Definition fetch_if_absent (href : pystr) : io world pystr :=
  let pdf_url := urljoin BASE href in
  let fname := last_or [] (split_on 47 pdf_url) in
  let path := save_path fname in
  there <- path_exists path ;;
  (if there then ret tt
   else
     emit (GetPdf pdf_url) ;;;
     (pdf <- lift (pdf_server s pdf_url) ;;
      write_bytes path pdf)) ;;;
  ret path.

(** The loop of [download_pdfs] over the rows of one page; the flag is
    [stop_paging]. *)
Fixpoint rows_loop (start_dt end_dt : Z) (rows : list (list cell))
    (pdf_files : list pystr) : io world (bool * list pystr) :=
  match rows with
  | [] => ret (false, pdf_files)
  | cols :: rest =>
      match cols !! 3%nat, cols !! 4%nat with
      | Some c3, Some c4 =>
          match strptime (cell_text c3) "%d/%m/%Y" with
          | None => rows_loop start_dt end_dt rest pdf_files
          | Some row_dt =>
              if (row_dt <? start_dt)%Z then ret (true, pdf_files)
              else if (end_dt <? row_dt)%Z
              then rows_loop start_dt end_dt rest pdf_files
              else
                match cell_href c4 with
                | None => rows_loop start_dt end_dt rest pdf_files
                | Some href =>
                    path <- fetch_if_absent href ;;
                    rows_loop start_dt end_dt rest (pdf_files ++ [path])
                end
          end
      | _, _ => rows_loop start_dt end_dt rest pdf_files
      end
  end.

(** The loop of [download_pdfs] over the pages of the listing. *)
Fixpoint pages_loop (start_dt end_dt : Z)
    (pages : list (result (list (list cell)))) (page : nat)
    (pdf_files : list pystr) : io world (list pystr) :=
  emit (GetListing page) ;;;
  match pages with
  | [] => ret pdf_files
  | r :: rest =>
      rows <- lift r ;;
      match rows with
      | [] => ret pdf_files
      | _ :: _ =>
          r <- rows_loop start_dt end_dt rows pdf_files ;;
          let '(stop_paging, pdf_files') := r in
          if stop_paging : bool then ret pdf_files'
          else pages_loop start_dt end_dt rest (S page) pdf_files'
      end
  end.

Definition download_pdfs (start_dt end_dt : Z) : io world (list pystr) :=
  pages_loop start_dt end_dt (listing s) 0%nat [].

(** [party_norm in normalize(text)]: the test that sends a page to the
    extraction. *)
Definition party_matches (party_name text : pystr) : bool :=
  contains (normalize party_name) (normalize text).

(** The loop of [search_party_in_pdf] over the pages. *)
Fixpoint scan_pages (party_name court_no : pystr)
    (pages : list (option pystr)) (current_judges : pystr)
    (results : list dict) : io world (list dict) :=
  match pages with
  | [] => ret results
  | page :: rest =>
      match page with
      | Some (c :: t) =>
          let text := c :: t in
          let judge_blocks := extract_judge_blocks text in
          let current_judges :=
            match judge_blocks with
            | [] => current_judges
            | _ :: _ => last_or [] judge_blocks
            end in
          if party_matches party_name text then
            ai_rows <- ai_extract text party_name court_no current_judges ;;
            scan_pages party_name court_no rest current_judges
              (results ++ map model_dump ai_rows)
          else scan_pages party_name court_no rest current_judges results
      | _ => scan_pages party_name court_no rest current_judges results
      end
  end.

Definition search_party_in_pdf (pdf_path party_name : pystr)
    : io world (list dict) :=
  pages <- pdf_open pdf_path ;;
  court_no <- lift (extract_court_no_page1 pages) ;;
  scan_pages party_name court_no pages [] [].

(** [d[k]] *)
Definition getitem (k : string) (d : dict) : result value :=
  if existsb (fun kv => String.eqb k (fst kv)) d then Ok (get k d)
  else Raise KeyError.

(** The record [search_range] appends for a row [r]. *)
Definition to_result (r : dict) : io world dict :=
  parties <- lift (getitem "parties" r) ;;
  let '(petitioner, respondent) := split_parties (str_of parties) in
  case_number <- lift (getitem "case_number" r) ;;
  appellant <- lift (getitem "appellant_counsel" r) ;;
  respondent_counsel <- lift (getitem "respondent_counsel" r) ;;
  ret [ ("case_number", case_number);
        ("petitioner", VStr petitioner);
        ("respondent", VStr respondent);
        ("advocates",
         VStr (py "A: " ++ str_of appellant ++ py " | R: "
               ++ str_of respondent_counsel));
        ("court", VStr (py "NCLAT"));
        ("judge", get "judges" r);
        ("court_no", get "court_no" r);
        ("date", VNone) ]%string.

Fixpoint rows_results (rows : list dict) (all_results : list dict)
    : io world (list dict) :=
  match rows with
  | [] => ret all_results
  | r :: rest =>
      d <- to_result r ;;
      rows_results rest (all_results ++ [d])
  end.

Fixpoint pdfs_loop (party_name : pystr) (pdfs : list pystr)
    (all_results : list dict) : io world (list dict) :=
  match pdfs with
  | [] => ret all_results
  | pdf :: rest =>
      rows <- search_party_in_pdf pdf party_name ;;
      all_results' <- rows_results rows all_results ;;
      pdfs_loop party_name rest all_results'
  end.

Definition search_range (party_name start_date end_date : pystr)
    : io world (list dict) :=
  match strptime start_date "%d/%m/%Y" with
  | None => raise ValueError
  | Some start_dt =>
      match strptime end_date "%d/%m/%Y" with
      | None => raise ValueError
      | Some end_dt =>
          pdfs <- download_pdfs start_dt end_dt ;;
          match pdfs with
          | [] => ret []
          | _ :: _ => pdfs_loop party_name pdfs []
          end
      end
  end.

End WithLib.
End NCLAT.

(** ** A reference library

    An instance of [PyLib] to run the scrapers on: the Unicode tables of
    the Basic Latin block (code points above U+007F count as symbols
    without case), the proleptic Gregorian calendar of [datetime] for
    dates written with two, two and four ASCII digits, and [urljoin] for a
    link that starts at the root of the site. *)

Module Reference.

Local Open Scope Z_scope.

Definition is_digit (c : N) : bool := ((48 <=? c) && (c <=? 57))%N.

Definition is_alnum (c : N) : bool :=
  (is_digit c || ((65 <=? c) && (c <=? 90)) || ((97 <=? c) && (c <=? 122)))%N.

Definition to_lower (s : pystr) : pystr := map ascii_lower s.

Definition is_leap (y : Z) : bool :=
  (y mod 4 =? 0) && (negb (y mod 100 =? 0) || (y mod 400 =? 0)).

Definition days_before_year (y : Z) : Z :=
  let y := y - 1 in y * 365 + y / 4 - y / 100 + y / 400.

Definition days_in_month (y m : Z) : Z :=
  if m =? 2 then (if is_leap y then 29 else 28)
  else if (m =? 4) || (m =? 6) || (m =? 9) || (m =? 11) then 30
  else 31.

Definition days_before_month (y m : Z) : Z :=
  fold_left (fun acc k => acc + days_in_month y k)
    (map Z.of_nat (seq 1 (Z.to_nat (m - 1)))) 0.

Definition ymd2ord (y m d : Z) : Z :=
  days_before_year y + days_before_month y m + d.

(** [_ord2ymd] of [datetime.py] *)
Definition ord2ymd (n : Z) : Z * Z * Z :=
  let n := n - 1 in
  let n400 := n / 146097 in
  let n := n mod 146097 in
  let n100 := n / 36524 in
  let n := n mod 36524 in
  let n4 := n / 1461 in
  let n := n mod 1461 in
  let n1 := n / 365 in
  let n := n mod 365 in
  let year := n400 * 400 + 1 + n100 * 100 + n4 * 4 + n1 in
  if (n1 =? 4) || (n100 =? 4) then (year - 1, 12, 31)
  else
    let month := (n + 50) / 32 in
    let preceding := days_before_month year month in
    if n <? preceding
    then (year, month - 1, n - (preceding - days_in_month year (month - 1)) + 1)
    else (year, month, n - preceding + 1).

Definition digit_value (c : N) : option Z :=
  if is_digit c then Some (Z.of_N c - 48) else None.

Fixpoint number (s : pystr) (acc : Z) : option Z :=
  match s with
  | [] => Some acc
  | c :: s' =>
      match digit_value c with
      | Some v => number s' (acc * 10 + v)
      | None => None
      end
  end.

(** The separator of the two formats the scrapers use. *)
Definition separator (fmt : string) : option N :=
  if String.eqb fmt "%d-%m-%Y" then Some 45%N
  else if String.eqb fmt "%d/%m/%Y" then Some 47%N
  else None.

Definition parse_date (s : pystr) (fmt : string) : option Z :=
  match separator fmt, s with
  | Some sep, [d1; d2; s1; m1; m2; s2; y1; y2; y3; y4] =>
      if (s1 =? sep)%N && (s2 =? sep)%N then
        match number [d1; d2] 0, number [m1; m2] 0, number [y1; y2; y3; y4] 0 with
        | Some d, Some m, Some y =>
            if (1 <=? y) && (1 <=? m) && (m <=? 12) && (1 <=? d)
               && (d <=? days_in_month y m)
               && (1 <=? ymd2ord y m d) && (ymd2ord y m d <=? MAXORDINAL)
            then Some (ymd2ord y m d)
            else None
        | _, _, _ => None
        end
      else None
  | _, _ => None
  end.

Definition digit (v : Z) : N := (48 + Z.to_N (v mod 10))%N.

Definition digits2 (v : Z) : pystr := [digit (v / 10); digit v].

Definition digits4 (v : Z) : pystr :=
  [digit (v / 1000); digit (v / 100); digit (v / 10); digit v].

Definition format_date (n : Z) (fmt : string) : pystr :=
  match separator fmt with
  | Some sep =>
      let '(y, m, d) := ord2ymd n in
      digits2 d ++ [sep] ++ digits2 m ++ [sep] ++ digits4 y
  | None => []
  end.

Definition join_url (base href : pystr) : pystr := base ++ href.

Lemma is_digit_not_space c : is_digit c = true -> isspace c = false.
Proof.
  unfold is_digit, isspace. intros Hc.
  apply not_true_is_false. intros Hs.
  repeat rewrite ?orb_true_iff, ?andb_true_iff, ?N.leb_le, ?N.eqb_eq in Hc.
  repeat rewrite ?orb_true_iff, ?andb_true_iff, ?N.leb_le, ?N.eqb_eq in Hs.
  lia.
Qed.

Lemma ascii_lower_idem c : ascii_lower (ascii_lower c) = ascii_lower c.
Proof.
  unfold ascii_lower.
  destruct (N.leb_spec 65 c), (N.leb_spec c 90); simpl; try reflexivity;
    try (destruct (N.leb_spec 65 c), (N.leb_spec c 90); simpl; reflexivity || lia).
  destruct (N.leb_spec 65 (c + 32)), (N.leb_spec (c + 32) 90); simpl;
    reflexivity || lia.
Qed.

Lemma to_lower_lowered s c : In c (to_lower s) -> to_lower [c] = [c].
Proof.
  unfold to_lower. rewrite in_map_iff. intros [x [<- _]].
  simpl. now rewrite ascii_lower_idem.
Qed.

Lemma to_lower_fixed s :
  (forall c, In c s -> to_lower [c] = [c]) -> to_lower s = s.
Proof.
  unfold to_lower. induction s as [|c s IH]; intros Hs; [reflexivity|].
  simpl. f_equal.
  - specialize (Hs c (or_introl eq_refl)). simpl in Hs. congruence.
  - apply IH. intros x Hx. apply Hs. now right.
Qed.

Lemma parse_date_range s f d :
  parse_date s f = Some d -> 1 <= d <= MAXORDINAL.
Proof.
  unfold parse_date. intros Hp.
  repeat match type of Hp with
         | match ?x with _ => _ end = _ => destruct x eqn:?; try discriminate
         | (if ?b then _ else _) = _ => destruct b eqn:?; try discriminate
         end.
  injection Hp as <-.
  repeat match goal with
         | Hb : (_ && _)%bool = true |- _ => apply andb_prop in Hb; destruct Hb
         end.
  split; apply Z.leb_le; assumption.
Qed.

#[export] Instance basic_latin : PyLib := {|
  isdecimal := is_digit;
  isalnum := is_alnum;
  lower := to_lower;
  strptime := parse_date;
  strftime := format_date;
  urljoin := join_url;
  isdecimal_digit := fun c Hc =>
    proj2 (andb_true_iff _ _)
      (conj (proj2 (N.leb_le _ _) (proj1 Hc)) (proj2 (N.leb_le _ _) (proj2 Hc)));
  isdecimal_not_space := is_digit_not_space;
  lower_lowered := to_lower_lowered;
  lower_fixed := to_lower_fixed;
  lower_space := eq_refl;
  strptime_range := parse_date_range;
|}.

End Reference.

(** ** Sample sites

    A court site and a tribunal site to run the scrapers against. *)

Module Examples.

(** A session in which every call succeeds and the container shows
    [nodes] and reads [text]. *)
Definition shown (nodes : list Bombay.node) (text : pystr) : Bombay.session :=
  {| Bombay.launch_fails := None;
     Bombay.new_page_fails := None;
     Bombay.goto_fails := None;
     Bombay.load_state_fails := None;
     Bombay.party_tab_fails := None;
     Bombay.fill_fails := None;
     Bombay.set_date_fails := None;
     Bombay.search_button_fails := None;
     Bombay.wait_selector_fails := None;
     Bombay.page_content := py "<html></html>";
     Bombay.container_nodes := nodes;
     Bombay.container_text := text |}.

(** A session in which the results never show. *)
Definition timed_out : Bombay.session :=
  {| Bombay.launch_fails := None;
     Bombay.new_page_fails := None;
     Bombay.goto_fails := None;
     Bombay.load_state_fails := None;
     Bombay.party_tab_fails := None;
     Bombay.fill_fails := None;
     Bombay.set_date_fails := None;
     Bombay.search_button_fails := None;
     Bombay.wait_selector_fails := Some PlaywrightTimeout;
     Bombay.page_content := py "<html></html>";
     Bombay.container_nodes := [];
     Bombay.container_text := [] |}.

Definition cause_list : list Bombay.node :=
  [ Bombay.H3 (py "HON'BLE SHRI JUSTICE A. S. GADKARI");
    Bombay.Table
      [ [py "1"; py "WP/101/2024"; py "Ramesh Kumar vs State"; py "Adv. Rao"];
        [py "with"; py "WP/101/2024"; py "Suresh Kumar v State"; py ""];
        [py "Stand over to next week"];
        [py "0"; py "WP/77/2024"; py "SoloName"; py ""] ] ].

Definition heading : pystr := py "COURT NO: 12 AT 10.30 A.M.".

(** A court whose site shows [cause_list] on every day but [bad_date], on
    which the results never show. *)
Definition court (bad_date : pystr) (party_name date : pystr)
    : Bombay.session :=
  if pystr_eqb date bad_date then timed_out else shown cause_list heading.

Definition text_cell (text : string) : NCLAT.cell :=
  {| NCLAT.cell_text := py text; NCLAT.cell_href := None |}.

Definition link_cell (href : string) : NCLAT.cell :=
  {| NCLAT.cell_text := py "Download"; NCLAT.cell_href := Some (py href) |}.

Definition page1 : pystr :=
  py "NATIONAL COMPANY LAW APPELLATE TRIBUNAL COURT - II" ++ NCLAT.newline
  ++ py "Hon'ble Justice Ashok Bhushan, Chairperson" ++ NCLAT.newline
  ++ py "Hon'ble Mr. Barun Mitra, Member (Technical)" ++ NCLAT.newline
  ++ py "1. CA(AT)(Ins) 12/2024 Ramesh Kumar vs State Bank".

Definition page2 : pystr :=
  py "2. CA(AT) 40/2024 M/s. Ramesh Kumar & Ors. v. Union of India".

Definition row1 : NCLAT.CauseMatch :=
  {| NCLAT.case_number := py "CA(AT)(Ins) 12/2024";
     NCLAT.parties := py "Ramesh Kumar vs State Bank";
     NCLAT.appellant_counsel := py "Mr. Rao";
     NCLAT.respondent_counsel := py "Ms. Iyer";
     NCLAT.court_no := py "II";
     NCLAT.judges := py "Hon'ble Justice Ashok Bhushan, Chairperson" |}.

(** A tribunal whose listing shows one cause list, of 2 January 2024; the
    PDF has two pages; the extraction answers for the first page and
    fails on the second. *)
Definition tribunal : NCLAT.site :=
  {| NCLAT.listing :=
       [ Ok [ [ text_cell "1"; text_cell "Daily Cause List";
                text_cell "Court II"; text_cell "02/01/2024";
                link_cell "/sites/default/files/cause_list_02012024.pdf" ] ] ];
     NCLAT.pdf_server := fun _ => Ok (NCLAT.Pdf [Some page1; Some page2]);
     NCLAT.client := fun p =>
       if contains page2 p then Raise (Exception "invalid JSON")
       else Ok [row1] |}.

(** A disk with the directory [nclat_pdfs] and nothing in it. *)
Definition empty_disk : NCLAT.world :=
  {| NCLAT.files := {[ NCLAT.SAVE_DIR := NCLAT.NotPdf ]}; NCLAT.log := [] |}.

End Examples.

(** * Vocabulary of the statements *)

(** ** Strings *)

(** The length of the longest prefix of [s] in the class [p]. *)
Fixpoint span (p : N -> bool) (s : pystr) : nat :=
  match s with
  | c :: s' => if p c then S (span p s') else O
  | [] => O
  end.

(** A string is collapsed when its only white space is single spaces. *)
Fixpoint collapsed (s : pystr) : Prop :=
  match s with
  | [] => True
  | c :: s' =>
      (isspace c = true ->
       c = 32 /\ match s' with d :: _ => isspace d = false | [] => True end)
      /\ collapsed s'
  end.

(** A string is trimmed when it neither starts nor ends with white
    space. *)
Definition trimmed (s : pystr) : Prop :=
  (forall c t, s = c :: t -> isspace c = false)
  /\ (forall t c, s = t ++ [c] -> isspace c = false).

(** [s] does not start with white space. *)
Definition unspaced (s : pystr) : Prop :=
  forall c t, s = c :: t -> isspace c = false.

(** A string of digits. *)
Definition digits `{PyLib} (s : pystr) : bool :=
  nonempty s && forallb isdecimal s.

(** ** Patterns *)

(** The strings a pattern matches. *)
Inductive lang : regex -> pystr -> Prop :=
| lang_eps : lang Eps []
| lang_chr p c : p c = true -> lang (Chr p) [c]
| lang_cat r1 r2 m1 m2 :
    lang r1 m1 -> lang r2 m2 -> lang (Cat r1 r2) (m1 ++ m2)
| lang_alt_l r1 r2 m : lang r1 m -> lang (Alt r1 r2) m
| lang_alt_r r1 r2 m : lang r2 m -> lang (Alt r1 r2) m
| lang_opt_none r : lang (Opt r) []
| lang_opt_some r m : lang r m -> lang (Opt r) m
| lang_star p m : forallb p m = true -> lang (Star p) m
| lang_grp r m : lang r m -> lang (Grp r) m.

(** No match of [r] starts at the first character of [s]. *)
Definition no_match (r : regex) (s : pystr) : Prop :=
  forall n g, re_match r s <> Some (S n, g).

(** ** The separator of the parties *)

(** [v], [vs] or [vs.], in either case. *)
Definition sep_word (w : pystr) : Prop :=
  exists v, icase "v" v = true /\
    (w = [v] \/ exists s, icase "s" s = true /\ (w = [v; s] \/ w = [v; s; 46])).

(** A run of white space. *)
Definition blank (w : pystr) : Prop := w <> [] /\ forallb isspace w = true.

(** A separator: white space, the word, white space. *)
Definition separator (m : pystr) : Prop :=
  exists w1 w w2, m = w1 ++ w ++ w2 /\ blank w1 /\ sep_word w /\ blank w2.

(** A separator starts at the first character of [s]. *)
Definition sep_at (s : pystr) : Prop :=
  exists m r, s = m ++ r /\ separator m.

(** Checks that no separator starts in [a], read before [rest], and that
    none starts in [s]: to run on a given string. *)
Fixpoint sep_free_before (a rest : pystr) : bool :=
  match a with
  | [] => true
  | _ :: a' =>
      match re_match Bombay.parties_sep (a ++ rest) with
      | None => sep_free_before a' rest
      | Some _ => false
      end
  end.


(** ** Effects *)

(** A computation appends to the log: it reads nothing from it. *)
Definition appends {A : Type} (m : io (list Bombay.event) A) : Prop :=
  forall log, m log = (log ++ fst (m []), snd (m [])).

(** The exception [search] raises in a session, if any: that of the first
    call that fails, where the time-out of the wait for the results is
    raised as an [Exception] of its own. *)
Definition failure (s : Bombay.session) : option exn :=
  match Bombay.launch_fails s with Some e => Some e | None =>
  match Bombay.new_page_fails s with Some e => Some e | None =>
  match Bombay.goto_fails s with Some e => Some e | None =>
  match Bombay.load_state_fails s with Some e => Some e | None =>
  match Bombay.party_tab_fails s with Some e => Some e | None =>
  match Bombay.fill_fails s with Some e => Some e | None =>
  match Bombay.set_date_fails s with Some e => Some e | None =>
  match Bombay.search_button_fails s with Some e => Some e | None =>
  match Bombay.wait_selector_fails s with
  | Some PlaywrightTimeout =>
      Some (Exception "Bombay HC: #tb_causelist not found.")
  | Some e => Some e
  | None => None
  end end end end end end end end end.

(** ** Days *)

(** What [search] gives for the day with ordinal [d]. *)
Definition daily `{PyLib} (site : pystr -> pystr -> Bombay.session)
    (party_name : pystr) (d : Z) : result (list dict) :=
  snd (Bombay.search site (Some party_name)
         (Some (strftime d "%d-%m-%Y")) []).

(** The records of a day: none when the search raised. *)
Definition records (r : result (list dict)) : list dict :=
  match r with Ok l => l | Raise _ => [] end.

(** The days from [a] to [b], in order. *)
Definition days (a b : Z) : list Z :=
  map (fun i => (a + Z.of_nat i)%Z) (seq 0 (Z.to_nat (b + 1 - a))).

(** ** Records *)

(** The fields of a case record. *)
Definition record_fields : list string :=
  [ "case_number"; "petitioner"; "respondent"; "advocates"; "court"; "judge";
    "court_no"; "date"; "court_time"; "remarks"; "with_cases" ]%string.

(** A field holds a string that is not empty. *)
Definition populated (v : value) : Prop := exists s, v = VStr s /\ s <> [].

(** No field among [keys] is [None]. *)
Definition no_none (keys : list string) (d : dict) : Prop :=
  forall k, In k keys -> get k d <> VNone.

(** The cases [extract_cases_from_table] builds: every key is there, with
    a string or a list, and the parties are not empty. *)
Definition main_case (d : dict) : Prop :=
  exists cn pe re ad co ju cno da ct wc rm,
    d = [ ("case_number", VStr cn); ("petitioner", VStr pe);
          ("respondent", VStr re); ("advocates", VStr ad);
          ("court", VStr co); ("judge", VStr ju); ("court_no", VStr cno);
          ("date", VStr da); ("court_time", VStr ct);
          ("with_cases", VList wc); ("remarks", VStr rm) ]%string
    /\ pe <> [] /\ re <> [].

(** What holds of a record of the Bombay scraper: no field is [None] and
    the parties are populated. *)
Definition bombay_record (d : dict) : Prop :=
  no_none record_fields d
  /\ populated (get "petitioner" d) /\ populated (get "respondent" d).

(** The record [NCLAT.search_range] makes of an extracted row. *)
Definition record_of (r : NCLAT.CauseMatch) : dict :=
  [ ("case_number", VStr (NCLAT.case_number r));
    ("petitioner", VStr (fst (NCLAT.split_parties (NCLAT.parties r))));
    ("respondent", VStr (snd (NCLAT.split_parties (NCLAT.parties r))));
    ("advocates",
     VStr (py "A: " ++ NCLAT.appellant_counsel r ++ py " | R: "
           ++ NCLAT.respondent_counsel r));
    ("court", VStr (py "NCLAT"));
    ("judge", VStr (NCLAT.judges r));
    ("court_no", VStr (NCLAT.court_no r));
    ("date", VNone) ]%string.

(** What holds of a record of the NCLAT scraper: the date is [None],
    every other field is a string. *)
Definition nclat_record (d : dict) : Prop :=
  get "date" d = VNone
  /\ forall k,
       In k [ "case_number"; "petitioner"; "respondent"; "advocates";
              "court"; "judge"; "court_no" ]%string ->
       exists s, get k d = VStr s.

(** ** The tribunal's world *)

(** The world [w] with [evs] added to its log. *)
Definition logged (w : NCLAT.world) (evs : list NCLAT.event) : NCLAT.world :=
  {| NCLAT.files := NCLAT.files w; NCLAT.log := NCLAT.log w ++ evs |}.

(** The judges in force after a page with the text [text]. *)
Definition judges_after (current_judges text : pystr) : pystr :=
  match NCLAT.extract_judge_blocks text with
  | [] => current_judges
  | _ :: _ => NCLAT.last_or [] (NCLAT.extract_judge_blocks text)
  end.

(** The identity of the document behind a link: the path it is kept at. *)
Definition identity `{PyLib} (href : pystr) : pystr :=
  NCLAT.save_path
    (NCLAT.last_or [] (split_on 47 (urljoin NCLAT.BASE href))).

Definition is_get_pdf (e : NCLAT.event) : bool :=
  match e with NCLAT.GetPdf _ => true | _ => false end.

(** The number of PDF downloads in a log. *)
Definition downloads (l : list NCLAT.event) : nat :=
  length (filter is_get_pdf l).

(** Every file of [w1] is a file of [w2]. *)
Definition kept (w1 w2 : NCLAT.world) : Prop :=
  forall p, is_Some (NCLAT.files w1 !! p) -> is_Some (NCLAT.files w2 !! p).

(** ** The matcher of the specification *)

(** [s.split()]: the words of [s]. *)
Fixpoint tokens_from (word : pystr) (s : pystr) : list pystr :=
  match s with
  | [] => match word with [] => [] | _ :: _ => [rev word] end
  | c :: s' =>
      if isspace c then
        match word with
        | [] => tokens_from [] s'
        | _ :: _ => rev word :: tokens_from [] s'
        end
      else tokens_from (c :: word) s'
  end.

Definition tokens (s : pystr) : list pystr := tokens_from [] s.


(** ** Rows of a table *)

(** The state of the loop of [extract_cases_from_table] after [rows]. *)
Definition after_rows `{PyLib} (bench court_time court_no date : pystr)
    (rows : list (list pystr)) : Bombay.rows_state :=
  fold_left (Bombay.row_step bench court_time court_no date) rows
    {| Bombay.results := [];
       Bombay.current_main_case := None;
       Bombay.last_case_no := None |}.

(** The state refers to the last record and remembers its case number. *)
Definition tracked (st : Bombay.rows_state) : Prop :=
  match last (Bombay.results st) with
  | None =>
      Bombay.current_main_case st = None /\ Bombay.last_case_no st = None
  | Some d =>
      Bombay.current_main_case st
      = Some (length (Bombay.results st) - 1)%nat
      /\ exists cn,
           Bombay.last_case_no st = Some cn
           /\ get "case_number" d = VStr cn
  end.

(** The record a row of four cells starts, from its last three cells. *)
Definition case_of_row `{PyLib} (bench court_time court_no date : pystr)
    (c1 c2 c3 : pystr) : dict :=
  Bombay.new_case (Bombay.normalize_text c1)
    (fst (Bombay.split_parties (Bombay.normalize_text c2)))
    (snd (Bombay.split_parties (Bombay.normalize_text c2)))
    (Bombay.normalize_text c3) bench court_no date court_time.

(** A row that is attached to the main case with the number [case_no]: a
    row of one cell, or a row of four cells marked [with] that has no
    case number or the number of the main case. *)
Definition attached_row `{PyLib} (case_no : pystr) (cells : list pystr)
    : Prop :=
  match cells with
  | [_] => True
  | [c0; c1; _; _] =>
      digits (Bombay.normalize_text c0) = false
      /\ lower (Bombay.normalize_text c0) = py "with"
      /\ (Bombay.normalize_text c1 = []
          \/ Bombay.normalize_text c1 = case_no)
  | _ => False
  end.

(** The remarks among the rows: the texts of the rows of one cell that
    are not blank. *)
Definition remark_texts (rows : list (list pystr)) : list pystr :=
  flat_map
    (fun cells =>
       match cells with
       | [c0] =>
           if nonempty (Bombay.normalize_text c0)
           then [Bombay.normalize_text c0] else []
       | _ => []
       end) rows.

(** The linked cases among the rows: an entry for every row of four
    cells. *)
Definition with_entries (rows : list (list pystr)) : list value :=
  flat_map
    (fun cells =>
       match cells with
       | [_; c1; c2; _] =>
           [VDict [("case_number", VStr (Bombay.normalize_text c1));
                   ("details", VStr (Bombay.normalize_text c2))]%string]
       | _ => []
       end) rows.

(** [remarks += text if not remarks else "\n" + text] *)
Definition append_remark (remarks text : pystr) : pystr :=
  remarks ++ (if nonempty remarks then [10] ++ text else text).

(** A record with its linked cases and its remarks set. *)
Definition with_attachments (d : dict) (with_cases : list value)
    (remarks : pystr) : dict :=
  set "remarks" (VStr remarks) (set "with_cases" (VList with_cases) d).

(** ** Headings and tables *)

(** What [search] reads in the text of the container: the first time of
    a sitting, the first court number and the first date it shows, and in
    their place ["N/A"], ["N/A"] and the date searched for. *)
Definition shown_time `{PyLib} (text : pystr) : pystr :=
  match re_search Bombay.time_re (Bombay.normalize_text text) with
  | Some m => fst m
  | None => py "N/A"
  end.

Definition shown_court_no `{PyLib} (text : pystr) : pystr :=
  match re_search Bombay.court_no_re (Bombay.normalize_text text) with
  | Some m => Bombay.group1 m
  | None => py "N/A"
  end.

Definition shown_date `{PyLib} (text date : pystr) : pystr :=
  match re_search Bombay.date_re (Bombay.normalize_text text) with
  | Some m => Bombay.group1 m
  | None => date
  end.

(** A heading that names judges. *)
Definition names_judges (n : Bombay.node) : bool :=
  match n with
  | Bombay.H3 text =>
      match re_search Bombay.judges_re (Bombay.normalize_text text) with
      | Some _ => true
      | None => false
      end
  | Bombay.Table _ => false
  end.

(** The bench after the nodes [nodes]: the last heading among them that
    names judges, ["N/A"] without one. *)
Definition bench_after (nodes : list Bombay.node) : pystr :=
  match find names_judges (rev nodes) with
  | Some (Bombay.H3 text) => Bombay.normalize_text text
  | _ => py "N/A"
  end.

(** An entry of [with_cases]. *)
Definition linked_case (v : value) : Prop :=
  exists c p, v = VDict [("case_number", VStr c); ("details", VStr p)]%string.

(** A record of a table read under the bench [bench] with the time, the
    court number and the date of the container. *)
Definition table_case (bench court_time court_no date : pystr) (d : dict)
    : Prop :=
  exists cn pe re ad wc rm,
    d = [ ("case_number", VStr cn); ("petitioner", VStr pe);
          ("respondent", VStr re); ("advocates", VStr ad);
          ("court", VStr (py "Bombay High Court")); ("judge", VStr bench);
          ("court_no", VStr court_no); ("date", VStr date);
          ("court_time", VStr court_time);
          ("with_cases", VList wc); ("remarks", VStr rm) ]%string
    /\ ad <> [] /\ Forall linked_case wc.

(** The layout of a record [search] returns: the eleven keys in their
    order, the name of the court, advocates that are not empty, linked
    cases with a case number and details, remarks that are a string. *)
Definition bombay_layout (d : dict) : Prop :=
  map fst d = record_fields
  /\ get "court" d = VStr (py "Bombay High Court")
  /\ populated (get "advocates" d)
  /\ (exists wc, get "with_cases" d = VList wc /\ Forall linked_case wc)
  /\ (exists rm, get "remarks" d = VStr rm).

(** The state the loop of [search] over the nodes starts from. *)
Definition walk_start : Bombay.walk_state :=
  {| Bombay.current_bench := py "N/A";
     Bombay.current_time := py "N/A";
     Bombay.current_court_no := py "N/A";
     Bombay.all_results := [] |}.

(** What the loop keeps true of its state. *)
Definition walk_invariant `{PyLib} (text date : pystr)
    (nodes : list Bombay.node) (st : Bombay.walk_state) : Prop :=
  Bombay.current_bench st = bench_after nodes
  /\ (re_search Bombay.time_re (Bombay.normalize_text text) = None ->
      Bombay.current_time st = py "N/A")
  /\ (re_search Bombay.court_no_re (Bombay.normalize_text text) = None ->
      Bombay.current_court_no st = py "N/A")
  /\ Forall (fun d => exists bench,
                 table_case bench (shown_time text) (shown_court_no text)
                   (shown_date text date) d)
       (Bombay.all_results st).

(** ** Calls of the browser *)

Definition is_write_file (e : Bombay.event) : bool :=
  match e with Bombay.WriteFile _ _ => true | _ => false end.

Definition is_skipping (e : Bombay.event) : bool :=
  match e with Bombay.Skipping _ _ => true | _ => false end.

(** The days a log says were skipped. *)
Definition skipped (l : list Bombay.event) : list Bombay.event :=
  List.filter is_skipping l.

(** The session gets as far as the wait for the results: no call before
    it fails. *)
Definition reaches_the_wait (s : Bombay.session) : Prop :=
  Bombay.launch_fails s = None /\ Bombay.new_page_fails s = None
  /\ Bombay.goto_fails s = None /\ Bombay.load_state_fails s = None
  /\ Bombay.party_tab_fails s = None /\ Bombay.fill_fails s = None
  /\ Bombay.set_date_fails s = None /\ Bombay.search_button_fails s = None.

(** What [search_range] logs for a day: that it skips it, when its
    search raises. *)
Definition skip_of `{PyLib} (site : pystr -> pystr -> Bombay.session)
    (party_name : pystr) (d : Z) : list Bombay.event :=
  match daily site party_name d with
  | Raise e => [Bombay.Skipping (strftime d "%d-%m-%Y") e]
  | Ok _ => []
  end.

(** ** The listing and the extraction *)

Definition is_extract (e : NCLAT.event) : bool :=
  match e with NCLAT.Extract _ => true | _ => false end.

(** The number of calls of the extraction in a log. *)
Definition extractions (l : list NCLAT.event) : nat :=
  length (List.filter is_extract l).

(** An event of the extraction: the call, or the note that it failed. *)
Definition of_extraction (e : NCLAT.event) : Prop :=
  match e with
  | NCLAT.Extract _ | NCLAT.ExtractFailed _ => True
  | _ => False
  end.

(** The page is sent to the extraction: it has text, and the party
    matches. *)
Definition sent_to_extraction `{PyLib} (party_name : pystr)
    (page : option pystr) : bool :=
  match page with
  | Some (c :: t) => NCLAT.party_matches party_name (c :: t)
  | _ => false
  end.

(** The link of a row of the listing whose date is in the range. *)
Definition link_in_range `{PyLib} (start_dt end_dt : Z)
    (cols : list NCLAT.cell) : option pystr :=
  match cols !! 3%nat, cols !! 4%nat with
  | Some c3, Some c4 =>
      match strptime (NCLAT.cell_text c3) "%d/%m/%Y" with
      | Some row_dt =>
          if ((start_dt <=? row_dt) && (row_dt <=? end_dt))%Z
          then NCLAT.cell_href c4 else None
      | None => None
      end
  | _, _ => None
  end.

(** A row of a page of the listing. *)
Definition listed (pages : list (result (list (list NCLAT.cell))))
    (cols : list NCLAT.cell) : Prop :=
  exists rows, In (Ok rows) pages /\ In cols rows.

(** The document behind a link of the listing that is in the range. *)
Definition wanted `{PyLib} (s : NCLAT.site) (start_dt end_dt : Z)
    (href : pystr) : Prop :=
  exists cols,
    listed (NCLAT.listing s) cols
    /\ link_in_range start_dt end_dt cols = Some href.

(** A row with a date before the start of the range. *)
Definition older `{PyLib} (start_dt : Z) (cols : list NCLAT.cell) : Prop :=
  exists c3 c4 row_dt,
    cols !! 3%nat = Some c3 /\ cols !! 4%nat = Some c4
    /\ strptime (NCLAT.cell_text c3) "%d/%m/%Y" = Some row_dt
    /\ (row_dt < start_dt)%Z.

(** The site with another listing. *)
Definition with_listing (s : NCLAT.site)
    (pages : list (result (list (list NCLAT.cell)))) : NCLAT.site :=
  {| NCLAT.listing := pages;
     NCLAT.pdf_server := NCLAT.pdf_server s;
     NCLAT.client := NCLAT.client s |}.


(** A row the extraction returned. *)
Definition answered (s : NCLAT.site) (r : NCLAT.CauseMatch) : Prop :=
  exists message rows, NCLAT.client s message = Ok rows /\ In r rows.

(** What [download_pdfs] may do: ask for a page of the listing, get a
    document that is wanted, write it at its path. *)
Definition of_download `{PyLib} (s : NCLAT.site) (start_dt end_dt : Z)
    (e : NCLAT.event) : Prop :=
  match e with
  | NCLAT.GetListing _ => True
  | NCLAT.GetPdf url =>
      exists href,
        wanted s start_dt end_dt href /\ url = urljoin NCLAT.BASE href
  | NCLAT.WriteBytes path =>
      exists href, wanted s start_dt end_dt href /\ path = identity href
  | _ => False
  end.

(** A path [download_pdfs] selects: the document is wanted, and it is on
    disk. *)
Definition selected `{PyLib} (s : NCLAT.site) (start_dt end_dt : Z)
    (w : NCLAT.world) (path : pystr) : Prop :=
  is_Some (NCLAT.files w !! path)
  /\ exists href, wanted s start_dt end_dt href /\ path = identity href.

(** ** More samples *)

(** A PDF on disk: two pages that name Ramesh Kumar, around a page
    without text. *)
Definition sample_disk : NCLAT.world :=
  {| NCLAT.files :=
       {[ py "nclat_pdfs/a.pdf" :=
            NCLAT.Pdf [Some Examples.page1; None; Some Examples.page2] ]};
     NCLAT.log := [] |}.


(** A listing of two pages, newest first; the first page ends with a
    cause list of 31 December 2023. *)
Definition first_page : list (list NCLAT.cell) :=
  [ [ Examples.text_cell "1"; Examples.text_cell "Daily Cause List";
      Examples.text_cell "Court II"; Examples.text_cell "02/01/2024";
      Examples.link_cell "/sites/default/files/cause_list_02012024.pdf" ];
    [ Examples.text_cell "2"; Examples.text_cell "Daily Cause List";
      Examples.text_cell "Court II"; Examples.text_cell "31/12/2023";
      Examples.link_cell "/sites/default/files/cause_list_31122023.pdf" ] ].

Definition second_page : list (list NCLAT.cell) :=
  [ [ Examples.text_cell "3"; Examples.text_cell "Daily Cause List";
      Examples.text_cell "Court II"; Examples.text_cell "30/12/2023";
      Examples.link_cell "/sites/default/files/cause_list_30122023.pdf" ] ].

(** ** Groups *)

(** The strings a pattern matches, with what its groups capture. *)
Inductive captures : regex -> pystr -> list pystr -> Prop :=
| cap_eps : captures Eps [] []
| cap_chr p c : p c = true -> captures (Chr p) [c] []
| cap_cat r1 r2 m1 m2 g1 g2 :
    captures r1 m1 g1 -> captures r2 m2 g2 ->
    captures (Cat r1 r2) (m1 ++ m2) (g1 ++ g2)
| cap_alt_l r1 r2 m g : captures r1 m g -> captures (Alt r1 r2) m g
| cap_alt_r r1 r2 m g : captures r2 m g -> captures (Alt r1 r2) m g
| cap_opt_none r : captures (Opt r) [] []
| cap_opt_some r m g : captures r m g -> captures (Opt r) m g
| cap_star p m : forallb p m = true -> captures (Star p) m []
| cap_grp r m g : captures r m g -> captures (Grp r) m (g ++ [m]).

(** A pattern without a group. *)
Fixpoint groupless (r : regex) : bool :=
  match r with
  | Eps | Chr _ | Star _ => true
  | Cat r1 r2 | Alt r1 r2 => groupless r1 && groupless r2
  | Opt r1 => groupless r1
  | Grp _ => false
  end.

(** A date as a cause list writes it: two digits, two digits and four
    digits between hyphens. *)
Definition written_date `{PyLib} (s : pystr) : Prop :=
  exists d1 d2 m1 m2 y1 y2 y3 y4,
    s = [d1; d2; 45; m1; m2; 45; y1; y2; y3; y4]
    /\ forallb isdecimal [d1; d2; m1; m2; y1; y2; y3; y4] = true.

(** * Facts about strings and patterns *)

Lemma span_le p s : (span p s <= length s)%nat.
Proof. induction s as [|c s IH]; simpl; [lia|]. destruct (p c); simpl; lia. Qed.

Lemma drop_span_head p s c t : drop (span p s) s = c :: t -> p c = false.
Proof.
  induction s as [|d s IH]; simpl; [discriminate|].
  destruct (p d) eqn:Hd; simpl; [exact IH|].
  intros [= -> _]. exact Hd.
Qed.

Lemma star_total {A : Type} p s (k : pystr -> option A) :
  (forall x, is_Some (k x)) -> star p s k = k (drop (span p s) s).
Proof.
  intros Hk. induction s as [|c s IH]; simpl; [reflexivity|].
  destruct (p c); simpl; [|reflexivity].
  rewrite IH. destruct (Hk (drop (span p s) s)) as [a ->]. reflexivity.
Qed.

Lemma re_match_plus p c s :
  re_match (Plus p) (c :: s) = if p c then Some (S (span p s), []) else None.
Proof.
  unfold re_match, Plus. simpl rx. destruct (p c); [|reflexivity].
  rewrite star_total by (intros x; eexists; reflexivity).
  f_equal. f_equal. rewrite length_drop. pose proof (span_le p s). simpl. lia.
Qed.

Lemma re_match_chr p c s :
  re_match (Chr p) (c :: s) = if p c then Some (1%nat, []) else None.
Proof.
  unfold re_match. simpl. destruct (p c); [|reflexivity].
  f_equal. f_equal. lia.
Qed.

Lemma sub_scan_skip r repl s n :
  sub_scan r repl s n = sub_scan r repl (drop n s) 0.
Proof.
  revert n. induction s as [|c s IH]; intros [|n]; try reflexivity.
  simpl sub_scan at 1. rewrite IH. reflexivity.
Qed.

Lemma sub_plus_cons p repl c s :
  re_sub (Plus p) repl (c :: s) =
  if p c then repl ++ re_sub (Plus p) repl (drop (span p s) s)
  else c :: re_sub (Plus p) repl s.
Proof.
  unfold re_sub. simpl sub_scan. rewrite re_match_plus.
  destruct (p c); [|reflexivity]. rewrite sub_scan_skip. reflexivity.
Qed.

Lemma sub_chr_cons p repl c s :
  re_sub (Chr p) repl (c :: s) =
  if p c then repl ++ re_sub (Chr p) repl s else c :: re_sub (Chr p) repl s.
Proof.
  unfold re_sub. simpl sub_scan. rewrite re_match_chr.
  destruct (p c); reflexivity.
Qed.

Lemma sub_plus_head repl c s :
  isspace c = false ->
  re_sub (Plus isspace) repl (c :: s) = c :: re_sub (Plus isspace) repl s.
Proof. intros Hc. rewrite sub_plus_cons, Hc. reflexivity. Qed.

Lemma sub_space_collapsed_aux n : forall s,
  (length s <= n)%nat -> collapsed (re_sub (Plus isspace) [32] s).
Proof.
  induction n as [|n IH]; intros [|c s] Hn; simpl in Hn; try exact I; try lia.
  rewrite sub_plus_cons. destruct (isspace c) eqn:Hc.
  - simpl. split.
    + intros _. split; [reflexivity|].
      destruct (drop (span isspace s) s) as [|d t] eqn:Hd; [exact I|].
      rewrite sub_plus_head by (eapply drop_span_head; eauto). 
      eapply drop_span_head; eauto.
    + apply IH. rewrite length_drop. lia.
  - simpl. split; [congruence|]. apply IH. lia.
Qed.

Lemma sub_space_collapsed s : collapsed (re_sub (Plus isspace) [32] s).
Proof. apply (sub_space_collapsed_aux (length s)). lia. Qed.

Lemma sub_space_fixed s :
  collapsed s -> re_sub (Plus isspace) [32] s = s.
Proof.
  induction s as [|c s IH]; [reflexivity|]. intros [Hc Hs].
  rewrite sub_plus_cons. destruct (isspace c) eqn:Hsp.
  - destruct (Hc eq_refl) as [-> Hd]. simpl. f_equal.
    destruct s as [|d t]; [reflexivity|]. simpl. rewrite Hd. simpl.
    apply IH. exact Hs.
  - f_equal. apply IH. exact Hs.
Qed.


Lemma collapsed_app_r l s : collapsed (l ++ s) -> collapsed s.
Proof. induction l as [|c l IH]; simpl; [tauto|]. intros [_ H]. auto. Qed.

Lemma collapsed_app_l s r : collapsed (s ++ r) -> collapsed s.
Proof.
  induction s as [|c s IH]; simpl; [tauto|]. intros [Hc Hs]. split; [|auto].
  intros Hsp. destruct (Hc Hsp) as [-> Hd]. split; [reflexivity|].
  destruct s; [exact I|exact Hd].
Qed.

Lemma lstrip_suffix s : exists l, s = l ++ lstrip s.
Proof.
  induction s as [|c s [l IH]]; [exists []; reflexivity|]. simpl.
  destruct (isspace c); [|exists []; reflexivity].
  exists (c :: l). simpl. congruence.
Qed.

Lemma lstrip_head s c t : lstrip s = c :: t -> isspace c = false.
Proof.
  induction s as [|d s IH]; simpl; [discriminate|].
  destruct (isspace d) eqn:Hd; [exact IH|]. intros [= -> _]. exact Hd.
Qed.

Lemma lstrip_fixed s :
  (forall c t, s = c :: t -> isspace c = false) -> lstrip s = s.
Proof.
  destruct s as [|c t]; [reflexivity|]. intros Hs. simpl.
  rewrite (Hs c t eq_refl). reflexivity.
Qed.

Lemma rstrip_snoc s c :
  rstrip (s ++ [c]) = if isspace c then rstrip s else s ++ [c].
Proof.
  unfold rstrip. rewrite rev_app_distr. simpl.
  destruct (isspace c); [reflexivity|]. simpl. rewrite rev_involutive.
  reflexivity.
Qed.

Lemma rstrip_prefix s : exists r, s = rstrip s ++ r.
Proof.
  induction s as [|c s [r IH]] using rev_ind; [exists []; reflexivity|].
  rewrite rstrip_snoc. destruct (isspace c).
  - exists (r ++ [c]). rewrite app_assoc. congruence.
  - exists []. rewrite app_nil_r. reflexivity.
Qed.

Lemma rstrip_last s t c : rstrip s = t ++ [c] -> isspace c = false.
Proof.
  induction s as [|d s IH] using rev_ind; [destruct t; discriminate|].
  rewrite rstrip_snoc. destruct (isspace d) eqn:Hd; [exact IH|].
  intros Heq. apply app_inj_tail in Heq as [_ <-]. exact Hd.
Qed.

Lemma rstrip_fixed s :
  (forall t c, s = t ++ [c] -> isspace c = false) -> rstrip s = s.
Proof.
  destruct s as [|c s] using rev_ind; [reflexivity|]. intros Hs.
  rewrite rstrip_snoc, (Hs s c eq_refl). reflexivity.
Qed.

Lemma strip_trimmed s : trimmed (strip s).
Proof.
  unfold strip. split.
  - intros c t Heq. destruct (rstrip_prefix (lstrip s)) as [r Hr].
    rewrite Heq in Hr. simpl in Hr. eapply lstrip_head. exact Hr.
  - intros t c Heq. eapply rstrip_last. exact Heq.
Qed.

Lemma strip_fixed s : trimmed s -> strip s = s.
Proof.
  intros [Hl Hr]. unfold strip. rewrite (lstrip_fixed s Hl).
  apply rstrip_fixed. exact Hr.
Qed.

Lemma strip_collapsed s : collapsed s -> collapsed (strip s).
Proof.
  intros Hs. unfold strip.
  destruct (lstrip_suffix s) as [l Hl].
  destruct (rstrip_prefix (lstrip s)) as [r Hr].
  rewrite Hl in Hs. apply collapsed_app_r in Hs. rewrite Hr in Hs.
  apply collapsed_app_l in Hs. exact Hs.
Qed.

(** The characters of a string after [strip] and after the collapse of
    white space are characters it had, or the space written for a run. *)
Lemma strip_incl s c : In c (strip s) -> In c s.
Proof.
  unfold strip. intros Hc.
  destruct (lstrip_suffix s) as [l Hl].
  destruct (rstrip_prefix (lstrip s)) as [r Hr].
  rewrite Hl, Hr. rewrite !in_app_iff. tauto.
Qed.

Lemma drop_incl {A : Type} n (s : list A) c : In c (drop n s) -> In c s.
Proof.
  revert n. induction s as [|d s IH]; intros [|n]; simpl; auto.
  intros Hc. right. eapply IH. exact Hc.
Qed.

Lemma sub_space_incl_aux n : forall s c,
  (length s <= n)%nat ->
  In c (re_sub (Plus isspace) [32] s) -> c = 32 \/ In c s.
Proof.
  induction n as [|n IH]; intros [|d s] c Hn; simpl in Hn;
    try (simpl; tauto); try lia.
  rewrite sub_plus_cons. destruct (isspace d).
  - simpl. intros [<-|Hc]; [left; reflexivity|].
    apply IH in Hc; [|rewrite length_drop; lia].
    destruct Hc as [->|Hc]; [left; reflexivity|].
    right. right. eapply drop_incl. exact Hc.
  - simpl. intros [<-|Hc]; [right; left; reflexivity|].
    apply IH in Hc; [|lia]. tauto.
Qed.

Lemma sub_space_incl s c :
  In c (re_sub (Plus isspace) [32] s) -> c = 32 \/ In c s.
Proof. apply (sub_space_incl_aux (length s)). lia. Qed.

Lemma collapsed_space s c : collapsed s -> In c s -> isspace c = true -> c = 32.
Proof.
  induction s as [|d s IH]; simpl; [tauto|].
  intros [Hd Hs] [->|Hc] Hsp; [apply Hd; exact Hsp|auto].
Qed.

Lemma replace_char_fixed old new s :
  ~ In old s -> replace_char old new s = s.
Proof.
  unfold replace_char. induction s as [|c s IH]; [reflexivity|].
  simpl. intros Hn. destruct (N.eqb_spec c old) as [->|_]; [tauto|].
  simpl. f_equal. apply IH. tauto.
Qed.

Lemma normalize_text_normal s :
  collapsed (Bombay.normalize_text s) /\ trimmed (Bombay.normalize_text s).
Proof.
  unfold Bombay.normalize_text. split.
  - apply strip_collapsed, sub_space_collapsed.
  - apply strip_trimmed.
Qed.

Lemma normalize_text_fixed s :
  collapsed s -> trimmed s -> Bombay.normalize_text s = s.
Proof.
  intros Hc Ht. unfold Bombay.normalize_text.
  rewrite replace_char_fixed.
  - change (py " ") with [32]. rewrite sub_space_fixed by exact Hc.
    apply strip_fixed. exact Ht.
  - intros Hin. pose proof (collapsed_space s 160 Hc Hin eq_refl). discriminate.
Qed.

Section NormalizeFacts.
Context `{PyLib}.

Lemma sub_punct_incl s c :
  In c (re_sub (Chr NCLAT.punct) [32] s) ->
  c = 32 \/ (In c s /\ NCLAT.punct c = false).
Proof.
  induction s as [|d s IH]; [simpl; tauto|].
  rewrite sub_chr_cons. destruct (NCLAT.punct d) eqn:Hd; simpl.
  - intros [<-|Hc]; [left; reflexivity|]. apply IH in Hc. tauto.
  - intros [<-|Hc]; [right; split; [left; reflexivity|exact Hd]|].
    apply IH in Hc. tauto.
Qed.



(** What [normalize] returns: trimmed, collapsed, and made of spaces
    and of characters of the lowered text that are no punctuation. *)
Lemma normalize_chars text c :
  In c (NCLAT.normalize text) ->
  c = 32 \/ (In c (lower text) /\ NCLAT.punct c = false).
Proof.
  unfold NCLAT.normalize. intros Hc. apply strip_incl in Hc.
  change (py " ") with [32] in Hc.
  apply sub_space_incl in Hc as [->|Hc]; [left; reflexivity|].
  apply sub_punct_incl in Hc. exact Hc.
Qed.

Lemma normalize_normal text :
  collapsed (NCLAT.normalize text) /\ trimmed (NCLAT.normalize text).
Proof.
  unfold NCLAT.normalize. split.
  - apply strip_collapsed, sub_space_collapsed.
  - apply strip_trimmed.
Qed.

End NormalizeFacts.


(** * Facts about bombay_high_court.py *)

Section BombayFacts.
Context `{PyLib}.
Import Bombay.

(** ** Row classification *)

Lemma star_fullmatch p s :
  star p s (fun s' => if nonempty s' then None else Some tt) =
  if forallb p s then Some tt else None.
Proof.
  induction s as [|c s IH]; [reflexivity|]. simpl.
  destruct (p c); [|reflexivity]. simpl. rewrite IH.
  destruct (forallb p s); reflexivity.
Qed.

Lemma fullmatch_plus p s : re_fullmatch (Plus p) s = nonempty s && forallb p s.
Proof.
  unfold re_fullmatch, Plus. destruct s as [|c s]; [reflexivity|].
  simpl. destruct (p c); [|reflexivity]. rewrite star_fullmatch.
  destruct (forallb p s); reflexivity.
Qed.

Lemma digits_collapsed s : forallb isdecimal s = true -> collapsed s.
Proof.
  induction s as [|c s IH]; [exact (fun _ => I)|]. simpl.
  intros [Hc Hs]%andb_prop. split; [|auto].
  intros Hsp. rewrite (isdecimal_not_space c Hc) in Hsp. discriminate.
Qed.

Lemma digits_trimmed s : forallb isdecimal s = true -> trimmed s.
Proof.
  intros Hs. rewrite forallb_forall in Hs.
  split; intros ? ? ->; apply isdecimal_not_space, Hs;
    [left; reflexivity|apply in_app_iff; right; left; reflexivity].
Qed.

(** ["0"] is a string of digits, whatever the character database. *)
Lemma zero_is_digits : digits (py "0") = true.
Proof.
  unfold digits. simpl. rewrite isdecimal_digit by (split; discriminate).
  reflexivity.
Qed.

Lemma normalize_text_digits s :
  forallb isdecimal s = true -> normalize_text s = s.
Proof.
  intros Hs. apply normalize_text_fixed;
    [apply digits_collapsed|apply digits_trimmed]; exact Hs.
Qed.

(** A row of four cells whose leading cell normalises to a string of
    digits starts a new main case. *)
Lemma row_step_cl_no bench court_time court_no date st c0 c1 c2 c3 :
  digits (normalize_text c0) = true ->
  row_step bench court_time court_no date st [c0; c1; c2; c3] =
  {| results :=
       results st ++
       [new_case (normalize_text c1)
          (fst (split_parties (normalize_text c2)))
          (snd (split_parties (normalize_text c2)))
          (normalize_text c3) bench court_no date court_time];
     current_main_case := Some (length (results st));
     last_case_no := Some (normalize_text c1) |}.
Proof.
  intros Hd. unfold row_step. rewrite fullmatch_plus.
  unfold digits in Hd. rewrite Hd. simpl.
  destruct (split_parties (normalize_text c2)). reflexivity.
Qed.

(** ** The monad *)

Lemma appends_ret {A : Type} (a : A) : appends (ret a).
Proof. intros log. unfold ret. simpl. rewrite app_nil_r. reflexivity. Qed.

Lemma appends_raise {A : Type} e : appends (@raise _ A e).
Proof. intros log. unfold raise. simpl. rewrite app_nil_r. reflexivity. Qed.

Lemma appends_step e f : appends (step e f).
Proof. intros log. reflexivity. Qed.

Lemma appends_bind {A B : Type} (m : io (list event) A)
    (f : A -> io (list event) B) :
  appends m -> (forall a, appends (f a)) -> appends (bind m f).
Proof.
  intros Hm Hf log. unfold bind. rewrite (Hm log).
  destruct (m []) as [l [a|e]]; simpl.
  - rewrite (Hf a (log ++ l)), (Hf a l). simpl.
    rewrite app_assoc. reflexivity.
  - reflexivity.
Qed.

Lemma appends_try_except {A : Type} (m : io (list event) A) h :
  appends m -> (forall e k, h e = Some k -> appends k) ->
  appends (try_except m h).
Proof.
  intros Hm Hh log. unfold try_except. rewrite (Hm log).
  destruct (m []) as [l [a|e]]; simpl.
  - reflexivity.
  - destruct (h e) as [k|] eqn:Hk.
    + rewrite (Hh e k Hk (log ++ l)), (Hh e k Hk l). simpl.
      rewrite app_assoc. reflexivity.
    + reflexivity.
Qed.

Lemma appends_try_finally {A : Type} (m : io (list event) A) fin :
  appends m -> appends fin -> appends (try_finally m fin).
Proof.
  intros Hm Hf log. unfold try_finally. rewrite (Hm log).
  destruct (m []) as [l r]; simpl.
  rewrite (Hf (log ++ l)), (Hf l).
  destruct (fin []) as [l' [[]|e]]; simpl; rewrite app_assoc; reflexivity.
Qed.

Context (site : pystr -> pystr -> session).

Lemma appends_search_page s party_name date :
  appends (search_page s party_name date).
Proof.
  unfold search_page.
  repeat first
    [ apply appends_bind; [|intros ?]
    | apply appends_step
    | apply appends_ret
    | apply appends_raise
    | apply appends_try_except;
      [|intros e k Hk; destruct e; try discriminate; injection Hk as <-] ].
Qed.

Lemma appends_search party_name date : appends (search site party_name date).
Proof.
  unfold search. destruct party_name as [p|], date as [d|];
    try apply appends_ret.
  destruct (nonempty p && nonempty d); [|apply appends_ret].
  cbv zeta.
  repeat first
    [ apply appends_search_page
    | apply appends_step
    | apply appends_try_finally
    | apply appends_bind; [|intros ?] ].
Qed.

End BombayFacts.


Section BombaySearch.
Context `{PyLib} (site : pystr -> pystr -> Bombay.session).
Import Bombay.
Local Open Scope Z_scope.

(** ** search *)


(** A session without a failure is one in which no call fails. *)
Lemma failure_none s :
  failure s = None <->
  launch_fails s = None /\ new_page_fails s = None /\ goto_fails s = None
  /\ load_state_fails s = None /\ party_tab_fails s = None
  /\ fill_fails s = None /\ set_date_fails s = None
  /\ search_button_fails s = None /\ wait_selector_fails s = None.
Proof.
  unfold failure. split.
  - intros Hf.
    destruct (launch_fails s); [discriminate|].
    destruct (new_page_fails s); [discriminate|].
    destruct (goto_fails s); [discriminate|].
    destruct (load_state_fails s); [discriminate|].
    destruct (party_tab_fails s); [discriminate|].
    destruct (fill_fails s); [discriminate|].
    destruct (set_date_fails s); [discriminate|].
    destruct (search_button_fails s); [discriminate|].
    destruct (wait_selector_fails s) as [[]|]; try discriminate.
    repeat split.
  - intros (H1 & H2 & H3 & H4 & H5 & H6 & H7 & H8 & H9).
    rewrite H1, H2, H3, H4, H5, H6, H7, H8, H9. reflexivity.
Qed.

(** What [search] logs and raises when everything up to the wait for the
    results goes well and the wait times out. *)
Lemma search_timeout party_name date log :
  let s := site party_name date in
  nonempty party_name = true -> nonempty date = true ->
  launch_fails s = None -> new_page_fails s = None ->
  goto_fails s = None -> load_state_fails s = None ->
  party_tab_fails s = None -> fill_fails s = None ->
  set_date_fails s = None -> search_button_fails s = None ->
  wait_selector_fails s = Some PlaywrightTimeout ->
  search site (Some party_name) (Some date) log =
  (log ++ [Launch; NewPage; Goto BOMBAY_CAUSELIST_URL; WaitLoadState;
           ClickText "Party";
           Fill "input[placeholder='Party Name']" party_name;
           SetDate date; ClickButton "Search";
           WaitSelector "#tb_causelist"; Content;
           WriteFile "bombay_debug.html" (page_content s); Close],
   Raise (Exception "Bombay HC: #tb_causelist not found.")).
Proof.
  intros s Hp Hd H1 H2 H3 H4 H5 H6 H7 H8 H9.
  unfold search. rewrite Hp, Hd. simpl. fold s.
  unfold search_page, bind, try_finally, try_except, step, raise.
  rewrite H1, H2, H3, H4, H5, H6, H7, H8, H9.
  repeat rewrite <- app_assoc. reflexivity.
Qed.

(** ** search_range *)

Lemma days_nil a b : b < a -> days a b = [].
Proof.
  intros Hab. unfold days. replace (Z.to_nat (b + 1 - a)) with O by lia.
  reflexivity.
Qed.

Lemma days_cons a b : a <= b -> days a b = a :: days (a + 1) b.
Proof.
  intros Hab. unfold days.
  replace (Z.to_nat (b + 1 - a)) with (S (Z.to_nat (b + 1 - (a + 1)))) by lia.
  simpl. f_equal; [lia|]. rewrite <- seq_shift, map_map.
  apply map_ext. intros i. lia.
Qed.

Lemma days_app a m b : a <= m + 1 -> m <= b -> days a b = days a m ++ days (m + 1) b.
Proof.
  intros Ham Hmb.
  remember (Z.to_nat (m + 1 - a)) as n eqn:Hn. revert a Ham Hn.
  induction n as [|n IH]; intros a Ham Hn.
  - rewrite (days_nil a m) by lia. simpl. f_equal. lia.
  - rewrite (days_cons a b), (days_cons a m) by lia. simpl. f_equal.
    apply IH; lia.
Qed.

Lemma scan_days_eq party_name current end_dt acc :
  scan_days site party_name current end_dt acc =
  if Z_le_dec current end_dt then
    let cause_date := strftime current "%d-%m-%Y" in
    all_results' <-
      try_except
        (daily_results <- search site (Some party_name) (Some cause_date) ;;
         ret (acc ++ daily_results))
        (fun e => Some (step (Skipping cause_date e) None ;;; ret acc)) ;;
    if current <? MAXORDINAL
    then scan_days site party_name (current + 1) end_dt all_results'
    else raise OverflowError
  else ret acc.
Proof.
  simp scan_days. destruct (Z_le_dec current end_dt); reflexivity.
Qed.

Lemma scan_days_result party_name end_dt n : forall current acc log,
  Z.to_nat (end_dt + 1 - current) = n -> end_dt < MAXORDINAL ->
  snd (scan_days site party_name current end_dt acc log) =
  Ok (acc ++ flat_map (fun d => records (daily site party_name d))
                (days current end_dt)).
Proof.
  induction n as [|n IH]; intros current acc log Hn Hmax;
    rewrite scan_days_eq; destruct (Z_le_dec current end_dt) as [Hle|Hgt];
    try lia.
  - rewrite days_nil by lia. simpl. rewrite app_nil_r. reflexivity.
  - rewrite days_cons by lia. simpl flat_map.
    unfold daily at 1. cbv zeta.
    unfold bind at 1, try_except, bind at 1.
    rewrite (appends_search site _ _ log).
    destruct (search site (Some party_name)
                (Some (strftime current "%d-%m-%Y")) []) as [l [daily_results|e]];
      simpl.
    + replace (current <? MAXORDINAL) with true by (symmetry; apply Z.ltb_lt; lia).
      rewrite IH by lia. rewrite app_assoc. reflexivity.
    + replace (current <? MAXORDINAL) with true by (symmetry; apply Z.ltb_lt; lia).
      rewrite IH by lia. reflexivity.
Qed.

Lemma search_range_result party_name start_date end_date start_dt end_dt log :
  strptime start_date "%d-%m-%Y" = Some start_dt ->
  strptime end_date "%d-%m-%Y" = Some end_dt ->
  start_dt <= end_dt < MAXORDINAL ->
  snd (search_range site party_name start_date end_date log) =
  Ok (flat_map (fun d => records (daily site party_name d)) (days start_dt end_dt)).
Proof.
  intros Hs He [Hle Hmax]. unfold search_range. rewrite Hs, He.
  replace (end_dt <? start_dt) with false by (symmetry; apply Z.ltb_ge; lia).
  erewrite scan_days_result; [reflexivity|reflexivity|exact Hmax].
Qed.

End BombaySearch.


(** * Facts about matching and splitting *)

Lemma star_sound {A : Type} p s (k : pystr -> option A) a :
  star p s k = Some a ->
  exists m s', s = m ++ s' /\ forallb p m = true /\ k s' = Some a.
Proof.
  induction s as [|c s IH]; simpl.
  - intros Hk. exists [], []. auto.
  - destruct (p c) eqn:Hc.
    + destruct (star p s k) as [a'|] eqn:Hs; simpl.
      * intros [= <-]. destruct (IH eq_refl) as (m & s' & -> & Hm & Hk).
        exists (c :: m), s'. simpl. rewrite Hc, Hm. auto.
      * intros Hk. exists [], (c :: s). auto.
    + intros Hk. exists [], (c :: s). auto.
Qed.

(** The matcher is sound: what it passes to its continuation is what is
    left of the string after a match of the pattern. *)
Lemma rx_sound {A : Type} r : forall s g (k : pystr -> list pystr -> option A) a,
  rx r s g k = Some a ->
  exists m s' g', s = m ++ s' /\ lang r m /\ k s' g' = Some a.
Proof.
  induction r as [|p|r1 IH1 r2 IH2|r1 IH1 r2 IH2|r IH|p|r IH];
    intros s g k a; simpl.
  - intros Hk. exists [], s, g. split; [reflexivity|]. split; [constructor|auto].
  - destruct s as [|c s]; [discriminate|]. destruct (p c) eqn:Hc; [|discriminate].
    intros Hk. exists [c], s, g. split; [reflexivity|].
    split; [constructor; exact Hc|exact Hk].
  - intros Hr. apply IH1 in Hr as (m1 & s1 & g1 & -> & Hm1 & Hr).
    apply IH2 in Hr as (m2 & s2 & g2 & -> & Hm2 & Hk).
    exists (m1 ++ m2), s2, g2. rewrite app_assoc.
    split; [reflexivity|]. split; [constructor; assumption|exact Hk].
  - destruct (rx r1 s g k) as [a'|] eqn:H1; simpl.
    + intros [= <-]. apply IH1 in H1 as (m & s' & g' & -> & Hm & Hk).
      exists m, s', g'. split; [reflexivity|].
      split; [apply lang_alt_l; exact Hm|exact Hk].
    + intros H2. apply IH2 in H2 as (m & s' & g' & -> & Hm & Hk).
      exists m, s', g'. split; [reflexivity|].
      split; [apply lang_alt_r; exact Hm|exact Hk].
  - destruct (rx r s g k) as [a'|] eqn:H1; simpl.
    + intros [= <-]. apply IH in H1 as (m & s' & g' & -> & Hm & Hk).
      exists m, s', g'. split; [reflexivity|].
      split; [apply lang_opt_some; exact Hm|exact Hk].
    + intros Hk. exists [], s, g. split; [reflexivity|].
      split; [apply lang_opt_none|exact Hk].
  - intros Hs. apply star_sound in Hs as (m & s' & -> & Hm & Hk).
    exists m, s', g. split; [reflexivity|].
    split; [constructor; exact Hm|exact Hk].
  - intros Hr. apply IH in Hr as (m & s' & g' & -> & Hm & Hk).
    eexists m, s', _. split; [reflexivity|].
    split; [constructor; exact Hm|exact Hk].
Qed.

Lemma re_match_sound r s n g :
  re_match r s = Some (n, g) ->
  exists m s', s = m ++ s' /\ lang r m /\ n = length m.
Proof.
  unfold re_match. intros Hr.
  apply rx_sound in Hr as (m & s' & g' & -> & Hm & [= <- _]).
  exists m, s'. split; [reflexivity|]. split; [exact Hm|].
  rewrite length_app. lia.
Qed.

(** ** split *)

Lemma split_scan_skip r s n : split_scan r s n = split_scan r (drop n s) 0.
Proof.
  revert n. induction s as [|c s IH]; intros [|n]; try reflexivity.
  simpl split_scan at 1. rewrite IH. reflexivity.
Qed.

Lemma split_scan_nonempty r s n : split_scan r s n <> [].
Proof.
  revert n. induction s as [|c s IH]; intros n; simpl; [discriminate|].
  destruct n as [|n]; [|apply IH].
  destruct (re_match r (c :: s)) as [[[|k] g]|]; try discriminate;
    specialize (IH O); destruct (split_scan r s 0); simpl; congruence.
Qed.

Lemma re_split_cons_no_match r c s :
  no_match r (c :: s) -> re_split r (c :: s) = cons_head c (re_split r s).
Proof.
  intros Hn. unfold re_split. simpl.
  destruct (re_match r (c :: s)) as [[[|k] g]|] eqn:Hm; try reflexivity.
  exfalso. exact (Hn k g Hm).
Qed.

Lemma re_split_cons_match r c s n g :
  re_match r (c :: s) = Some (S n, g) ->
  re_split r (c :: s) = [] :: re_split r (drop n s).
Proof.
  intros Hm. unfold re_split. simpl. rewrite Hm, split_scan_skip.
  reflexivity.
Qed.



(** Two pieces come from one match between them. *)
Lemma re_split_single r s b : re_split r s = [b] -> s = b.
Proof.
  revert b. induction s as [|c s IH]; intros b; [intros [= <-]; reflexivity|].
  unfold re_split. simpl.
  destruct (re_match r (c :: s)) as [[[|k] g]|] eqn:Hm.
  - destruct (split_scan r s 0) as [|p [|q ps]] eqn:Hs; simpl; try discriminate.
    + intros _. exfalso. exact (split_scan_nonempty r s 0 Hs).
    + intros [= <-]. f_equal. apply IH. exact Hs.
  - intros [= _ Hs]. exfalso. exact (split_scan_nonempty r s k Hs).
  - destruct (split_scan r s 0) as [|p [|q ps]] eqn:Hs; simpl; try discriminate.
    + intros _. exfalso. exact (split_scan_nonempty r s 0 Hs).
    + intros [= <-]. f_equal. apply IH. exact Hs.
Qed.

Lemma re_split_two r s a b :
  re_split r s = [a; b] ->
  exists m, s = a ++ m ++ b /\ m <> [] /\ lang r m.
Proof.
  revert a. induction s as [|c s IH]; intros a; [discriminate|].
  destruct (re_match r (c :: s)) as [[[|k] g]|] eqn:Hm.
  - rewrite re_split_cons_no_match by (intros n g'; congruence).
    destruct (re_split r s) as [|p [|q [|q' ps]]] eqn:Hs; simpl; try discriminate.
    intros [= <- <-]. destruct (IH p eq_refl) as (m & -> & Hne & Hl).
    exists m. auto.
  - rewrite (re_split_cons_match r c s k g Hm). intros [= <- Hs].
    apply re_split_single in Hs.
    apply re_match_sound in Hm as (m & s' & Heq & Hl & Hlen).
    exists m. destruct m as [|d m]; [discriminate|]. simpl in *.
    injection Heq as -> ->. injection Hlen as ->.
    rewrite drop_app_length in Hs. subst s'.
    split; [reflexivity|]. split; [discriminate|exact Hl].
  - rewrite re_split_cons_no_match by (intros n g'; congruence).
    destruct (re_split r s) as [|p [|q [|q' ps]]] eqn:Hs; simpl; try discriminate.
    intros [= <- <-]. destruct (IH p eq_refl) as (m & -> & Hne & Hl).
    exists m. auto.
Qed.


(** ** The separator of the parties *)

Lemma lang_plus p m : lang (Plus p) m -> m <> [] /\ forallb p m = true.
Proof.
  unfold Plus. intros Hl. inversion Hl as [| |? ? m1 m2 H1 H2| | | | | |]; subst.
  inversion H1; subst. inversion H2; subst. simpl.
  split; [discriminate|]. rewrite H0. assumption.
Qed.

Lemma lang_separator m : lang Bombay.parties_sep m -> separator m.
Proof.
  unfold Bombay.parties_sep. intros Hl.
  inversion Hl as [| |? ? m123 w2 H123 Hw2| | | | | |]; subst.
  inversion H123 as [| |? ? m12 o H12 Ho| | | | | |]; subst.
  inversion H12 as [| |? ? w1 v Hw1 Hv| | | | | |]; subst.
  apply lang_plus in Hw1, Hw2. inversion Hv as [|? cv Hcv| | | | | | |]; subst.
  exists w1. inversion Ho as [| | | | |?|? ? Hvs| |]; subst.
  - exists [cv], w2. rewrite app_nil_r, <- !app_assoc.
    split; [reflexivity|]. split; [exact Hw1|]. split; [|exact Hw2].
    exists cv. auto.
  - inversion Hvs as [| |? ? ms md Hs Hd| | | | | |]; subst.
    inversion Hs as [|? cs Hcs| | | | | | |]; subst.
    inversion Hd as [| | | | |?|? ? Hdot| |]; subst.
    + exists [cv; cs], w2. rewrite <- !app_assoc.
      split; [reflexivity|]. split; [exact Hw1|]. split; [|exact Hw2].
      exists cv. split; [exact Hcv|]. right. exists cs. auto.
    + inversion Hdot as [|? cd Hcd| | | | | | |]; subst.
      apply N.eqb_eq in Hcd. subst cd.
      exists [cv; cs; 46], w2. rewrite <- !app_assoc.
      split; [reflexivity|]. split; [exact Hw1|]. split; [|exact Hw2].
      exists cv. split; [exact Hcv|]. right. exists cs. auto.
Qed.

(** A separator starts and ends with white space. *)
Lemma separator_ends m :
  separator m ->
  exists c t d, m = c :: t ++ [d] /\ isspace c = true /\ isspace d = true.
Proof.
  intros (w1 & w & w2 & -> & [Hn1 H1] & Hw & [Hn2 H2]).
  destruct w1 as [|c w1]; [congruence|].
  destruct (exists_last Hn2) as (w2' & d & ->).
  exists c, (w1 ++ w ++ w2'), d. simpl in H1.
  apply andb_prop in H1 as [Hc _].
  rewrite forallb_app in H2. apply andb_prop in H2 as [_ Hd].
  simpl in Hd. rewrite andb_true_r in Hd.
  split; [|auto]. simpl. rewrite <- !app_assoc. reflexivity.
Qed.

Lemma icase_not_space a c :
  (a = "v" \/ a = "s")%char -> icase a c = true -> isspace c = false.
Proof.
  intros [->| ->]; unfold icase; simpl; intros Hc;
    repeat (apply orb_prop in Hc as [Hc|Hc]); try discriminate;
    apply N.eqb_eq in Hc; subst c; reflexivity.
Qed.

(** The matcher takes a whole run of a class when what follows the run
    matches. *)
Lemma star_greedy {A : Type} p w rest (k : pystr -> option A) :
  forallb p w = true -> (forall c t, rest = c :: t -> p c = false) ->
  is_Some (k rest) -> star p (w ++ rest) k = k rest.
Proof.
  intros Hw Hr [a Hk]. induction w as [|c w IH]; simpl.
  - destruct rest as [|d t]; [reflexivity|]. simpl.
    rewrite (Hr d t eq_refl). reflexivity.
  - simpl in Hw. apply andb_prop in Hw as [Hc Hw]. rewrite Hc, (IH Hw), Hk.
    reflexivity.
Qed.

Lemma rx_plus_cons {A : Type} p c s g (k : pystr -> list pystr -> option A) :
  rx (Plus p) (c :: s) g k =
  if p c then star p s (fun s' => k s' g) else None.
Proof. reflexivity. Qed.

Lemma match_separator m b :
  separator m -> unspaced b ->
  re_match Bombay.parties_sep (m ++ b) = Some (length m, []).
Proof.
  intros (w1 & w & w2 & -> & [Hn1 H1] & (v & Hv & Hw) & [Hn2 H2]) Hb.
  destruct w1 as [|c1 w1]; [congruence|]. destruct w2 as [|c2 w2]; [congruence|].
  simpl in H1, H2. apply andb_prop in H1 as [Hc1 H1], H2 as [Hc2 H2].
  unfold re_match.
  set (n := length (((c1 :: w1) ++ w ++ c2 :: w2) ++ b)).
  assert (Hn : (n - length b)%nat = length ((c1 :: w1) ++ w ++ c2 :: w2)).
  { unfold n. rewrite (length_app _ b). lia. }
  assert (Hs2 : forall a, (a = "v" \/ a = "s")%char -> icase a c2 = false).
  { intros a Ha. destruct (icase a c2) eqn:Hi; [|reflexivity].
    apply (icase_not_space a c2 Ha) in Hi. congruence. }
  assert (Hdot : (46 =? c2) = false).
  { apply N.eqb_neq. intros <-. discriminate. }
  assert (Hvsp : isspace v = false) by (apply (icase_not_space "v"%char); auto).
  assert (Htail : forall g : list pystr,
    star isspace (w2 ++ b) (fun s' => Some ((n - length s')%nat, g))
    = Some (length ((c1 :: w1) ++ w ++ c2 :: w2), g)).
  { intros g. rewrite star_greedy; [|exact H2|exact Hb|eexists; reflexivity].
    rewrite Hn. reflexivity. }
  assert (Hrest : forall g : list pystr,
    rx (ilit "v" * Opt (ilit "s" * Opt (lit ".")) * Plus isspace)%re
       (w ++ c2 :: w2 ++ b) g (fun s' g' => Some ((n - length s')%nat, g'))
    = Some (length ((c1 :: w1) ++ w ++ c2 :: w2), g)).
  { intros g. unfold Plus, ilit, lit.
    destruct Hw as [->|(s & Hs & [->| ->])]; cbn [rx app]; rewrite Hv.
    - rewrite (Hs2 "s"%char) by auto. cbn [orelse]. rewrite Hc2. apply Htail.
    - rewrite Hs. change (N_of_ascii ".") with 46. rewrite Hdot.
      cbn [orelse]. rewrite Hc2, Htail. reflexivity.
    - rewrite Hs. change (N_of_ascii ".") with 46. rewrite N.eqb_refl, Hc2, Htail.
      reflexivity. }
  change (rx Bombay.parties_sep ?s ?g ?k)
    with (rx (Plus isspace) s g
            (fun s' g' =>
               rx (ilit "v" * Opt (ilit "s" * Opt (lit ".")) * Plus isspace)%re
                  s' g' k)).
  cbn [app]. rewrite rx_plus_cons, Hc1, <- !app_assoc.
  rewrite star_greedy; [| exact H1 | | ].
  - apply Hrest.
  - intros c t Heq. destruct Hw as [->|(s & Hs & [->| ->])];
      injection Heq as <- _; exact Hvsp.
  - rewrite Hrest. eexists; reflexivity.
Qed.


Lemma span_split p s :
  s = take (span p s) s ++ drop (span p s) s
  /\ forallb p (take (span p s) s) = true
  /\ (forall c t, drop (span p s) s = c :: t -> p c = false).
Proof.
  split; [symmetry; apply take_drop|]. split.
  - induction s as [|c s IH]; [reflexivity|]. simpl.
    destruct (p c) eqn:Hc; [|reflexivity]. simpl. rewrite Hc. exact IH.
  - intros c t. apply drop_span_head.
Qed.

Lemma sep_at_match s :
  sep_at s -> exists n, re_match Bombay.parties_sep s = Some (n, []).
Proof.
  intros (m & r & -> & w1 & w & w2 & -> & Hw1 & Hw & [Hn2 H2]).
  destruct (span_split isspace r) as (Hr & Hws & Hrest).
  set (ws := take (span isspace r) r) in *.
  set (r' := drop (span isspace r) r) in *.
  exists (length (w1 ++ w ++ w2 ++ ws)).
  replace ((w1 ++ w ++ w2) ++ r) with ((w1 ++ w ++ w2 ++ ws) ++ r')
    by (rewrite Hr, <- !app_assoc; reflexivity).
  apply match_separator; [|exact Hrest].
  exists w1, w, (w2 ++ ws). split; [reflexivity|]. split; [exact Hw1|].
  split; [exact Hw|]. split.
  - destruct w2; [congruence|discriminate].
  - rewrite forallb_app, H2, Hws. reflexivity.
Qed.

Lemma no_sep_no_match s : ~ sep_at s -> no_match Bombay.parties_sep s.
Proof.
  intros Hn n g Hm. apply Hn.
  apply re_match_sound in Hm as (m & s' & -> & Hl & _).
  exists m, s'. split; [reflexivity|]. apply lang_separator. exact Hl.
Qed.



Lemma sep_free_before_spec a rest :
  sep_free_before a rest = true ->
  forall l t, a = l ++ t -> t <> [] -> ~ sep_at (t ++ rest).
Proof.
  induction a as [|c a IH]; intros Hf l t Heq Ht.
  - destruct l, t; try discriminate. congruence.
  - simpl in Hf.
    destruct (re_match Bombay.parties_sep (c :: a ++ rest)) eqn:Hm;
      [discriminate|].
    destruct l as [|c' l]; simpl in Heq.
    + subst t. intros Hs. apply sep_at_match in Hs as [n Hn].
      simpl in Hn. congruence.
    + injection Heq as <- ->. eapply IH; eauto.
Qed.


(** ** Populated parties *)

Lemma rstrip_keeps_head c s :
  isspace c = false -> exists t, rstrip (c :: s) = c :: t.
Proof.
  intros Hc. induction s as [|d s IH] using rev_ind.
  - exists []. unfold rstrip. simpl. rewrite Hc. reflexivity.
  - change (c :: s ++ [d]) with ((c :: s) ++ [d]). rewrite rstrip_snoc.
    destruct (isspace d); [exact IH|]. eexists. reflexivity.
Qed.

Lemma strip_nonempty c s : isspace c = false -> strip (c :: s) <> [].
Proof.
  intros Hc. unfold strip. simpl. rewrite Hc.
  destruct (rstrip_keeps_head c s Hc) as [t ->]. discriminate.
Qed.

Lemma split_parties_populated s :
  collapsed s -> trimmed s ->
  fst (Bombay.split_parties s) <> [] /\ snd (Bombay.split_parties s) <> [].
Proof.
  intros Hc [Hl Hr]. unfold Bombay.split_parties.
  destruct s as [|c0 s0] eqn:Hs; [split; discriminate|]. rewrite <- Hs in *.
  replace (nonempty s) with true by (rewrite Hs; reflexivity).
  assert (Hstrip : strip s <> []).
  { rewrite Hs. apply strip_nonempty. eapply Hl. exact Hs. }
  destruct (re_split Bombay.parties_sep s) as [|a [|b [|x xs]]] eqn:Hsplit;
    try (split; [exact Hstrip|discriminate]).
  apply re_split_two in Hsplit as (m & Heq & _ & Hm).
  apply lang_separator, separator_ends in Hm as (c & t & d & -> & Hcs & Hds).
  simpl. split.
  - destruct a as [|a0 a]; [exfalso|].
    + simpl in Heq. rewrite (Hl c _ Heq) in Hcs. discriminate.
    + apply strip_nonempty. eapply Hl. simpl in Heq. exact Heq.
  - destruct b as [|b0 b]; [exfalso|].
    + rewrite app_nil_r in Heq.
      change (c :: t ++ [d]) with ((c :: t) ++ [d]) in Heq.
      rewrite app_assoc in Heq. rewrite (Hr _ d Heq) in Hds. discriminate.
    + apply strip_nonempty. rewrite Heq in Hc.
      change (c :: t ++ [d]) with ((c :: t) ++ [d]) in Hc.
      rewrite <- app_assoc in Hc. apply collapsed_app_r in Hc.
      apply collapsed_app_r in Hc. simpl in Hc. destruct Hc as [Hd _].
      apply Hd. exact Hds.
Qed.


(** * Facts about the records *)

Section BombayRecords.
Context `{PyLib}.
Import Bombay.

Lemma main_case_new case_no parties advocates bench court_no date court_time :
  collapsed parties -> trimmed parties ->
  main_case
    (new_case case_no (fst (split_parties parties)) (snd (split_parties parties))
       advocates bench court_no date court_time).
Proof.
  intros Hc Ht. destruct (split_parties_populated parties Hc Ht) as [Hp Hr].
  unfold new_case, main_case. do 11 eexists. split; [reflexivity|]. auto.
Qed.

Lemma main_case_with case_no parties d :
  main_case d -> main_case (add_with_case case_no parties d).
Proof.
  intros (cn & pe & re & ad & co & ju & cno & da & ct & wc & rm & -> & Hp & Hr).
  unfold add_with_case, main_case. simpl.
  do 11 eexists. split; [reflexivity|]. auto.
Qed.

Lemma main_case_remark text d : main_case d -> main_case (add_remark text d).
Proof.
  intros (cn & pe & re & ad & co & ju & cno & da & ct & wc & rm & -> & Hp & Hr).
  unfold add_remark, main_case. simpl.
  do 11 eexists. split; [reflexivity|]. auto.
Qed.

Lemma row_step_main_cases bench court_time court_no date st cells :
  Forall main_case (results st) ->
  Forall main_case (results (row_step bench court_time court_no date st cells)).
Proof.
  intros Hst. unfold row_step.
  destruct cells as [|c0 [|c1 [|c2 [|c3 [|c4 cells]]]]]; try exact Hst.
  - destruct (current_main_case st) as [i|]; [|exact Hst].
    destruct (nonempty (normalize_text c0)); [|exact Hst]. simpl.
    apply Forall_alter; [exact Hst|]. intros d _. apply main_case_remark.
  - destruct (normalize_text_normal c2) as [Hc Ht].
    pose proof (main_case_new (normalize_text c1) (normalize_text c2)
                  (normalize_text c3) bench court_no date court_time Hc Ht) as Hn.
    destruct (split_parties (normalize_text c2)) as [pe re]. simpl in Hn.
    match goal with |- context [if ?b then _ else _] => destruct b end.
    + simpl. apply Forall_app. split; [exact Hst|]. constructor; [exact Hn|constructor].
    + destruct (current_main_case st) as [i|]; [|exact Hst].
      destruct (pystr_eqb _ _); [|exact Hst]. simpl.
      apply Forall_alter; [exact Hst|]. intros d _. apply main_case_with.
Qed.

Lemma extract_main_cases rows bench court_time court_no date :
  Forall main_case (extract_cases_from_table rows bench court_time court_no date).
Proof.
  unfold extract_cases_from_table.
  set (st := {| results := []; current_main_case := None; last_case_no := None |}).
  assert (Hst : Forall main_case (results st)) by constructor.
  clearbody st. revert st Hst.
  induction rows as [|cells rows IH]; intros st Hst; [exact Hst|].
  simpl. apply IH, row_step_main_cases, Hst.
Qed.

Lemma walk_main_cases s date : Forall main_case (walk s date).
Proof.
  unfold walk.
  set (st := {| current_bench := _; current_time := _;
                current_court_no := _; all_results := [] |}).
  assert (Hst : Forall main_case (all_results st)) by constructor.
  clearbody st. revert st Hst.
  induction (container_nodes s) as [|n nodes IH]; intros st Hst; [exact Hst|].
  simpl. apply IH. unfold node_step. destruct n as [heading|rows].
  - destruct (re_search judges_re (normalize_text heading)); exact Hst.
  - simpl. apply Forall_app. split; [exact Hst|]. apply extract_main_cases.
Qed.

Lemma final_result_record d : main_case d -> bombay_record (final_result d).
Proof.
  intros (cn & pe & re & ad & co & ju & cno & da & ct & wc & rm & -> & Hp & Hr).
  unfold bombay_record, final_result. simpl. split; [|split].
  - intros k Hk. unfold record_fields in Hk. simpl in Hk.
    repeat (destruct Hk as [<-|Hk]; [simpl; discriminate|]). destruct Hk.
  - exists pe. auto.
  - exists re. auto.
Qed.

Context (site : pystr -> pystr -> session).

Lemma search_page_records s party_name date log log' rs :
  search_page s party_name date log = (log', Ok rs) ->
  rs = map final_result (walk s date).
Proof.
  unfold search_page, bind, try_except, step, raise, ret.
  repeat match goal with
         | |- context [match ?f s with None => _ | Some _ => _ end] =>
             destruct (f s) as [[]|]
         end; intros [= _ <-]; reflexivity.
Qed.

Lemma search_records party_name date log log' rs :
  search site party_name date log = (log', Ok rs) ->
  Forall bombay_record rs.
Proof.
  unfold search.
  destruct party_name as [p|], date as [d|]; try (intros [= _ <-]; constructor).
  destruct (nonempty p && nonempty d); [|intros [= _ <-]; constructor].
  cbv zeta. unfold bind at 1 2, step at 1 2, try_finally.
  destruct (launch_fails (site p d)); [discriminate|].
  destruct (new_page_fails (site p d)); [discriminate|].
  destruct (search_page (site p d) p d ((log ++ [Launch]) ++ [NewPage]))
    as [l r] eqn:Hpage.
  destruct r as [rs'|e]; simpl; [|discriminate].
  intros [= _ <-]. apply search_page_records in Hpage as ->.
  apply List.Forall_map.
  eapply List.Forall_impl; [|apply walk_main_cases].
  apply final_result_record.
Qed.

End BombayRecords.


(** * Facts about nclat.py *)

Lemma startswith_spec p s : startswith p s = true <-> exists r, s = p ++ r.
Proof.
  revert s. induction p as [|a p IH]; intros s; simpl.
  - split; [intros _; exists s; reflexivity|reflexivity].
  - destruct s as [|b s].
    + split; [discriminate|intros [r Hr]; discriminate].
    + rewrite andb_true_iff, N.eqb_eq, IH. split.
      * intros [-> [r ->]]. exists r. reflexivity.
      * intros [r [= -> ->]]. split; [reflexivity|exists r; reflexivity].
Qed.

(** [p in s] holds exactly when [p] is a substring of [s]. *)
Lemma contains_spec p s :
  contains p s = true <-> exists l r, s = l ++ p ++ r.
Proof.
  induction s as [|c s IH]; simpl.
  - rewrite orb_false_r, startswith_spec. split.
    + intros [r Hr]. exists [], r. exact Hr.
    + intros (l & r & Heq). destruct l; [exists r; exact Heq|discriminate].
  - rewrite orb_true_iff, startswith_spec, IH. split.
    + intros [[r Hr]|(l & r & ->)].
      * exists [], r. exact Hr.
      * exists (c :: l), r. reflexivity.
    + intros (l & r & Heq). destruct l as [|c' l].
      * left. exists r. exact Heq.
      * right. injection Heq as _ ->. exists l, r. reflexivity.
Qed.

Section NCLATFacts.
Context `{PyLib} (s : NCLAT.site).
Import NCLAT.

(** ** ai_extract *)

Lemma logged_nil w : logged w [] = w.
Proof. destruct w. unfold logged. simpl. rewrite app_nil_r. reflexivity. Qed.

Lemma logged_logged w l1 l2 : logged (logged w l1) l2 = logged w (l1 ++ l2).
Proof. unfold logged. simpl. rewrite app_assoc. reflexivity. Qed.

Lemma ai_extract_invalid page_text party_name court_no judges w e :
  client s (prompt page_text party_name court_no judges) = Raise e ->
  ai_extract s page_text party_name court_no judges w =
  (logged w [Extract (prompt page_text party_name court_no judges);
             ExtractFailed e], Ok []).
Proof.
  intros Hc. unfold ai_extract, try_except, bind, emit, lift, ret.
  simpl. rewrite Hc. simpl. unfold logged. simpl.
  rewrite <- app_assoc. reflexivity.
Qed.

Lemma ai_extract_valid page_text party_name court_no judges w rows :
  client s (prompt page_text party_name court_no judges) = Ok rows ->
  ai_extract s page_text party_name court_no judges w =
  (logged w [Extract (prompt page_text party_name court_no judges)], Ok rows).
Proof.
  intros Hc. unfold ai_extract, try_except, bind, emit, lift, ret.
  simpl. rewrite Hc. reflexivity.
Qed.

(** [ai_extract] never raises. *)
Lemma ai_extract_total page_text party_name court_no judges w :
  exists evs rows,
    ai_extract s page_text party_name court_no judges w = (logged w evs, Ok rows).
Proof.
  destruct (client s (prompt page_text party_name court_no judges)) as [rows|e] eqn:Hc.
  - eexists _, rows. apply ai_extract_valid. exact Hc.
  - eexists _, []. apply ai_extract_invalid. exact Hc.
Qed.

Lemma scan_pages_cons party_name court_no text rest current_judges results :
  text <> [] ->
  scan_pages s party_name court_no (Some text :: rest) current_judges results =
  if party_matches party_name text then
    ai_rows <- ai_extract s text party_name court_no
                 (judges_after current_judges text) ;;
    scan_pages s party_name court_no rest (judges_after current_judges text)
      (results ++ map model_dump ai_rows)
  else
    scan_pages s party_name court_no rest (judges_after current_judges text)
      results.
Proof.
  intros Ht. destruct text as [|c t]; [congruence|].
  unfold judges_after. simpl scan_pages.
  destruct (extract_judge_blocks (c :: t)); reflexivity.
Qed.

(** The loop over the pages never raises, and every row it returns is a
    dumped [CauseMatch]. *)
Lemma scan_pages_total party_name court_no pages : forall current_judges results w,
  exists evs rows,
    scan_pages s party_name court_no pages current_judges results w =
    (logged w evs, Ok (results ++ map model_dump rows)).
Proof.
  induction pages as [|page pages IH]; intros current_judges results w.
  - exists [], []. simpl. rewrite logged_nil, app_nil_r. reflexivity.
  - destruct page as [[|c t]|].
    + simpl. apply IH.
    + rewrite scan_pages_cons by discriminate.
      destruct (party_matches party_name (c :: t)); [|apply IH].
      destruct (ai_extract_total (c :: t) party_name court_no
                  (judges_after current_judges (c :: t)) w) as (evs & rows & Hai).
      unfold bind. rewrite Hai.
      destruct (IH (judges_after current_judges (c :: t))
                  (results ++ map model_dump rows) (logged w evs))
        as (evs' & rows' & ->).
      exists (evs ++ evs'), (rows ++ rows').
      rewrite logged_logged, map_app, app_assoc. reflexivity.
    + simpl. apply IH.
Qed.

End NCLATFacts.


Section NCLATCache.
Context `{PyLib}.
Import NCLAT.

(** ** The cache of PDFs *)

Lemma downloads_app l1 l2 : downloads (l1 ++ l2) = (downloads l1 + downloads l2)%nat.
Proof. unfold downloads. rewrite filter_app, length_app. reflexivity. Qed.

Lemma kept_refl w : kept w w.
Proof. intros p Hp. exact Hp. Qed.

Lemma kept_trans w1 w2 w3 : kept w1 w2 -> kept w2 w3 -> kept w1 w3.
Proof. intros H12 H23 p Hp. auto. Qed.

Lemma fetch_cached s href w :
  is_Some (files w !! identity href) ->
  fetch_if_absent s href w = (w, Ok (identity href)).
Proof.
  intros Hp. unfold fetch_if_absent, bind, path_exists. fold (identity href).
  rewrite bool_decide_eq_true_2 by exact Hp. reflexivity.
Qed.

Lemma fetch_absent s href w :
  files w !! identity href = None ->
  fetch_if_absent s href w =
  match pdf_server s (urljoin BASE href) with
  | Ok content =>
      ({| files := <[identity href := content]> (files w);
          log := log w ++ [GetPdf (urljoin BASE href); WriteBytes (identity href)] |},
       Ok (identity href))
  | Raise e =>
      ({| files := files w; log := log w ++ [GetPdf (urljoin BASE href)] |},
       Raise e)
  end.
Proof.
  intros Hp. unfold fetch_if_absent, bind, path_exists. fold (identity href).
  rewrite bool_decide_eq_false_2 by (rewrite Hp; intros [x Hx]; discriminate).
  unfold emit, lift, write_bytes, ret. simpl.
  destruct (pdf_server s (urljoin BASE href)); simpl; [|reflexivity].
  rewrite <- app_assoc. reflexivity.
Qed.

(** What a request for a document leaves behind when it returns. *)
Lemma fetch_ok s href w w1 path :
  fetch_if_absent s href w = (w1, Ok path) ->
  path = identity href /\ is_Some (files w1 !! path) /\ kept w w1
  /\ downloads (log w1) =
     (downloads (log w) +
      (if bool_decide (is_Some (files w !! path)) then 0 else 1))%nat.
Proof.
  destruct (files w !! identity href) as [f|] eqn:Hp.
  - rewrite fetch_cached by (rewrite Hp; eexists; reflexivity).
    intros [= <- <-]. split; [reflexivity|].
    rewrite Hp. rewrite bool_decide_eq_true_2 by (eexists; reflexivity).
    split; [eexists; reflexivity|]. split; [apply kept_refl|lia].
  - rewrite fetch_absent by exact Hp.
    destruct (pdf_server s (urljoin BASE href)) as [content|e]; [|discriminate].
    intros [= <- <-]. split; [reflexivity|]. simpl.
    rewrite lookup_insert_eq. split; [eexists; reflexivity|]. split.
    + intros p Hq. simpl. destruct (decide (identity href = p)) as [->|Hne].
      * rewrite lookup_insert_eq. eexists; reflexivity.
      * rewrite lookup_insert_ne by exact Hne. exact Hq.
    + rewrite Hp. rewrite bool_decide_eq_false_2 by (intros [x Hx]; discriminate).
      rewrite downloads_app. reflexivity.
Qed.

(** ** Running download_pdfs again *)

Lemma rows_loop_kept s start_dt end_dt rows : forall pdf_files w w1 r,
  rows_loop s start_dt end_dt rows pdf_files w = (w1, r) -> kept w w1.
Proof.
  induction rows as [|cols rows IH]; intros pdf_files w w1 r; simpl.
  - intros [= <- _]. apply kept_refl.
  - destruct (cols !! 3%nat) as [c3|]; [|apply IH].
    destruct (cols !! 4%nat) as [c4|]; [|apply IH].
    destruct (strptime (cell_text c3) "%d/%m/%Y") as [row_dt|]; [|apply IH].
    destruct (row_dt <? start_dt)%Z; [intros [= <- _]; apply kept_refl|].
    destruct (end_dt <? row_dt)%Z; [apply IH|].
    destruct (cell_href c4) as [href|]; [|apply IH].
    unfold bind.
    destruct (fetch_if_absent s href w) as [wm [path|e]] eqn:Hf.
    + intros Hr. apply fetch_ok in Hf as (_ & _ & Hk & _).
      eapply kept_trans; [exact Hk|]. eapply IH. exact Hr.
    + intros [= <- _]. unfold fetch_if_absent, bind, path_exists in Hf.
      destruct (bool_decide _) in Hf; simpl in Hf; [discriminate|].
      unfold emit, lift, write_bytes in Hf. simpl in Hf.
      destruct (pdf_server s _) in Hf; simpl in Hf; [discriminate|].
      injection Hf as <- _. intros p Hq. exact Hq.
Qed.

Lemma rows_loop_again s start_dt end_dt rows : forall pdf_files w w1 stop out,
  rows_loop s start_dt end_dt rows pdf_files w = (w1, Ok (stop, out)) ->
  exists added, out = pdf_files ++ added /\
    forall s' w2 pdf_files', kept w1 w2 ->
      rows_loop s' start_dt end_dt rows pdf_files' w2 =
      (w2, Ok (stop, pdf_files' ++ added)).
Proof.
  induction rows as [|cols rows IH]; intros pdf_files w w1 stop out; simpl.
  - intros [= <- <- <-]. exists []. rewrite app_nil_r. split; [reflexivity|].
    intros s' w2 pdf_files' _. rewrite app_nil_r. reflexivity.
  - destruct (cols !! 3%nat) as [c3|]; [|apply IH].
    destruct (cols !! 4%nat) as [c4|]; [|apply IH].
    destruct (strptime (cell_text c3) "%d/%m/%Y") as [row_dt|]; [|apply IH].
    destruct (row_dt <? start_dt)%Z.
    { intros [= <- <- <-]. exists []. rewrite app_nil_r. split; [reflexivity|].
      intros s' w2 pdf_files' _. rewrite app_nil_r. reflexivity. }
    destruct (end_dt <? row_dt)%Z; [apply IH|].
    destruct (cell_href c4) as [href|]; [|apply IH].
    unfold bind.
    destruct (fetch_if_absent s href w) as [wm [path|e]] eqn:Hf; [|discriminate].
    intros Hr. apply fetch_ok in Hf as (-> & Hthere & _ & _).
    pose proof (rows_loop_kept _ _ _ _ _ _ _ _ Hr) as Hk.
    apply IH in Hr as (added & -> & Hagain).
    exists (identity href :: added). rewrite <- app_assoc. split; [reflexivity|].
    intros s' w2 pdf_files' Hk2.
    rewrite fetch_cached by (apply Hk2, Hk, Hthere).
    rewrite (Hagain s' w2 (pdf_files' ++ [identity href]) Hk2).
    rewrite <- app_assoc. reflexivity.
Qed.

Lemma pages_loop_cons s start_dt end_dt p pages page pdf_files :
  pages_loop s start_dt end_dt (p :: pages) page pdf_files =
  (emit (GetListing page) ;;;
   (rows <- lift p ;;
    match rows with
    | [] => ret pdf_files
    | _ :: _ =>
        r <- rows_loop s start_dt end_dt rows pdf_files ;;
        let '(stop_paging, pdf_files') := r in
        if stop_paging : bool then ret pdf_files'
        else pages_loop s start_dt end_dt pages (S page) pdf_files'
    end)).
Proof. reflexivity. Qed.

Lemma pages_loop_kept s start_dt end_dt pages : forall page pdf_files w w1 r,
  pages_loop s start_dt end_dt pages page pdf_files w = (w1, r) -> kept w w1.
Proof.
  induction pages as [|p pages IH]; intros page pdf_files w w1 r.
  - simpl. unfold bind, emit, ret. simpl. intros [= <- _]. intros q Hq. exact Hq.
  - rewrite pages_loop_cons. unfold bind at 1 2, emit, lift.
    destruct p as [rows|e]; [|intros [= <- _]; intros q Hq; exact Hq].
    destruct rows as [|row rows];
      [unfold ret; intros [= <- _]; intros q Hq; exact Hq|].
    set (rs := row :: rows). cbv beta match. unfold bind.
    match goal with
    | |- context [rows_loop s start_dt end_dt rs pdf_files ?w0] =>
        destruct (rows_loop s start_dt end_dt rs pdf_files w0)
          as [wm [[stop out]|e]] eqn:Hrows;
        pose proof (rows_loop_kept _ _ _ _ _ _ _ _ Hrows) as Hk
    end.
    + destruct stop.
      * unfold ret. intros [= <- _]. exact Hk.
      * intros Hp. apply IH in Hp. intros q Hq. apply Hp, Hk. exact Hq.
    + intros [= <- _]. exact Hk.
Qed.

Lemma pages_loop_again s start_dt end_dt pages : forall page pdf_files w w1 out,
  pages_loop s start_dt end_dt pages page pdf_files w = (w1, Ok out) ->
  exists added, out = pdf_files ++ added /\
    forall w2 pdf_files', kept w1 w2 ->
      exists evs,
        pages_loop s start_dt end_dt pages page pdf_files' w2 =
        ({| files := files w2; log := log w2 ++ evs |}, Ok (pdf_files' ++ added))
        /\ downloads evs = 0%nat.
Proof.
  induction pages as [|p pages IH]; intros page pdf_files w w1 out.
  - simpl. unfold bind, emit, ret. simpl.
    intros [= <- <-]. exists []. rewrite app_nil_r. split; [reflexivity|].
    intros w2 pdf_files' _. exists [GetListing page]. rewrite app_nil_r. auto.
  - rewrite pages_loop_cons. unfold bind at 1 2, emit, lift.
    destruct p as [rows|e]; [|discriminate].
    destruct rows as [|row rows].
    + unfold ret. intros [= <- <-]. exists []. rewrite app_nil_r.
      split; [reflexivity|]. intros w2 pdf_files' _. exists [GetListing page].
      rewrite pages_loop_cons. unfold bind, emit, lift, ret.
      rewrite app_nil_r. auto.
    + set (rs := row :: rows). cbv beta match. unfold bind.
      match goal with
      | |- context [rows_loop s start_dt end_dt rs pdf_files ?w0] =>
          destruct (rows_loop s start_dt end_dt rs pdf_files w0)
            as [wm [[stop out']|e]] eqn:Hrows; [|discriminate]
      end.
      apply rows_loop_again in Hrows as (added & -> & Hrows).
      subst rs. destruct stop.
      * unfold ret. intros [= <- <-]. exists added. split; [reflexivity|].
        intros w2 pdf_files' Hk. exists [GetListing page].
        rewrite pages_loop_cons. unfold bind at 1 2, emit, lift.
        cbv beta match. unfold bind, ret.
        rewrite (Hrows s _ pdf_files') by exact Hk. auto.
      * intros Hp. pose proof (pages_loop_kept _ _ _ _ _ _ _ _ _ Hp) as Hk1.
        apply IH in Hp as (added' & -> & Hagain).
        exists (added ++ added'). rewrite app_assoc. split; [reflexivity|].
        intros w2 pdf_files' Hk.
        rewrite pages_loop_cons. unfold bind at 1 2, emit, lift.
        cbv beta match. unfold bind.
        rewrite (Hrows s _ pdf_files')
          by (intros q Hq; apply Hk, Hk1; exact Hq).
        destruct (Hagain {| files := files w2; log := log w2 ++ [GetListing page] |}
                    (pdf_files' ++ added) Hk) as (evs & -> & Hevs).
        exists (GetListing page :: evs). simpl.
        rewrite <- !app_assoc. simpl. split; [reflexivity|exact Hevs].
Qed.

(** A second run of [download_pdfs] over the same listing downloads
    nothing and selects the same files. *)
Lemma download_pdfs_again s start_dt end_dt w w1 pdfs :
  download_pdfs s start_dt end_dt w = (w1, Ok pdfs) ->
  exists evs,
    download_pdfs s start_dt end_dt w1 =
    ({| files := files w1; log := log w1 ++ evs |}, Ok pdfs)
    /\ downloads evs = 0%nat.
Proof.
  unfold download_pdfs. intros Hd.
  apply pages_loop_again in Hd as (added & -> & Hagain).
  apply Hagain, kept_refl.
Qed.

End NCLATCache.


Section NCLATRecords.
Context `{PyLib} (s : NCLAT.site).
Import NCLAT.

(** ** The records of search_range *)

Lemma to_result_dump r w : to_result (model_dump r) w = (w, Ok (record_of r)).
Proof.
  unfold to_result, bind, lift, ret, record_of. simpl.
  destruct (split_parties (parties r)). reflexivity.
Qed.

Lemma rows_results_dump rows : forall all_results w,
  rows_results (map model_dump rows) all_results w =
  (w, Ok (all_results ++ map record_of rows)).
Proof.
  induction rows as [|r rows IH]; intros all_results w; simpl.
  - rewrite app_nil_r. reflexivity.
  - unfold bind. rewrite to_result_dump, IH, <- app_assoc. reflexivity.
Qed.

Lemma search_party_in_pdf_rows pdf_path party_name w w' rows :
  search_party_in_pdf s pdf_path party_name w = (w', Ok rows) ->
  exists ms, rows = map model_dump ms.
Proof.
  unfold search_party_in_pdf, bind, pdf_open, lift.
  destruct (files w !! pdf_path) as [[pages|]|]; try discriminate.
  destruct (extract_court_no_page1 pages) as [court_no|e]; [|discriminate].
  destruct (scan_pages_total s party_name court_no pages [] [] w)
    as (evs & ms & ->).
  intros [= _ <-]. exists ms. reflexivity.
Qed.

Lemma record_of_record r : nclat_record (record_of r).
Proof.
  unfold nclat_record, record_of. simpl. split; [reflexivity|].
  intros k Hk.
  repeat (destruct Hk as [<-|Hk]; [simpl; eexists; reflexivity|]).
  destruct Hk.
Qed.

Lemma pdfs_loop_records party_name pdfs : forall all_results w w' rs,
  pdfs_loop s party_name pdfs all_results w = (w', Ok rs) ->
  Forall nclat_record all_results -> Forall nclat_record rs.
Proof.
  induction pdfs as [|pdf pdfs IH]; intros all_results w w' rs; simpl.
  - intros [= _ <-] Hacc. exact Hacc.
  - unfold bind at 1.
    destruct (search_party_in_pdf s pdf party_name w) as [w1 [rows|e]] eqn:Hs;
      [|discriminate].
    apply search_party_in_pdf_rows in Hs as [ms ->].
    unfold bind. rewrite rows_results_dump. intros Hl Hacc.
    eapply IH; [exact Hl|]. apply Forall_app. split; [exact Hacc|].
    apply List.Forall_map. apply List.Forall_forall. intros r _.
    apply record_of_record.
Qed.

Lemma search_range_records party_name start_date end_date w w' rs :
  NCLAT.search_range s party_name start_date end_date w = (w', Ok rs) ->
  Forall nclat_record rs.
Proof.
  unfold NCLAT.search_range.
  destruct (strptime start_date "%d/%m/%Y") as [start_dt|]; [|discriminate].
  destruct (strptime end_date "%d/%m/%Y") as [end_dt|]; [|discriminate].
  unfold bind.
  destruct (download_pdfs s start_dt end_dt w) as [w1 [pdfs|e]]; [|discriminate].
  destruct pdfs as [|pdf pdfs]; [intros [= _ <-]; constructor|].
  intros Hl. eapply pdfs_loop_records; [exact Hl|constructor].
Qed.

End NCLATRecords.

Section BombayRangeRecords.
Context `{PyLib} (site : pystr -> pystr -> Bombay.session).
Import Bombay.

Lemma scan_days_records party_name end_dt n : forall current acc log log' rs,
  Z.to_nat (end_dt + 1 - current) = n ->
  scan_days site party_name current end_dt acc log = (log', Ok rs) ->
  Forall bombay_record acc -> Forall bombay_record rs.
Proof.
  induction n as [|n IH]; intros current acc log log' rs Hn Hl Hacc;
    rewrite scan_days_eq in Hl;
    destruct (Z_le_dec current end_dt) as [Hle|Hgt]; try lia.
  - injection Hl as _ <-. exact Hacc.
  - cbv zeta in Hl. unfold bind at 1, try_except, bind at 1 in Hl.
    destruct (search site (Some party_name)
                (Some (strftime current "%d-%m-%Y")) log)
      as [l [daily_results|e]] eqn:Hs; simpl in Hl.
    + destruct (current <? MAXORDINAL)%Z; [|discriminate].
      eapply IH; [|exact Hl|]; [lia|].
      apply Forall_app. split; [exact Hacc|].
      eapply search_records. exact Hs.
    + destruct (current <? MAXORDINAL)%Z; [|discriminate].
      eapply IH; [|exact Hl|exact Hacc]. lia.
Qed.

Lemma bombay_search_range_records party_name start_date end_date log log' rs :
  Bombay.search_range site party_name start_date end_date log = (log', Ok rs) ->
  Forall bombay_record rs.
Proof.
  unfold Bombay.search_range.
  destruct (strptime start_date "%d-%m-%Y") as [start_dt|]; [|discriminate].
  destruct (strptime end_date "%d-%m-%Y") as [end_dt|]; [|discriminate].
  destruct (end_dt <? start_dt)%Z; [discriminate|].
  intros Hl. eapply scan_days_records; [reflexivity|exact Hl|constructor].
Qed.

End BombayRangeRecords.

(** * The claims *)

Local Open Scope Z_scope.

(** C1 (amended). For every [search_range] over a range of days that ends
    before 31-12-9999, if the search of one day raises and the search of
    every other day returns, the list returned holds the records of every
    other day: those of the days before the failed one, then those of
    the days after it, each day in order. The failure of the day does not
    end the scan. *)
Theorem search_range_skips_failed_day `{PyLib}
    (site : pystr -> pystr -> Bombay.session)
    party_name start_date end_date start_dt end_dt d0 log :
  strptime start_date "%d-%m-%Y" = Some start_dt ->
  strptime end_date "%d-%m-%Y" = Some end_dt ->
  start_dt <= d0 <= end_dt -> end_dt < MAXORDINAL ->
  (exists e, daily site party_name d0 = Raise e) ->
  (forall d, start_dt <= d <= end_dt -> d <> d0 ->
             exists l, daily site party_name d = Ok l) ->
  snd (Bombay.search_range site party_name start_date end_date log) =
  Ok (flat_map (fun d => records (daily site party_name d))
        (days start_dt (d0 - 1))
      ++ flat_map (fun d => records (daily site party_name d))
           (days (d0 + 1) end_dt)).
Proof.
  intros Hs He Hd Hmax [e Hfail] _.
  rewrite (search_range_result site _ _ _ start_dt end_dt) by (auto; lia).
  rewrite (days_app start_dt (d0 - 1) end_dt) by lia.
  replace (d0 - 1 + 1) with d0 by lia.
  rewrite (days_cons d0 end_dt) by lia.
  rewrite flat_map_app. simpl. rewrite Hfail. reflexivity.
Qed.

(** From 1 to 3 January 2024, with a court that times out on the 2nd:
    the records of the 1st, then those of the 3rd. *)
Lemma search_range_skips_failed_day_witness :
  (exists e, daily (H := Reference.basic_latin)
               (Examples.court (py "02-01-2024")) (py "Ramesh") 738887
             = Raise e)
  /\ snd (Bombay.search_range (H := Reference.basic_latin)
            (Examples.court (py "02-01-2024")) (py "Ramesh")
            (py "01-01-2024") (py "03-01-2024") []) =
     Ok (records (daily (H := Reference.basic_latin)
                    (Examples.court (py "02-01-2024")) (py "Ramesh") 738886)
         ++ records (daily (H := Reference.basic_latin)
                       (Examples.court (py "02-01-2024")) (py "Ramesh") 738888)).
Proof.
  split; [eexists; vm_compute; reflexivity|].
  rewrite (search_range_skips_failed_day (H := Reference.basic_latin)
             (Examples.court (py "02-01-2024")) (py "Ramesh")
             (py "01-01-2024") (py "03-01-2024") 738886 738888 738887 []).
  - vm_compute. reflexivity.
  - reflexivity.
  - reflexivity.
  - lia.
  - reflexivity.
  - eexists. vm_compute. reflexivity.
  - intros d Hd Hne. assert (Hcases : d = 738886 \/ d = 738888) by lia.
    destruct Hcases as [-> | ->]; eexists; vm_compute; reflexivity.
Defined.

(** The claim as stated fails for a range that ends on 31-12-9999: the
    search of 30-12-9999 raises, that of 31-12-9999 returns records, and
    [search_range] raises [OverflowError] when it steps past the last day
    a [datetime] holds. *)
Lemma search_range_overflows_after_last_day :
  strptime (PyLib := Reference.basic_latin) (py "30-12-9999") "%d-%m-%Y"
    = Some (MAXORDINAL - 1)
  /\ strptime (PyLib := Reference.basic_latin) (py "31-12-9999") "%d-%m-%Y"
     = Some MAXORDINAL
  /\ (exists e, daily (H := Reference.basic_latin)
                  (Examples.court (py "30-12-9999")) (py "Ramesh")
                  (MAXORDINAL - 1) = Raise e)
  /\ (exists l, l <> [] /\
        daily (H := Reference.basic_latin)
          (Examples.court (py "30-12-9999")) (py "Ramesh") MAXORDINAL = Ok l)
  /\ snd (Bombay.search_range (H := Reference.basic_latin)
            (Examples.court (py "30-12-9999")) (py "Ramesh")
            (py "30-12-9999") (py "31-12-9999") []) = Raise OverflowError.
Proof.
  split; [reflexivity|]. split; [reflexivity|].
  split; [eexists; vm_compute; reflexivity|].
  split; [|vm_compute; reflexivity].
  eexists. split; [|vm_compute; reflexivity]. discriminate.
Qed.

Local Close Scope Z_scope.







(** C4 (amended). Every record returned by [search] and [search_range] of
    the Bombay scraper has every field set, none of them [None], with a
    petitioner and a respondent that are not empty (["N/A"] when the
    parties cell is empty or holds no separator). Every record returned
    by [search_range] of the NCLAT scraper has its petitioner, its
    respondent and its other fields set to strings, except the date:
    its [date] is always [None]. *)
Theorem records_are_populated `{PyLib} :
  (forall site party_name date log log' rs,
      Bombay.search site party_name date log = (log', Ok rs) ->
      Forall bombay_record rs)
  /\ (forall site party_name start_date end_date log log' rs,
         Bombay.search_range site party_name start_date end_date log
         = (log', Ok rs) ->
         Forall bombay_record rs)
  /\ (forall s party_name start_date end_date w w' rs,
         NCLAT.search_range s party_name start_date end_date w = (w', Ok rs) ->
         Forall nclat_record rs).
Proof.
  split; [|split].
  - intros site party_name date log log' rs Hs.
    eapply search_records. exact Hs.
  - intros site party_name start_date end_date log log' rs Hs.
    eapply bombay_search_range_records. exact Hs.
  - intros s party_name start_date end_date w w' rs Hs.
    eapply search_range_records. exact Hs.
Qed.

Lemma records_are_populated_witness :
  Forall nclat_record [record_of Examples.row1].
Proof.
  apply (proj2 (proj2 (records_are_populated (H := Reference.basic_latin)))
           Examples.tribunal (py "Ramesh Kumar") (py "01/01/2024")
           (py "03/01/2024") Examples.empty_disk
           (fst (NCLAT.search_range (H := Reference.basic_latin)
                   Examples.tribunal (py "Ramesh Kumar") (py "01/01/2024")
                   (py "03/01/2024") Examples.empty_disk))).
  vm_compute. reflexivity.
Defined.

(** The claim as stated fails for the NCLAT scraper: the record it
    returns for the sample tribunal has the date [None]. *)
Lemma nclat_record_has_no_date :
  In (record_of Examples.row1)
    (records (snd (NCLAT.search_range (H := Reference.basic_latin)
                     Examples.tribunal (py "Ramesh Kumar") (py "01/01/2024")
                     (py "03/01/2024") Examples.empty_disk)))
  /\ get "date" (record_of Examples.row1) = VNone.
Proof. split; [vm_compute; left; reflexivity|reflexivity]. Qed.

(** C5. For every document identity, a request that returns leaves the
    document at its path, and with it on disk no request for that
    identity downloads again: the path is returned and the world stays
    as it is. The request downloaded once if the path was not there, and
    not at all if it was; so two requests for one identity make exactly
    one download. *)
Theorem document_is_downloaded_once `{PyLib} s href w w1 path :
  NCLAT.fetch_if_absent s href w = (w1, Ok path) ->
  path = identity href
  /\ is_Some (NCLAT.files w1 !! path)
  /\ downloads (NCLAT.log w1) =
     (downloads (NCLAT.log w) +
      (if bool_decide (is_Some (NCLAT.files w !! path)) then 0 else 1))%nat
  /\ forall s' href',
       identity href' = path ->
       NCLAT.fetch_if_absent s' href' w1 = (w1, Ok path).
Proof.
  intros Hf. apply fetch_ok in Hf as (-> & Hthere & _ & Hcount).
  split; [reflexivity|]. split; [exact Hthere|]. split; [exact Hcount|].
  intros s' href' Hid. rewrite <- Hid in *. apply fetch_cached. exact Hthere.
Qed.

Lemma document_is_downloaded_once_witness :
  let href := py "/sites/default/files/cause_list_02012024.pdf" in
  let w1 := fst (NCLAT.fetch_if_absent (H := Reference.basic_latin)
                   Examples.tribunal href Examples.empty_disk) in
  downloads (NCLAT.log w1) = 1%nat
  /\ NCLAT.fetch_if_absent (H := Reference.basic_latin)
       Examples.tribunal href w1
     = (w1, Ok (py "nclat_pdfs/cause_list_02012024.pdf")).
Proof.
  intros href w1.
  destruct (document_is_downloaded_once (H := Reference.basic_latin)
              Examples.tribunal href Examples.empty_disk w1
              (py "nclat_pdfs/cause_list_02012024.pdf"))
    as (_ & _ & Hcount & Hagain).
  - vm_compute. reflexivity.
  - split; [exact Hcount|]. apply Hagain. reflexivity.
Defined.



(** C7. In [extract_cases_from_table], every row of four cells whose
    leading cell is a string of digits, ["0"] included ([zero_is_digits]),
    starts a new main case: a new record is appended and becomes the
    current main case; the records before it stay as they are. *)
Theorem digit_row_starts_new_case `{PyLib}
    bench court_time court_no date st c0 c1 c2 c3 :
  digits c0 = true ->
  Bombay.row_step bench court_time court_no date st [c0; c1; c2; c3] =
  {| Bombay.results :=
       Bombay.results st ++
       [Bombay.new_case (Bombay.normalize_text c1)
          (fst (Bombay.split_parties (Bombay.normalize_text c2)))
          (snd (Bombay.split_parties (Bombay.normalize_text c2)))
          (Bombay.normalize_text c3) bench court_no date court_time];
     Bombay.current_main_case := Some (length (Bombay.results st));
     Bombay.last_case_no := Some (Bombay.normalize_text c1) |}.
Proof.
  intros Hd. apply row_step_cl_no.
  unfold digits in Hd. apply andb_prop in Hd as [Hne Hall].
  rewrite normalize_text_digits by exact Hall.
  unfold digits. rewrite Hne, Hall. reflexivity.
Qed.

(** A row with the leading cell ["0"] and the case number of the case
    before it: only the leading cell makes it a new case. *)
Lemma digit_row_starts_new_case_witness :
  let st := {| Bombay.results :=
                 [Bombay.new_case (py "WP/101/2024") (py "A") (py "B") []
                    (py "N/A") (py "N/A") (py "01-01-2024") (py "N/A")];
               Bombay.current_main_case := Some 0%nat;
               Bombay.last_case_no := Some (py "WP/101/2024") |} in
  Bombay.current_main_case
    (Bombay.row_step (H := Reference.basic_latin)
       (py "N/A") (py "N/A") (py "N/A") (py "01-01-2024") st
       [py "0"; py "WP/101/2024"; py "C vs D"; py ""])
  = Some 1%nat.
Proof.
  intros st.
  rewrite (digit_row_starts_new_case (H := Reference.basic_latin));
    reflexivity.
Defined.




(** C10. For every call of [search] without a party name or without a
    date ([None] or the empty string), [search] returns the empty list
    at once: the log of browser calls is as it was. *)
Theorem search_without_party_or_date `{PyLib}
    (site : pystr -> pystr -> Bombay.session) party_name date log :
  party_name = None \/ party_name = Some [] \/ date = None \/ date = Some [] ->
  Bombay.search site party_name date log = (log, Ok []).
Proof.
  intros Hq. unfold Bombay.search.
  destruct party_name as [[|c p]|], date as [[|c' d]|]; try reflexivity.
  destruct Hq as [Hq|[Hq|[Hq|Hq]]]; discriminate.
Qed.

Lemma search_without_party_or_date_witness :
  Bombay.search (H := Reference.basic_latin)
    (Examples.court (py "02-01-2024")) (Some []) (Some (py "01-01-2024")) []
  = ([], Ok []).
Proof.
  apply (search_without_party_or_date (H := Reference.basic_latin)).
  right. left. reflexivity.
Defined.

(** * Further properties

    What the code of the two scrapers shows beyond the statements above:
    the shape of what its functions return, what they do at the edges of
    their input, and what they leave alone. *)

(** ** The parties *)

Lemma re_split_first r a m rest g :
  (forall l t, a = l ++ t -> t <> [] -> no_match r (t ++ m ++ rest)) ->
  m <> [] -> re_match r (m ++ rest) = Some (length m, g) ->
  re_split r (a ++ m ++ rest) = a :: re_split r rest.
Proof.
  intros Ha Hm Hmatch. induction a as [|c a IH].
  - simpl. destruct m as [|c m]; [congruence|]. simpl in *.
    rewrite (re_split_cons_match r c (m ++ rest) (length m) g Hmatch).
    rewrite drop_app_length. reflexivity.
  - simpl. rewrite re_split_cons_no_match.
    + rewrite IH; [reflexivity|]. intros l t -> Ht.
      apply (Ha (c :: l) t); [reflexivity|exact Ht].
    + apply (Ha [] (c :: a)); [reflexivity|discriminate].
Qed.

Lemma re_split_nonempty r s : re_split r s <> [].
Proof. apply split_scan_nonempty. Qed.

(** A match somewhere in the string gives two pieces at least. *)
Lemma re_split_two_pieces r l : forall t n g,
  re_match r t = Some (S n, g) ->
  exists p q rest, re_split r (l ++ t) = p :: q :: rest.
Proof.
  induction l as [|c l IH]; intros t n g Hm.
  - simpl. destruct t as [|c t].
    + apply re_match_sound in Hm as (m & s' & Heq & _ & Hlen).
      destruct m; discriminate.
    + rewrite (re_split_cons_match r c t n g Hm).
      destruct (re_split r (drop n t)) as [|q rest] eqn:Hs;
        [exfalso; exact (re_split_nonempty _ _ Hs)|].
      eauto.
  - simpl. destruct (re_match r (c :: l ++ t)) as [[[|k] g']|] eqn:Hc.
    + rewrite re_split_cons_no_match by (intros ? ?; congruence).
      destruct (IH t n g Hm) as (p & q & rest & ->). simpl. eauto.
    + rewrite (re_split_cons_match r c (l ++ t) k g' Hc).
      destruct (re_split r (drop k (l ++ t))) as [|q rest] eqn:Hs;
        [exfalso; exact (re_split_nonempty _ _ Hs)|].
      eauto.
    + rewrite re_split_cons_no_match by (intros ? ?; congruence).
      destruct (IH t n g Hm) as (p & q & rest & ->). simpl. eauto.
Qed.

Lemma separator_nonempty m : separator m -> m <> [].
Proof. intros Hm. destruct (separator_ends m Hm) as (c & t & d & -> & _). discriminate. Qed.

Lemma trimmed_na : trimmed (py "N/A").
Proof.
  split.
  - intros c t [= <- _]. reflexivity.
  - intros t c Heq. change (py "N/A") with ([78; 47] ++ [65]) in Heq.
    apply app_inj_tail in Heq as [_ <-]. reflexivity.
Qed.

(** X1. What [split_parties] returns, in both scrapers, is made of pieces
    of its argument: the whole string with ["N/A"], or the two sides of
    one separator of the string ([v], [vs] or [vs.] between white space).
    [bombay_high_court.py] strips what it returns, so that neither part
    starts or ends with white space, and gives ["N/A"] twice for the
    empty string; [nclat.py] returns the pieces as they are. *)
Theorem split_parties_returns_pieces parties :
  (trimmed (fst (Bombay.split_parties parties))
   /\ trimmed (snd (Bombay.split_parties parties)))
  /\ ((parties = []
       /\ Bombay.split_parties parties = (py "N/A", py "N/A")
       /\ NCLAT.split_parties parties = ([], py "N/A"))
      \/ (parties <> []
          /\ Bombay.split_parties parties = (strip parties, py "N/A")
          /\ NCLAT.split_parties parties = (parties, py "N/A"))
      \/ (exists a m b,
             parties = a ++ m ++ b /\ separator m
             /\ Bombay.split_parties parties = (strip a, strip b)
             /\ NCLAT.split_parties parties = (a, b))).
Proof.
  unfold Bombay.split_parties, NCLAT.split_parties.
  change NCLAT.parties_sep with Bombay.parties_sep.
  destruct parties as [|c0 p0] eqn:Hp.
  { split; [split; apply trimmed_na|]. left. auto. }
  rewrite <- Hp. replace (nonempty parties) with true by (rewrite Hp; reflexivity).
  assert (Hne : parties <> []) by (rewrite Hp; discriminate).
  destruct (re_split Bombay.parties_sep parties) as [|a [|b [|x xs]]] eqn:Hs;
    simpl; try (split; [split; [apply strip_trimmed|apply trimmed_na]|];
                right; left; auto).
  split; [split; apply strip_trimmed|]. right. right.
  apply re_split_two in Hs as (m & Heq & _ & Hm).
  exists a, m, b. split; [exact Heq|]. split; [apply lang_separator, Hm|]. auto.
Qed.

(** X2. A string with two separators or more is not split: when the
    first separator of the string is followed by a piece that is not
    empty and by another separator, the whole string is the petitioner
    (stripped, in [bombay_high_court.py]) and the respondent is
    ["N/A"]. *)
Theorem split_parties_two_separators a m1 b m2 c :
  separator m1 -> separator m2 -> b <> [] -> unspaced b -> unspaced c ->
  (forall l t, a = l ++ t -> t <> [] -> ~ sep_at (t ++ m1 ++ b ++ m2 ++ c)) ->
  Bombay.split_parties (a ++ m1 ++ b ++ m2 ++ c)
  = (strip (a ++ m1 ++ b ++ m2 ++ c), py "N/A")
  /\ NCLAT.split_parties (a ++ m1 ++ b ++ m2 ++ c)
     = (a ++ m1 ++ b ++ m2 ++ c, py "N/A").
Proof.
  intros H1 H2 Hb Hub Huc Ha.
  pose proof (separator_nonempty m1 H1) as Hn1.
  pose proof (separator_nonempty m2 H2) as Hn2.
  assert (Hsplit : exists q r rest,
             re_split Bombay.parties_sep (a ++ m1 ++ b ++ m2 ++ c)
             = a :: q :: r :: rest).
  { rewrite (re_split_first Bombay.parties_sep a m1 (b ++ m2 ++ c) []).
    - destruct (re_split_two_pieces Bombay.parties_sep b (m2 ++ c)
                  (length m2 - 1) []) as (q & r & rest & ->); [|eauto].
      rewrite match_separator by assumption.
      destruct m2; [congruence|]. simpl. do 3 f_equal. lia.
    - intros l t Heq Ht. apply no_sep_no_match. eapply Ha; eauto.
    - exact Hn1.
    - apply match_separator; [exact H1|].
      intros x t Heq. destruct b as [|b0 b']; [congruence|].
      injection Heq as <- _. apply (Hub b0 b'). reflexivity. }
  destruct Hsplit as (q & r & rest & Hsplit).
  unfold Bombay.split_parties, NCLAT.split_parties.
  change NCLAT.parties_sep with Bombay.parties_sep. rewrite Hsplit.
  replace (nonempty (a ++ m1 ++ b ++ m2 ++ c)) with true
    by (destruct a; [destruct m1; [congruence|]|]; reflexivity).
  auto.
Qed.

(** Three parties. *)
Lemma split_parties_two_separators_witness :
  Bombay.split_parties (py "A v B v C") = (py "A v B v C", py "N/A")
  /\ NCLAT.split_parties (py "A v B v C") = (py "A v B v C", py "N/A").
Proof.
  apply (split_parties_two_separators (py "A") (py " v ") (py "B") (py " v ") (py "C")).
  - exists [32], [118], [32]. split; [reflexivity|].
    split; [split; [discriminate|reflexivity]|].
    split; [|split; [discriminate|reflexivity]].
    exists 118. split; [reflexivity|]. left. reflexivity.
  - exists [32], [118], [32]. split; [reflexivity|].
    split; [split; [discriminate|reflexivity]|].
    split; [|split; [discriminate|reflexivity]].
    exists 118. split; [reflexivity|]. left. reflexivity.
  - discriminate.
  - intros c t [= <- _]. reflexivity.
  - intros c t [= <- _]. reflexivity.
  - apply sep_free_before_spec. reflexivity.
Defined.

(** ** Normalization *)

Lemma tokens_from_nonempty word s : word <> [] -> tokens_from word s <> [].
Proof.
  revert word. induction s as [|c s IH]; intros word Hw; simpl.
  - destruct word; [congruence|discriminate].
  - destruct (isspace c).
    + destruct word; [congruence|discriminate].
    + apply IH. discriminate.
Qed.

Lemma tokens_from_snoc_space word s c :
  isspace c = true -> tokens_from word (s ++ [c]) = tokens_from word s.
Proof.
  intros Hc. revert word. induction s as [|d s IH]; intros word; simpl.
  - rewrite Hc. destruct word; reflexivity.
  - destruct (isspace d); [destruct word|]; rewrite IH; reflexivity.
Qed.

Lemma tokens_lstrip s : tokens (lstrip s) = tokens s.
Proof.
  unfold tokens. induction s as [|c s IH]; [reflexivity|]. simpl.
  destruct (isspace c) eqn:Hc; [exact IH|]. simpl. rewrite Hc. reflexivity.
Qed.

Lemma tokens_rstrip word s : tokens_from word (rstrip s) = tokens_from word s.
Proof.
  induction s as [|c s IH] using rev_ind; [reflexivity|].
  rewrite rstrip_snoc. destruct (isspace c) eqn:Hc; [|reflexivity].
  rewrite IH, tokens_from_snoc_space by exact Hc. reflexivity.
Qed.

Lemma tokens_strip s : tokens (strip s) = tokens s.
Proof. unfold strip, tokens. rewrite tokens_rstrip. apply tokens_lstrip. Qed.

Lemma tokens_replace word s :
  tokens_from word (replace_char 160 [32] s) = tokens_from word s.
Proof.
  unfold replace_char. revert word.
  induction s as [|c s IH]; intros word; [reflexivity|]. simpl.
  destruct (N.eqb_spec c 160) as [->|_]; simpl.
  - destruct word; rewrite IH; reflexivity.
  - destruct (isspace c); [destruct word|]; rewrite IH; reflexivity.
Qed.

Lemma tokens_skip s : tokens_from [] (drop (span isspace s) s) = tokens_from [] s.
Proof.
  induction s as [|c s IH]; [reflexivity|]. simpl.
  destruct (isspace c) eqn:Hc; simpl; [exact IH|]. rewrite Hc. reflexivity.
Qed.

Lemma tokens_sub_aux n : forall s word,
  (length s <= n)%nat ->
  tokens_from word (re_sub (Plus isspace) [32] s) = tokens_from word s.
Proof.
  induction n as [|n IH]; intros [|c s] word Hn; simpl in Hn;
    try reflexivity; try lia.
  rewrite sub_plus_cons. destruct (isspace c) eqn:Hc.
  - simpl. rewrite Hc.
    rewrite !IH by (rewrite length_drop; lia).
    rewrite tokens_skip. reflexivity.
  - simpl. rewrite Hc. apply IH. lia.
Qed.

Lemma tokens_sub word s :
  tokens_from word (re_sub (Plus isspace) [32] s) = tokens_from word s.
Proof. apply (tokens_sub_aux (length s)). lia. Qed.

(** A collapsed string that does not end with white space is its words,
    joined by single spaces. *)
Lemma join_tokens_from t : forall word,
  collapsed t ->
  (forall t' c, t = t' ++ [c] -> isspace c = false) ->
  (forall c t', t = c :: t' -> isspace c = true -> word <> []) ->
  join [32] (tokens_from word t) = rev word ++ t.
Proof.
  induction t as [|c t IH]; intros word Hc Hlast Hhead.
  - simpl. rewrite app_nil_r. destruct word; reflexivity.
  - destruct Hc as [Hsp Hc]. simpl tokens_from.
    destruct (isspace c) eqn:Hcs.
    + destruct (Hsp eq_refl) as [-> Hd].
      destruct t as [|d t'].
      { rewrite (Hlast [] 32 eq_refl) in Hcs. discriminate. }
      assert (Hword : word <> []) by (eapply Hhead; eauto).
      assert (Hrest : join [32] (tokens_from [] (d :: t')) = d :: t').
      { apply (IH []).
        - exact Hc.
        - intros t'' c' Heq. apply (Hlast (32 :: t'') c'). rewrite Heq. reflexivity.
        - intros c' t'' [= <- _] Hd'. congruence. }
      assert (Hne : tokens_from [] (d :: t') <> []).
      { simpl. rewrite Hd. apply tokens_from_nonempty. discriminate. }
      destruct word as [|w word]; [congruence|].
      destruct (tokens_from [] (d :: t')) as [|x xs]; [congruence|].
      change (join [32] (rev (w :: word) :: x :: xs))
        with (rev (w :: word) ++ [32] ++ join [32] (x :: xs)).
      rewrite Hrest. reflexivity.
    + rewrite (IH (c :: word)).
      * simpl. rewrite <- app_assoc. reflexivity.
      * exact Hc.
      * intros t'' c' Heq. apply (Hlast (c :: t'') c'). rewrite Heq. reflexivity.
      * intros; discriminate.
Qed.

Lemma join_tokens t : collapsed t -> trimmed t -> join [32] (tokens t) = t.
Proof.
  intros Hc [Hl Hr]. unfold tokens. rewrite join_tokens_from; [reflexivity|..].
  - exact Hc.
  - exact Hr.
  - intros c t' Heq Hsp. rewrite (Hl c t' Heq) in Hsp. discriminate.
Qed.

Lemma tokens_normalize_text s : tokens (Bombay.normalize_text s) = tokens s.
Proof.
  unfold Bombay.normalize_text. rewrite tokens_strip. unfold tokens.
  change (py " ") with [32]. rewrite tokens_sub. apply tokens_replace.
Qed.

(** X3. [normalize_text(s)] is [" ".join(s.split())]: the words of [s],
    joined by single spaces. It leaves [s] as it is exactly when [s] has
    no white space at its ends and no white space inside but single
    spaces. *)
Theorem normalize_text_joins_words s :
  Bombay.normalize_text s = join (py " ") (tokens s)
  /\ (Bombay.normalize_text s = s <-> collapsed s /\ trimmed s).
Proof.
  split.
  - destruct (normalize_text_normal s) as [Hc Ht].
    rewrite <- (join_tokens _ Hc Ht) at 1.
    rewrite tokens_normalize_text. reflexivity.
  - split.
    + intros <-. apply normalize_text_normal.
    + intros [Hc Ht]. apply normalize_text_fixed; assumption.
Qed.

(** X4. What [normalize] returns has no white space at its ends and none
    inside but single spaces, is made of word characters and spaces, and
    is in lower case. *)
Theorem normalize_output_is_normal `{PyLib} x :
  collapsed (NCLAT.normalize x) /\ trimmed (NCLAT.normalize x)
  /\ (forall c, In c (NCLAT.normalize x) -> c = 32 \/ NCLAT.isword c = true)
  /\ lower (NCLAT.normalize x) = NCLAT.normalize x.
Proof.
  destruct (normalize_normal x) as [Hc Ht].
  split; [exact Hc|]. split; [exact Ht|]. split.
  - intros c Hin. destruct (normalize_chars x c Hin) as [->|[_ Hp]]; [auto|].
    unfold NCLAT.punct in Hp. destruct (NCLAT.isword c); [auto|].
    destruct (isspace c) eqn:Hs; [|discriminate].
    left. eapply collapsed_space; eauto.
  - apply lower_fixed. intros c Hin.
    destruct (normalize_chars x c Hin) as [->|[Hl _]]; [apply lower_space|].
    eapply lower_lowered. exact Hl.
Qed.

(** ** The rows of a table *)

Lemma get_set_ne k k' v d : k <> k' -> get k (set k' v d) = get k d.
Proof.
  intros Hne. induction d as [|[k'' v''] d IH]; simpl.
  - destruct (String.eqb_spec k k'); [congruence|reflexivity].
  - destruct (String.eqb_spec k' k'') as [<-|Hne']; simpl.
    + destruct (String.eqb_spec k k'); [congruence|reflexivity].
    + destruct (String.eqb_spec k k''); [reflexivity|exact IH].
Qed.

Lemma alter_last {A : Type} (f : A -> A) (l : list A) (x : A) :
  alter f (length l) (l ++ [x]) = l ++ [f x].
Proof.
  rewrite <- (Nat.add_0_r (length l)) at 1. rewrite alter_app_r. reflexivity.
Qed.

Lemma fold_append_remark ts : forall x,
  Forall (fun t => t <> []) ts ->
  fold_left append_remark ts x
  = join [10] (if nonempty x then x :: ts else ts).
Proof.
  induction ts as [|t ts IH]; intros x Hts.
  - simpl. destruct x; reflexivity.
  - apply Forall_cons in Hts as [Ht Hts]. simpl fold_left.
    rewrite IH by exact Hts. unfold append_remark.
    destruct x as [|c x]; simpl nonempty; cbv iota.
    + destruct t; [congruence|]. reflexivity.
    + destruct ts as [|u us]; simpl; rewrite <- ?app_assoc; reflexivity.
Qed.

Lemma remark_texts_nonempty rows : Forall (fun t => t <> []) (remark_texts rows).
Proof.
  unfold remark_texts. induction rows as [|cells rows IH]; [constructor|].
  simpl. apply Forall_app. split; [|exact IH].
  destruct cells as [|c0 [|c1 cells]]; try constructor.
  destruct (Bombay.normalize_text c0) eqn:Hn; simpl; constructor;
    [discriminate|constructor].
Qed.

Section Rows.
Context `{PyLib} (bench court_time court_no date : pystr).
Import Bombay.

Abbreviation on_row := (row_step bench court_time court_no date).
Abbreviation extract rows :=
  (extract_cases_from_table rows bench court_time court_no date).
Abbreviation after rows := (after_rows bench court_time court_no date rows).

Lemma extract_after rows : extract rows = results (after rows).
Proof. reflexivity. Qed.

Lemma after_rows_snoc rows cells :
  after (rows ++ [cells]) = on_row (after rows) cells.
Proof. unfold after_rows. rewrite fold_left_app. reflexivity. Qed.

Lemma after_rows_app rows more :
  after (rows ++ more) = fold_left on_row more (after rows).
Proof. unfold after_rows. rewrite fold_left_app. reflexivity. Qed.

Lemma digits_normalize_text c0 :
  digits c0 = true -> digits (normalize_text c0) = true.
Proof.
  intros Hd. unfold digits in Hd. apply andb_prop in Hd as [Hne Hall].
  rewrite normalize_text_digits by exact Hall.
  unfold digits. rewrite Hne, Hall. reflexivity.
Qed.

(** What a row does to a state that is tracked: it appends a record,
    changes the last record without changing its case number, or does
    nothing. *)
Lemma row_step_cases st cells :
  tracked st ->
  (exists d cn,
      on_row st cells =
      {| results := results st ++ [d];
         current_main_case := Some (length (results st));
         last_case_no := Some cn |}
      /\ get "case_number" d = VStr cn)
  \/ (exists R d d',
         results st = R ++ [d]
         /\ on_row st cells =
            {| results := R ++ [d'];
               current_main_case := current_main_case st;
               last_case_no := last_case_no st |}
         /\ get "case_number" d' = get "case_number" d)
  \/ on_row st cells = st.
Proof.
  intros Ht. unfold tracked in Ht.
  assert (Halter : forall i f,
             current_main_case st = Some i ->
             (forall d, get "case_number" (f d) = get "case_number" d) ->
             exists R d d',
               results st = R ++ [d]
               /\ {| results := alter f i (results st);
                     current_main_case := Some i;
                     last_case_no := last_case_no st |} =
                  {| results := R ++ [d'];
                     current_main_case := current_main_case st;
                     last_case_no := last_case_no st |}
               /\ get "case_number" d' = get "case_number" d).
  { intros i f Hi Hf. destruct (last (results st)) as [d|] eqn:Hl.
    - destruct Ht as [Hc _]. apply last_Some in Hl as [R HR].
      exists R, d, (f d). split; [exact HR|]. split; [|apply Hf].
      rewrite Hi. f_equal. rewrite Hc in Hi. injection Hi as <-.
      rewrite HR, length_app. simpl.
      replace (length R + 1 - 1)%nat with (length R) by lia.
      apply alter_last.
    - destruct Ht as [Hc _]. congruence. }
  unfold row_step.
  destruct cells as [|c0 [|c1 [|c2 [|c3 [|c4 cells]]]]]; auto.
  - destruct (current_main_case st) as [i|] eqn:Hi; auto.
    destruct (nonempty (normalize_text c0)); auto.
    right. left. apply Halter; [reflexivity|].
    intros d. unfold add_remark. apply get_set_ne. discriminate.
  - destruct (split_parties (normalize_text c2)) as [pe re].
    match goal with |- context [if ?b then _ else _] => destruct b end.
    + left. eexists _, _. split; reflexivity.
    + destruct (current_main_case st) as [i|] eqn:Hi; auto.
      destruct (pystr_eqb _ _); auto.
      right. left. apply Halter; [reflexivity|].
      intros d. unfold add_with_case. apply get_set_ne. discriminate.
Qed.

Lemma row_step_tracked st cells : tracked st -> tracked (on_row st cells).
Proof.
  intros Ht.
  destruct (row_step_cases st cells Ht)
    as [(d & cn & -> & Hd)|[(R & d & d' & HR & -> & Hd)| ->]]; [| |exact Ht].
  - unfold tracked. simpl. rewrite last_snoc, length_app. simpl.
    split; [f_equal; lia|]. exists cn. auto.
  - unfold tracked in *. simpl. rewrite HR in Ht.
    rewrite last_snoc, length_app in *. simpl in *.
    destruct Ht as [Hc (cn & Hcn & Hg)]. split; [exact Hc|].
    exists cn. split; [exact Hcn|]. congruence.
Qed.

Lemma fold_rows_tracked more : forall st,
  tracked st -> tracked (fold_left on_row more st).
Proof.
  induction more as [|cells more IH]; intros st Ht; [exact Ht|].
  simpl. apply IH, row_step_tracked, Ht.
Qed.

Lemma after_rows_tracked rows : tracked (after rows).
Proof. apply fold_rows_tracked. split; reflexivity. Qed.

Lemma row_step_keeps st cells n :
  tracked st -> (n <= length (results st) - 1)%nat ->
  (length (results st) <= length (results (on_row st cells))
   <= length (results st) + 1)%nat
  /\ take n (results (on_row st cells)) = take n (results st).
Proof.
  intros Ht Hn.
  destruct (row_step_cases st cells Ht)
    as [(d & cn & -> & Hd)|[(R & d & d' & HR & -> & Hd)| ->]]; simpl.
  - rewrite length_app. simpl. split; [lia|].
    apply take_app_le. lia.
  - rewrite HR in *. rewrite !length_app in *. simpl in *. split; [lia|].
    rewrite !take_app_le by lia. reflexivity.
  - split; [lia|reflexivity].
Qed.

Lemma fold_rows_keep more : forall st n,
  tracked st -> (n <= length (results st) - 1)%nat ->
  (length (results st) <= length (results (fold_left on_row more st)))%nat
  /\ take n (results (fold_left on_row more st)) = take n (results st).
Proof.
  induction more as [|cells more IH]; intros st n Ht Hn; [auto|].
  simpl. destruct (row_step_keeps st cells n Ht Hn) as [Hlen Htake].
  destruct (IH (on_row st cells) n) as [Hlen' Htake'];
    [apply row_step_tracked, Ht|lia|].
  split; [lia|congruence].
Qed.

(** X5. The records of a table are made in the order of its rows, and a
    row changes the last record at most: whatever rows follow, the
    records before the last one stay as they are, and each row adds one
    record at most. *)
Theorem records_before_the_last_are_final rows more :
  let before :=
    extract_cases_from_table rows bench court_time court_no date in
  let later :=
    extract_cases_from_table (rows ++ more) bench court_time court_no date in
  (length before <= length later <= length before + length more)%nat
  /\ take (length before - 1) later = take (length before - 1) before.
Proof.
  cbv zeta.
  rewrite !extract_after, after_rows_app.
  pose proof (after_rows_tracked rows) as Ht. revert Ht.
  generalize (after rows). intros st Ht.
  destruct (fold_rows_keep more st (length (results st) - 1) Ht) as [Hlen Htake];
    [lia|].
  split; [split; [exact Hlen|]|exact Htake].
  clear Hlen Htake. revert st Ht.
  induction more as [|cells more IH]; intros st Ht; simpl; [lia|].
  specialize (IH (on_row st cells) (row_step_tracked st cells Ht)).
  destruct (row_step_keeps st cells 0 Ht) as [Hlen _]; lia.
Qed.

(** *** The rows attached to a main case *)

Lemma main_row rows c0 c1 c2 c3 :
  digits c0 = true ->
  after (rows ++ [[c0; c1; c2; c3]]) =
  {| results := extract rows ++ [case_of_row bench court_time court_no date c1 c2 c3];
     current_main_case := Some (length (extract rows));
     last_case_no := Some (normalize_text c1) |}.
Proof.
  intros Hd. rewrite after_rows_snoc.
  apply row_step_cl_no, digits_normalize_text, Hd.
Qed.

Lemma attach_rows case_no a1 a2 a3 a4 a5 a6 a7 a8 R more : forall wc x,
  Forall (attached_row case_no) more ->
  fold_left on_row more
    {| results := R ++ [with_attachments (new_case a1 a2 a3 a4 a5 a6 a7 a8) wc x];
       current_main_case := Some (length R);
       last_case_no := Some case_no |} =
  {| results :=
       R ++ [with_attachments (new_case a1 a2 a3 a4 a5 a6 a7 a8)
               (wc ++ with_entries more)
               (fold_left append_remark (remark_texts more) x)];
     current_main_case := Some (length R);
     last_case_no := Some case_no |}.
Proof.
  induction more as [|cells more IH]; intros wc x Hm.
  - simpl. rewrite app_nil_r. reflexivity.
  - apply Forall_cons in Hm as [Hc Hm]. simpl fold_left.
    destruct cells as [|c0 [|c1 [|c2 [|c3 [|c4 cells]]]]]; try contradiction.
    + (* a remark *)
      unfold row_step. cbn [current_main_case results last_case_no].
      unfold remark_texts, with_entries. cbn [flat_map app].
      fold (remark_texts more). fold (with_entries more).
      destruct (normalize_text c0) as [|t0 ts] eqn:Hn; cbn [nonempty].
      * apply IH. exact Hm.
      * rewrite alter_last. cbn [app fold_left].
        change (add_remark (t0 :: ts)
                  (with_attachments (new_case a1 a2 a3 a4 a5 a6 a7 a8) wc x))
          with (with_attachments (new_case a1 a2 a3 a4 a5 a6 a7 a8) wc
                  (append_remark x (t0 :: ts))).
        apply IH. exact Hm.
    + (* a linked case *)
      destruct Hc as (Hnd & Hw & Hcn).
      unfold row_step. cbn [current_main_case results last_case_no].
      rewrite fullmatch_plus. unfold digits in Hnd. rewrite Hnd.
      replace (nonempty (normalize_text c1)
               && negb (bool_decide (Some case_no = Some (normalize_text c1))))
        with false.
      2:{ destruct Hcn as [-> | ->]; [reflexivity|].
          rewrite bool_decide_eq_true_2 by reflexivity.
          symmetry. apply andb_false_r. }
      destruct (split_parties (normalize_text c2)) as [pe re].
      cbn [orb]. cbv iota.
      unfold pystr_eqb. rewrite bool_decide_eq_true_2 by exact Hw.
      rewrite alter_last.
      unfold remark_texts, with_entries. cbn [flat_map app].
      fold (remark_texts more). fold (with_entries more).
      change (add_with_case (normalize_text c1) (normalize_text c2)
                (with_attachments (new_case a1 a2 a3 a4 a5 a6 a7 a8) wc x))
        with (with_attachments (new_case a1 a2 a3 a4 a5 a6 a7 a8)
                (wc ++ [VDict [("case_number", VStr (normalize_text c1));
                               ("details", VStr (normalize_text c2))]%string])
                x).
      rewrite (IH _ _ Hm), <- app_assoc. reflexivity.
Qed.

(** X6. The rows that follow the row of a main case and are attached to
    it end up in its record: the rows marked [with] as the entries of
    [with_cases], in order, and the texts of the rows of one cell as
    [remarks], joined by newlines. No other record is made or changed. *)
Theorem attached_rows_end_up_in_the_main_case rows c0 c1 c2 c3 more :
  digits c0 = true ->
  Forall (attached_row (normalize_text c1)) more ->
  extract_cases_from_table (rows ++ [c0; c1; c2; c3] :: more)
    bench court_time court_no date
  = extract_cases_from_table rows bench court_time court_no date
    ++ [with_attachments
          (case_of_row bench court_time court_no date c1 c2 c3)
          (with_entries more) (join [10] (remark_texts more))].
Proof.
  intros Hd Hm.
  change (rows ++ [c0; c1; c2; c3] :: more)
    with (rows ++ [[c0; c1; c2; c3]] ++ more).
  rewrite app_assoc, extract_after, after_rows_app, (main_row _ _ _ _ _ Hd).
  unfold case_of_row.
  pose proof (attach_rows (normalize_text c1)
                (normalize_text c1)
                (fst (split_parties (normalize_text c2)))
                (snd (split_parties (normalize_text c2)))
                (normalize_text c3) bench court_no date court_time
                (extract rows) more [] [] Hm) as Ha.
  change (with_attachments (new_case ?a ?b ?c ?d ?e ?f ?g ?h) [] [])
    with (new_case a b c d e f g h) in Ha.
  rewrite Ha. cbn [results app].
  rewrite fold_append_remark by apply remark_texts_nonempty.
  reflexivity.
Qed.

(** X7. A row of four cells with a case number that is not the one of
    the last record starts a new record, whatever its leading cell says,
    [with] included. *)
Theorem other_case_number_starts_new_case rows c0 c1 c2 c3 :
  normalize_text c1 <> [] ->
  (forall d,
      last (extract_cases_from_table rows bench court_time court_no date)
      = Some d ->
      get "case_number" d <> VStr (normalize_text c1)) ->
  extract_cases_from_table (rows ++ [[c0; c1; c2; c3]])
    bench court_time court_no date
  = extract_cases_from_table rows bench court_time court_no date
    ++ [case_of_row bench court_time court_no date c1 c2 c3].
Proof.
  intros Hne Hlast. rewrite !extract_after, after_rows_snoc.
  pose proof (after_rows_tracked rows) as Ht. rewrite extract_after in Hlast.
  revert Ht Hlast. generalize (after rows). intros st Ht Hlast.
  unfold row_step, case_of_row.
  destruct (split_parties (normalize_text c2)) as [pe re].
  replace (nonempty (normalize_text c1)
           && negb (bool_decide (last_case_no st = Some (normalize_text c1))))
    with true; [rewrite orb_true_r; reflexivity|].
  symmetry. apply andb_true_intro. split.
  - destruct (normalize_text c1); [congruence|reflexivity].
  - apply negb_true_iff, bool_decide_eq_false_2. intros Heq.
    unfold tracked in Ht. destruct (last (results st)) as [d|].
    + destruct Ht as [_ (cn & Hcn & Hg)]. apply (Hlast d eq_refl).
      congruence.
    + destruct Ht as [_ Hn]. congruence.
Qed.

(** X8. A row of four cells is dropped when it starts no new case and
    cannot be attached: its leading cell is no number, its case number
    is empty or that of the last record, and its leading cell is not
    [with] or there is no record yet. So is a row of one cell when there
    is no record yet. *)
Theorem continuation_row_is_dropped rows cells :
  let before :=
    extract_cases_from_table rows bench court_time court_no date in
  (exists c0 c1 c2 c3,
      cells = [c0; c1; c2; c3]
      /\ digits (normalize_text c0) = false
      /\ (normalize_text c1 = []
          \/ exists d, last before = Some d
                       /\ get "case_number" d = VStr (normalize_text c1))
      /\ (lower (normalize_text c0) <> py "with" \/ before = []))
  \/ (before = [] /\ exists c0, cells = [c0]) ->
  extract_cases_from_table (rows ++ [cells]) bench court_time court_no date
  = before.
Proof.
  intros before. subst before.
  rewrite !extract_after, after_rows_snoc.
  pose proof (after_rows_tracked rows) as Ht.
  revert Ht. generalize (after rows). intros st Ht Hcases.
  unfold tracked in Ht.
  destruct Hcases as [(c0 & c1 & c2 & c3 & -> & Hnd & Hcn & Hw)|[Hnil [c0 ->]]].
  - unfold row_step. rewrite fullmatch_plus. unfold digits in Hnd. rewrite Hnd.
    destruct (split_parties (normalize_text c2)) as [pe re].
    replace (nonempty (normalize_text c1)
             && negb (bool_decide (last_case_no st = Some (normalize_text c1))))
      with false.
    2:{ destruct Hcn as [-> |(d & Hl & Hd)]; [reflexivity|].
        rewrite Hl in Ht. destruct Ht as [_ (cn & Hcn & Hg)].
        rewrite bool_decide_eq_true_2 by congruence.
        symmetry. apply andb_false_r. }
    cbn [orb]. cbv iota.
    destruct Hw as [Hw|Hnil].
    + destruct (current_main_case st); [|reflexivity].
      unfold pystr_eqb. rewrite bool_decide_eq_false_2 by exact Hw.
      reflexivity.
    + rewrite Hnil in Ht. destruct Ht as [-> _]. reflexivity.
  - unfold row_step. rewrite Hnil in Ht. destruct Ht as [-> _]. reflexivity.
Qed.

End Rows.

(** The first table of the sample cause list: a main case, a linked
    case and two remarks. *)
Lemma attached_rows_end_up_in_the_main_case_witness :
  Bombay.extract_cases_from_table (H := Reference.basic_latin)
    [ [py "1"; py "WP/101/2024"; py "Ramesh Kumar vs State"; py "Adv. Rao"];
      [py "With"; py "WP/101/2024"; py "Suresh Kumar v State"; py ""];
      [py "Stand over to next week"];
      [py "  "];
      [py "Not on board"] ]
    (py "N/A") (py "N/A") (py "N/A") (py "01-01-2024")
  = [ with_attachments
        (Bombay.new_case (py "WP/101/2024") (py "Ramesh Kumar") (py "State")
           (py "Adv. Rao") (py "N/A") (py "N/A") (py "01-01-2024") (py "N/A"))
        [VDict [("case_number", VStr (py "WP/101/2024"));
                ("details", VStr (py "Suresh Kumar v State"))]%string]
        (py "Stand over to next week" ++ [10] ++ py "Not on board") ].
Proof.
  apply (attached_rows_end_up_in_the_main_case (H := Reference.basic_latin)
           (py "N/A") (py "N/A") (py "N/A") (py "01-01-2024") []
           (py "1") (py "WP/101/2024") (py "Ramesh Kumar vs State")
           (py "Adv. Rao")).
  - reflexivity.
  - constructor; [split; [reflexivity|split; [reflexivity|right; reflexivity]]|].
    repeat constructor.
Defined.

(** A row marked [with] that has a case number of its own. *)
Lemma other_case_number_starts_new_case_witness :
  Bombay.extract_cases_from_table (H := Reference.basic_latin)
    [ [py "1"; py "WP/101/2024"; py "Ramesh Kumar vs State"; py "Adv. Rao"];
      [py "with"; py "WP/202/2024"; py "Suresh Kumar v State"; py ""] ]
    (py "N/A") (py "N/A") (py "N/A") (py "01-01-2024")
  = [ Bombay.new_case (py "WP/101/2024") (py "Ramesh Kumar") (py "State")
        (py "Adv. Rao") (py "N/A") (py "N/A") (py "01-01-2024") (py "N/A");
      Bombay.new_case (py "WP/202/2024") (py "Suresh Kumar") (py "State")
        [] (py "N/A") (py "N/A") (py "01-01-2024") (py "N/A") ].
Proof.
  apply (other_case_number_starts_new_case (H := Reference.basic_latin)
           (py "N/A") (py "N/A") (py "N/A") (py "01-01-2024")
           [[py "1"; py "WP/101/2024"; py "Ramesh Kumar vs State"; py "Adv. Rao"]]
           (py "with") (py "WP/202/2024") (py "Suresh Kumar v State") (py "")).
  - discriminate.
  - intros d [= <-]. discriminate.
Defined.

(** A row that goes on with the case before it. *)
Lemma continuation_row_is_dropped_witness :
  Bombay.extract_cases_from_table (H := Reference.basic_latin)
    [ [py "1"; py "WP/101/2024"; py "Ramesh Kumar vs State"; py "Adv. Rao"];
      [py ""; py "WP/101/2024"; py "and others"; py "Adv. Iyer"] ]
    (py "N/A") (py "N/A") (py "N/A") (py "01-01-2024")
  = Bombay.extract_cases_from_table (H := Reference.basic_latin)
      [ [py "1"; py "WP/101/2024"; py "Ramesh Kumar vs State"; py "Adv. Rao"] ]
      (py "N/A") (py "N/A") (py "N/A") (py "01-01-2024").
Proof.
  apply (continuation_row_is_dropped (H := Reference.basic_latin)
           (py "N/A") (py "N/A") (py "N/A") (py "01-01-2024")
           [[py "1"; py "WP/101/2024"; py "Ramesh Kumar vs State"; py "Adv. Rao"]]).
  left. exists (py ""), (py "WP/101/2024"), (py "and others"), (py "Adv. Iyer").
  split; [reflexivity|]. split; [reflexivity|]. split.
  - right. eexists. split; reflexivity.
  - left. discriminate.
Defined.

(** ** The records of a search *)

Section TableCases.
Context `{PyLib}.
Import Bombay.

Lemma table_case_new case_no pe re advocates bench court_no date court_time :
  table_case bench court_time court_no date
    (new_case case_no pe re advocates bench court_no date court_time).
Proof.
  unfold new_case, table_case. do 6 eexists. split; [reflexivity|].
  split; [|constructor]. destruct advocates; discriminate.
Qed.

Lemma table_case_with bench court_time court_no date case_no parties d :
  table_case bench court_time court_no date d ->
  table_case bench court_time court_no date (add_with_case case_no parties d).
Proof.
  intros (cn & pe & re & ad & wc & rm & -> & Had & Hwc).
  unfold add_with_case, table_case. simpl.
  do 6 eexists. split; [reflexivity|]. split; [exact Had|].
  apply Forall_app. split; [exact Hwc|]. constructor; [|constructor].
  eexists _, _. reflexivity.
Qed.

Lemma table_case_remark bench court_time court_no date text d :
  table_case bench court_time court_no date d ->
  table_case bench court_time court_no date (add_remark text d).
Proof.
  intros (cn & pe & re & ad & wc & rm & -> & Had & Hwc).
  unfold add_remark, table_case. simpl.
  do 6 eexists. split; [reflexivity|]. auto.
Qed.

Lemma row_step_table_cases bench court_time court_no date st cells :
  Forall (table_case bench court_time court_no date) (results st) ->
  Forall (table_case bench court_time court_no date)
    (results (row_step bench court_time court_no date st cells)).
Proof.
  intros Hst. unfold row_step.
  destruct cells as [|c0 [|c1 [|c2 [|c3 [|c4 cells]]]]]; try exact Hst.
  - destruct (current_main_case st) as [i|]; [|exact Hst].
    destruct (nonempty (normalize_text c0)); [|exact Hst]. simpl.
    apply Forall_alter; [exact Hst|]. intros d _. apply table_case_remark.
  - destruct (split_parties (normalize_text c2)) as [pe re].
    match goal with |- context [if ?b then _ else _] => destruct b end.
    + simpl. apply Forall_app. split; [exact Hst|].
      constructor; [apply table_case_new|constructor].
    + destruct (current_main_case st) as [i|]; [|exact Hst].
      destruct (pystr_eqb _ _); [|exact Hst]. simpl.
      apply Forall_alter; [exact Hst|]. intros d _. apply table_case_with.
Qed.

Lemma extract_table_cases rows bench court_time court_no date :
  Forall (table_case bench court_time court_no date)
    (extract_cases_from_table rows bench court_time court_no date).
Proof.
  unfold extract_cases_from_table.
  set (st := {| results := []; current_main_case := None; last_case_no := None |}).
  assert (Hst : Forall (table_case bench court_time court_no date) (results st))
    by constructor.
  clearbody st. revert st Hst.
  induction rows as [|cells rows IH]; intros st Hst; [exact Hst|].
  simpl. apply IH, row_step_table_cases, Hst.
Qed.

(** *** The walk over the nodes *)

(** A table is read with the values of the container. *)
Lemma node_step_table text date st rows :
  (re_search time_re (normalize_text text) = None -> current_time st = py "N/A") ->
  (re_search court_no_re (normalize_text text) = None ->
   current_court_no st = py "N/A") ->
  node_step text date st (Table rows) =
  {| current_bench := current_bench st;
     current_time := shown_time text;
     current_court_no := shown_court_no text;
     all_results :=
       all_results st ++
       extract_cases_from_table rows (current_bench st) (shown_time text)
         (shown_court_no text) (shown_date text date) |}.
Proof.
  intros Ht Hn. unfold node_step, shown_time, shown_court_no, shown_date.
  destruct (re_search time_re (normalize_text text)) as [mt|];
    [|rewrite (Ht eq_refl)];
    (destruct (re_search court_no_re (normalize_text text)) as [mn|];
     [|rewrite (Hn eq_refl)]); reflexivity.
Qed.

Lemma bench_after_snoc nodes n :
  bench_after (nodes ++ [n]) =
  match n with
  | H3 heading =>
      match re_search judges_re (normalize_text heading) with
      | Some _ => normalize_text heading
      | None => bench_after nodes
      end
  | Table _ => bench_after nodes
  end.
Proof.
  unfold bench_after. rewrite rev_app_distr. simpl.
  destruct n as [heading|rows]; simpl; [|reflexivity].
  destruct (re_search judges_re (normalize_text heading)); reflexivity.
Qed.

Lemma node_step_invariant text date nodes st n :
  walk_invariant text date nodes st ->
  walk_invariant text date (nodes ++ [n]) (node_step text date st n).
Proof.
  intros (Hb & Ht & Hn & Hr). unfold walk_invariant.
  rewrite bench_after_snoc. destruct n as [heading|rows].
  - unfold node_step.
    destruct (re_search judges_re (normalize_text heading)); simpl; auto.
  - rewrite node_step_table by assumption. simpl.
    split; [exact Hb|].
    split; [intros Hnone; unfold shown_time; rewrite Hnone; reflexivity|].
    split; [intros Hnone; unfold shown_court_no; rewrite Hnone; reflexivity|].
    apply Forall_app. split; [exact Hr|].
    eapply List.Forall_impl; [|apply extract_table_cases].
    intros d Hd. exists (current_bench st). exact Hd.
Qed.

Lemma fold_nodes_invariant text date more : forall nodes st,
  walk_invariant text date nodes st ->
  walk_invariant text date (nodes ++ more)
    (fold_left (node_step text date) more st).
Proof.
  induction more as [|n more IH]; intros nodes st Hst.
  - rewrite app_nil_r. exact Hst.
  - simpl. replace (nodes ++ n :: more) with ((nodes ++ [n]) ++ more)
      by (rewrite <- app_assoc; reflexivity).
    apply IH, node_step_invariant, Hst.
Qed.

Lemma walk_start_invariant text date : walk_invariant text date [] walk_start.
Proof. repeat split; constructor. Qed.

Lemma fold_nodes_appends text date more : forall st,
  exists added,
    all_results (fold_left (node_step text date) more st)
    = all_results st ++ added.
Proof.
  induction more as [|n more IH]; intros st.
  - exists []. rewrite app_nil_r. reflexivity.
  - simpl. destruct (IH (node_step text date st n)) as [added ->].
    destruct n as [heading|rows].
    + exists added. unfold node_step.
      destruct (re_search judges_re (normalize_text heading)); reflexivity.
    + unfold node_step. simpl. eexists. rewrite <- app_assoc. reflexivity.
Qed.

Lemma walk_table_cases s date :
  Forall (fun d => exists bench,
              table_case bench (shown_time (container_text s))
                (shown_court_no (container_text s))
                (shown_date (container_text s) date) d)
    (walk s date).
Proof.
  unfold walk.
  apply (fold_nodes_invariant (container_text s) date (container_nodes s) []
           walk_start (walk_start_invariant _ _)).
Qed.

Lemma final_result_table_case bench court_time court_no date d :
  table_case bench court_time court_no date d ->
  bombay_layout (final_result d)
  /\ get "judge" (final_result d) = VStr bench
  /\ get "court_time" (final_result d) = VStr court_time
  /\ get "court_no" (final_result d) = VStr court_no
  /\ get "date" (final_result d) = VStr date.
Proof.
  intros (cn & pe & re & ad & wc & rm & -> & Had & Hwc).
  unfold bombay_layout, final_result. simpl.
  repeat split; eauto. exists ad. auto.
Qed.

Context (site : pystr -> pystr -> session).

(** What [search] returns when it returns. *)
Lemma search_ok party_name date log log' rs :
  search site party_name date log = (log', Ok rs) ->
  rs = []
  \/ exists p d,
       party_name = Some p /\ date = Some d
       /\ rs = map final_result (walk (site p d) d).
Proof.
  unfold search.
  destruct party_name as [p|], date as [d|]; try (intros [= _ <-]; auto).
  destruct (nonempty p && nonempty d); [|intros [= _ <-]; auto].
  cbv zeta. unfold bind at 1 2, step at 1 2, try_finally.
  destruct (launch_fails (site p d)); [discriminate|].
  destruct (new_page_fails (site p d)); [discriminate|].
  destruct (search_page (site p d) p d ((log ++ [Launch]) ++ [NewPage]))
    as [l r] eqn:Hpage.
  destruct r as [rs'|e]; simpl; [|discriminate].
  intros [= _ <-]. apply search_page_records in Hpage as ->.
  right. eauto.
Qed.

End TableCases.

(** X9. Every record [search] returns has the eleven keys of a case
    record in their order, the court ["Bombay High Court"], advocates that
    are not empty (["N/A"] for a blank cell), a list of linked cases that
    each have a case number and details, and remarks that are a
    string. *)
Theorem search_records_have_the_layout `{PyLib}
    (site : pystr -> pystr -> Bombay.session) party_name date log log' rs :
  Bombay.search site party_name date log = (log', Ok rs) ->
  Forall bombay_layout rs.
Proof.
  intros Hs. apply search_ok in Hs as [->|(p & d & -> & -> & ->)];
    [constructor|].
  apply List.Forall_map.
  eapply List.Forall_impl; [|apply walk_table_cases].
  intros r [bench Hr]. eapply final_result_table_case. exact Hr.
Qed.

(** X10. The time, the court number and the date of a record are read in
    the text of the whole container, not in the text before its table:
    every record of a search has the first time the container shows
    (["N/A"] without one), the first court number (["N/A"] without one)
    and the first date (the date searched for without one). *)
Theorem records_carry_the_values_of_the_container `{PyLib}
    (site : pystr -> pystr -> Bombay.session) party_name date log log' rs :
  Bombay.search site (Some party_name) (Some date) log = (log', Ok rs) ->
  let text := Bombay.container_text (site party_name date) in
  Forall (fun r =>
            get "court_time" r = VStr (shown_time text)
            /\ get "court_no" r = VStr (shown_court_no text)
            /\ get "date" r = VStr (shown_date text date)) rs.
Proof.
  intros Hs text. apply search_ok in Hs as [->|(p & d & [= <-] & [= <-] & ->)];
    [constructor|].
  apply List.Forall_map.
  eapply List.Forall_impl; [|apply walk_table_cases].
  intros r [bench Hr].
  destruct (final_result_table_case _ _ _ _ _ Hr) as (_ & _ & Ht & Hn & Hd).
  auto.
Qed.

(** X11. A table is read under the last heading before it that names
    judges, and under ["N/A"] when there is none: its records are those
    of [extract_cases_from_table] for that bench, between the records of
    the tables before it and those of the tables after it. *)
Theorem table_is_read_under_the_latest_bench `{PyLib} s date pre rows post :
  Bombay.container_nodes s = pre ++ Bombay.Table rows :: post ->
  exists before after,
    Bombay.walk s date =
    before ++
    Bombay.extract_cases_from_table rows (bench_after pre)
      (shown_time (Bombay.container_text s))
      (shown_court_no (Bombay.container_text s))
      (shown_date (Bombay.container_text s) date)
    ++ after.
Proof.
  intros Hnodes. unfold Bombay.walk. rewrite Hnodes, fold_left_app.
  fold walk_start.
  pose proof (fold_nodes_invariant (Bombay.container_text s) date pre []
                walk_start (walk_start_invariant _ _)) as (Hb & Ht & Hn & _).
  simpl in Hb. cbn [fold_left].
  rewrite node_step_table by assumption. rewrite Hb.
  match goal with
  | |- context [fold_left ?f post ?st] =>
      destruct (fold_nodes_appends (Bombay.container_text s) date post st)
        as [added ->]
  end.
  simpl. eexists _, added. rewrite <- app_assoc. reflexivity.
Qed.

Lemma search_records_have_the_layout_witness :
  Forall bombay_layout
    (records (daily (H := Reference.basic_latin)
                (Examples.court (py "02-01-2024")) (py "Ramesh") 738886)).
Proof.
  apply (search_records_have_the_layout (H := Reference.basic_latin)
           (Examples.court (py "02-01-2024"))
           (Some (py "Ramesh")) (Some (py "01-01-2024")) []
           (fst (Bombay.search (H := Reference.basic_latin)
                   (Examples.court (py "02-01-2024"))
                   (Some (py "Ramesh")) (Some (py "01-01-2024")) []))).
  vm_compute. reflexivity.
Defined.

(** The sample court shows [COURT NO: 12 AT 10.30 A.M.] and no date. *)
Lemma records_carry_the_values_of_the_container_witness :
  Forall (fun r =>
            get "court_time" r = VStr (py "AT 10.30 A.M.")
            /\ get "court_no" r = VStr (py "12")
            /\ get "date" r = VStr (py "01-01-2024"))
    (records (daily (H := Reference.basic_latin)
                (Examples.court (py "02-01-2024")) (py "Ramesh") 738886)).
Proof.
  apply (records_carry_the_values_of_the_container (H := Reference.basic_latin)
           (Examples.court (py "02-01-2024"))
           (py "Ramesh") (py "01-01-2024") []
           (fst (Bombay.search (H := Reference.basic_latin)
                   (Examples.court (py "02-01-2024"))
                   (Some (py "Ramesh")) (Some (py "01-01-2024")) []))).
  vm_compute. reflexivity.
Defined.

(** The table of the sample court comes after a heading that names a
    judge. *)
Lemma table_is_read_under_the_latest_bench_witness :
  exists before after,
    Bombay.walk (H := Reference.basic_latin)
      (Examples.shown
         [ Bombay.H3 (py "HON'BLE SHRI JUSTICE A. S. GADKARI");
           Bombay.H3 (py "SUPPLEMENTARY BOARD");
           Bombay.Table [[py "0"; py "WP/77/2024"; py "SoloName"; py ""]] ]
         Examples.heading)
      (py "01-01-2024")
    = before
      ++ Bombay.extract_cases_from_table (H := Reference.basic_latin)
           [[py "0"; py "WP/77/2024"; py "SoloName"; py ""]]
           (py "HON'BLE SHRI JUSTICE A. S. GADKARI")
           (py "AT 10.30 A.M.") (py "12") (py "01-01-2024")
      ++ after.
Proof.
  apply (table_is_read_under_the_latest_bench (H := Reference.basic_latin)
           (Examples.shown
              [ Bombay.H3 (py "HON'BLE SHRI JUSTICE A. S. GADKARI");
                Bombay.H3 (py "SUPPLEMENTARY BOARD");
                Bombay.Table [[py "0"; py "WP/77/2024"; py "SoloName"; py ""]] ]
              Examples.heading)
           (py "01-01-2024")
           [ Bombay.H3 (py "HON'BLE SHRI JUSTICE A. S. GADKARI");
             Bombay.H3 (py "SUPPLEMENTARY BOARD") ]
           [[py "0"; py "WP/77/2024"; py "SoloName"; py ""]] []).
  reflexivity.
Defined.

(** ** The calls of the browser *)

Section BrowserCalls.
Context `{PyLib} (site : pystr -> pystr -> Bombay.session).
Import Bombay.

Ltac search_calls s :=
  unfold search_page, bind, try_finally, try_except, step, raise, ret;
  repeat match goal with
         | |- context [match ?f s with Some _ => _ | None => _ end] =>
             destruct (f s) as [[]|] eqn:?
         end.

Lemma search_calls_from log party_name date :
  fst (search site party_name date log)
  = log ++ fst (search site party_name date []).
Proof. rewrite (appends_search site party_name date log). reflexivity. Qed.

(** X12. When the browser is launched and the page is opened, [search]
    calls [browser.close()] as the last thing it does, once, whether it
    returns or raises. When the launch or the opening of the page
    raises, [browser.close()] is not called: the two calls come before
    the [try]. *)
Theorem search_closes_the_browser party_name date log :
  nonempty party_name = true -> nonempty date = true ->
  let s := site party_name date in
  exists calls,
    fst (search site (Some party_name) (Some date) log) = log ++ calls
    /\ match launch_fails s, new_page_fails s with
       | None, None =>
           exists between,
             calls = [Launch; NewPage] ++ between ++ [Close]
             /\ ~ In Close between
       | _, _ => ~ In Close calls
       end.
Proof.
  intros Hp Hd s. rewrite search_calls_from.
  exists (fst (search site (Some party_name) (Some date) [])).
  split; [reflexivity|].
  unfold search. rewrite Hp, Hd. cbn [andb]. cbv zeta. fold s.
  destruct (launch_fails s) as [e1|] eqn:H1.
  { unfold bind, step. simpl. intros [Hc|[]]. discriminate. }
  destruct (new_page_fails s) as [e2|] eqn:H2.
  { unfold bind, step. simpl. intros [Hc|[Hc|[]]]; discriminate. }
  unfold bind at 1 2, step at 1 2. cbn [app].
  search_calls s; cbn [fst app];
    match goal with
    | |- exists between, Launch :: NewPage :: ?l = _ /\ _ =>
        exists (removelast l)
    end;
    (split; [reflexivity|]); simpl; intuition discriminate.
Qed.

(** X13. [search] writes the page to [bombay_debug.html] when the wait for
    the results times out, and then only: not when it returns, and not
    when a call fails in another way. What it writes is the content of
    the page. (The reading of the page and the writing of the file are
    calls that do not fail in a [session].) *)
Theorem debug_page_is_written_on_time_out_only party_name date log :
  nonempty party_name = true -> nonempty date = true ->
  let s := site party_name date in
  exists calls,
    fst (search site (Some party_name) (Some date) log) = log ++ calls
    /\ (existsb is_write_file calls = true <->
        reaches_the_wait s /\ wait_selector_fails s = Some PlaywrightTimeout)
    /\ (forall name data,
           In (WriteFile name data) calls ->
           name = "bombay_debug.html"%string /\ data = page_content s).
Proof.
  intros Hp Hd s. rewrite search_calls_from.
  exists (fst (search site (Some party_name) (Some date) [])).
  split; [reflexivity|].
  unfold search, reaches_the_wait. rewrite Hp, Hd. cbn [andb]. cbv zeta. fold s.
  unfold bind at 1 2, step at 1 2.
  destruct (launch_fails s) as [e1|] eqn:H1.
  { simpl. split; [split; [discriminate|intros [(? & _) _]; discriminate]|].
    intros name data [Hc|[]]. discriminate. }
  destruct (new_page_fails s) as [e2|] eqn:H2.
  { simpl. split; [split; [discriminate|intros [(_ & ? & _) _]; discriminate]|].
    intros name data [Hc|[Hc|[]]]; discriminate. }
  search_calls s; cbn [fst app]; (split; [split|]);
    try (simpl; discriminate);
    try (intros [(_ & _ & ? & ? & ? & ? & ? & ?) ?]; discriminate);
    try (intros _; repeat split; reflexivity);
    try (intros name data Hin; simpl in Hin;
         repeat (destruct Hin as [Hin|Hin]; try discriminate);
         try contradiction; injection Hin as <- <-; auto).
Qed.

Lemma search_skips_nothing party_name date :
  skipped (fst (search site party_name date [])) = [].
Proof.
  unfold search.
  destruct party_name as [p|], date as [d|]; try reflexivity.
  destruct (nonempty p && nonempty d); [|reflexivity].
  cbv zeta. set (s := site p d).
  unfold bind at 1 2, step at 1 2.
  destruct (launch_fails s); [reflexivity|].
  destruct (new_page_fails s); [reflexivity|].
  search_calls s; reflexivity.
Qed.

End BrowserCalls.

(** The day on which the results never show: the browser is closed all
    the same, and the page is written to the debug file. *)
Lemma search_closes_the_browser_witness :
  exists calls,
    fst (Bombay.search (H := Reference.basic_latin)
           (Examples.court (py "02-01-2024"))
           (Some (py "Ramesh")) (Some (py "02-01-2024")) []) = calls
    /\ exists between,
         calls = [Bombay.Launch; Bombay.NewPage] ++ between ++ [Bombay.Close]
         /\ ~ In Bombay.Close between.
Proof.
  exact (search_closes_the_browser (H := Reference.basic_latin)
           (Examples.court (py "02-01-2024"))
           (py "Ramesh") (py "02-01-2024") [] eq_refl eq_refl).
Defined.

Lemma debug_page_is_written_on_time_out_only_witness :
  In (Bombay.WriteFile "bombay_debug.html" (py "<html></html>"))
    (fst (Bombay.search (H := Reference.basic_latin)
            (Examples.court (py "02-01-2024"))
            (Some (py "Ramesh")) (Some (py "02-01-2024")) []))
  /\ existsb is_write_file
       (fst (Bombay.search (H := Reference.basic_latin)
               (Examples.court (py "02-01-2024"))
               (Some (py "Ramesh")) (Some (py "01-01-2024")) [])) = false.
Proof.
  split; [vm_compute; tauto|].
  destruct (debug_page_is_written_on_time_out_only (H := Reference.basic_latin)
              (Examples.court (py "02-01-2024"))
              (py "Ramesh") (py "01-01-2024") [] eq_refl eq_refl)
    as (calls & Hcalls & Hiff & _).
  rewrite Hcalls. simpl app.
  destruct (existsb is_write_file calls); [|reflexivity].
  destruct (proj1 Hiff eq_refl) as [_ Hwait]. discriminate.
Defined.

(** ** The scan of a range of days *)

Section RangeScan.
Context `{PyLib} (site : pystr -> pystr -> Bombay.session).
Import Bombay.
Local Open Scope Z_scope.

Lemma skipped_app l1 l2 : skipped (l1 ++ l2) = skipped l1 ++ skipped l2.
Proof. apply List.filter_app. Qed.

(** A day of the scan: the search of the day, and the note that the day
    is skipped when the search raises. *)
Lemma scan_day party_name cause_date acc log :
  exists calls,
    skipped calls = []
    /\ search site (Some party_name) (Some cause_date) [] =
       (calls, snd (search site (Some party_name) (Some cause_date) []))
    /\ try_except
         (daily_results <- search site (Some party_name) (Some cause_date) ;;
          ret (acc ++ daily_results))
         (fun e => Some (step (Skipping cause_date e) None ;;; ret acc)) log
       = match snd (search site (Some party_name) (Some cause_date) []) with
         | Ok daily_results => (log ++ calls, Ok (acc ++ daily_results))
         | Raise e => (log ++ calls ++ [Skipping cause_date e], Ok acc)
         end.
Proof.
  exists (fst (search site (Some party_name) (Some cause_date) [])).
  split; [apply search_skips_nothing|]. split; [apply surjective_pairing|].
  unfold try_except, bind at 1.
  rewrite (appends_search site _ _ log).
  destruct (search site (Some party_name) (Some cause_date) [])
    as [l [daily_results|e]]; simpl; [reflexivity|].
  unfold bind, step, ret. rewrite <- app_assoc. reflexivity.
Qed.

Lemma scan_days_skipped party_name end_dt n : forall current acc log,
  Z.to_nat (end_dt + 1 - current) = n -> end_dt < MAXORDINAL ->
  skipped (fst (scan_days site party_name current end_dt acc log))
  = skipped log ++ flat_map (skip_of site party_name) (days current end_dt).
Proof.
  induction n as [|n IH]; intros current acc log Hn Hmax;
    rewrite scan_days_eq; destruct (Z_le_dec current end_dt) as [Hle|Hgt];
    try lia.
  - rewrite days_nil by lia. simpl. rewrite app_nil_r. reflexivity.
  - rewrite days_cons by lia. simpl flat_map. cbv zeta.
    destruct (scan_day party_name (strftime current "%d-%m-%Y") acc log)
      as (calls & Hcalls & _ & Hday).
    unfold bind at 1. rewrite Hday.
    replace (current <? MAXORDINAL) with true by (symmetry; apply Z.ltb_lt; lia).
    unfold skip_of at 1, daily.
    destruct (snd (search site (Some party_name)
                     (Some (strftime current "%d-%m-%Y")) []))
      as [daily_results|e].
    + rewrite IH by lia. rewrite skipped_app, Hcalls, app_nil_r. reflexivity.
    + rewrite IH by lia. rewrite !skipped_app, Hcalls. simpl.
      rewrite <- app_assoc. reflexivity.
Qed.

(** X14. [search_range] notes every day it skips: over a range that ends
    before 31-12-9999, the days the log says were skipped are the days
    whose search raised, in order, each with the exception raised. *)
Theorem skipped_days_are_the_failed_days
    party_name start_date end_date start_dt end_dt log :
  strptime start_date "%d-%m-%Y" = Some start_dt ->
  strptime end_date "%d-%m-%Y" = Some end_dt ->
  start_dt <= end_dt < MAXORDINAL ->
  skipped (fst (search_range site party_name start_date end_date log))
  = skipped log ++ flat_map (skip_of site party_name) (days start_dt end_dt).
Proof.
  intros Hs He [Hle Hmax]. unfold search_range. rewrite Hs, He.
  replace (end_dt <? start_dt) with false by (symmetry; apply Z.ltb_ge; lia).
  apply (scan_days_skipped party_name end_dt _ start_dt [] log eq_refl Hmax).
Qed.

(** X30. Over a valid range that ends before 31-12-9999 [search_range]
    always returns, however many of its days fail: it returns the
    records of the days whose search returned, in the order of the days,
    and a day whose search raised adds nothing. *)
Theorem range_scan_returns_the_records_of_the_days
    party_name start_date end_date start_dt end_dt log :
  strptime start_date "%d-%m-%Y" = Some start_dt ->
  strptime end_date "%d-%m-%Y" = Some end_dt ->
  start_dt <= end_dt < MAXORDINAL ->
  snd (search_range site party_name start_date end_date log)
  = Ok (flat_map (fun d => records (daily site party_name d))
          (days start_dt end_dt)).
Proof. apply search_range_result. Qed.

Lemma scan_days_overflow party_name n : forall current acc log,
  Z.to_nat (MAXORDINAL + 1 - current) = n -> current <= MAXORDINAL ->
  snd (scan_days site party_name current MAXORDINAL acc log)
  = Raise OverflowError.
Proof.
  induction n as [|n IH]; intros current acc log Hn Hle; [lia|].
  rewrite scan_days_eq. destruct (Z_le_dec current MAXORDINAL); [|lia].
  cbv zeta.
  destruct (scan_day party_name (strftime current "%d-%m-%Y") acc log)
    as (calls & _ & _ & Hday).
  unfold bind at 1. rewrite Hday.
  destruct (Z.ltb_spec current MAXORDINAL) as [Hlt|Hge].
  - destruct (snd (search site (Some party_name)
                     (Some (strftime current "%d-%m-%Y")) []));
      apply IH; lia.
  - destruct (snd (search site (Some party_name)
                     (Some (strftime current "%d-%m-%Y")) []));
      reflexivity.
Qed.

(** X15. A range that ends on 31-12-9999 cannot be scanned: whatever the
    searches of its days give, [search_range] raises [OverflowError] when
    it steps past the last day a [datetime] holds, and returns no
    list. *)
Theorem range_to_the_last_day_overflows
    party_name start_date end_date start_dt log :
  strptime start_date "%d-%m-%Y" = Some start_dt ->
  strptime end_date "%d-%m-%Y" = Some MAXORDINAL ->
  snd (search_range site party_name start_date end_date log)
  = Raise OverflowError.
Proof.
  intros Hs He. pose proof (strptime_range _ _ _ Hs) as [_ Hle].
  unfold search_range. rewrite Hs, He.
  replace (MAXORDINAL <? start_dt) with false by (symmetry; apply Z.ltb_ge; lia).
  eapply scan_days_overflow; [reflexivity|exact Hle].
Qed.


Lemma scan_days_without_party end_dt n : forall current acc log,
  Z.to_nat (end_dt + 1 - current) = n -> end_dt < MAXORDINAL ->
  scan_days site [] current end_dt acc log = (log, Ok acc).
Proof.
  induction n as [|n IH]; intros current acc log Hn Hmax;
    rewrite scan_days_eq; destruct (Z_le_dec current end_dt) as [Hle|Hgt];
    try lia; [reflexivity|].
  cbv zeta. unfold bind at 1, try_except, bind, search, ret. simpl.
  replace (current <? MAXORDINAL) with true by (symmetry; apply Z.ltb_lt; lia).
  rewrite app_nil_r. apply IH; lia.
Qed.

(** X17. Without a party name [search_range] searches nothing: over a
    range that ends before 31-12-9999 it returns the empty list and the
    browser is not called. *)
Theorem search_range_without_party_name
    start_date end_date start_dt end_dt log :
  strptime start_date "%d-%m-%Y" = Some start_dt ->
  strptime end_date "%d-%m-%Y" = Some end_dt ->
  start_dt <= end_dt < MAXORDINAL ->
  search_range site [] start_date end_date log = (log, Ok []).
Proof.
  intros Hs He [Hle Hmax]. unfold search_range. rewrite Hs, He.
  replace (end_dt <? start_dt) with false by (symmetry; apply Z.ltb_ge; lia).
  eapply scan_days_without_party; [reflexivity|exact Hmax].
Qed.

End RangeScan.

Local Open Scope Z_scope.

(** From 1 to 3 January 2024, with a court that times out on the 2nd. *)
Lemma skipped_days_are_the_failed_days_witness :
  skipped (fst (Bombay.search_range (H := Reference.basic_latin)
                  (Examples.court (py "02-01-2024")) (py "Ramesh")
                  (py "01-01-2024") (py "03-01-2024") []))
  = [Bombay.Skipping (py "02-01-2024")
       (Exception "Bombay HC: #tb_causelist not found.")].
Proof.
  rewrite (skipped_days_are_the_failed_days (H := Reference.basic_latin)
             (Examples.court (py "02-01-2024")) (py "Ramesh")
             (py "01-01-2024") (py "03-01-2024") 738886 738888 []).
  - vm_compute. reflexivity.
  - reflexivity.
  - reflexivity.
  - unfold MAXORDINAL. lia.
Defined.

(** The same range: the records of the 1st and of the 3rd. *)
Lemma range_scan_returns_the_records_of_the_days_witness :
  snd (Bombay.search_range (H := Reference.basic_latin)
         (Examples.court (py "02-01-2024")) (py "Ramesh")
         (py "01-01-2024") (py "03-01-2024") [])
  = Ok (flat_map
          (fun d => records (daily (H := Reference.basic_latin)
                               (Examples.court (py "02-01-2024"))
                               (py "Ramesh") d))
          [738886; 738887; 738888]).
Proof.
  apply (range_scan_returns_the_records_of_the_days
           (H := Reference.basic_latin)
           (Examples.court (py "02-01-2024")) (py "Ramesh")
           (py "01-01-2024") (py "03-01-2024") 738886 738888 []).
  - reflexivity.
  - reflexivity.
  - unfold MAXORDINAL. lia.
Defined.

Lemma range_to_the_last_day_overflows_witness :
  snd (Bombay.search_range (H := Reference.basic_latin)
         (Examples.court (py "02-01-2024")) (py "Ramesh")
         (py "30-12-9999") (py "31-12-9999") []) = Raise OverflowError.
Proof.
  apply (range_to_the_last_day_overflows (H := Reference.basic_latin)
           (Examples.court (py "02-01-2024")) (py "Ramesh")
           (py "30-12-9999") (py "31-12-9999") (MAXORDINAL - 1) []);
    reflexivity.
Defined.


Lemma search_range_without_party_name_witness :
  Bombay.search_range (H := Reference.basic_latin)
    (Examples.court (py "02-01-2024")) []
    (py "01-01-2024") (py "03-01-2024") [] = ([], Ok []).
Proof.
  apply (search_range_without_party_name (H := Reference.basic_latin)
           (Examples.court (py "02-01-2024"))
           (py "01-01-2024") (py "03-01-2024") 738886 738888 []).
  - reflexivity.
  - reflexivity.
  - unfold MAXORDINAL. lia.
Defined.

Local Close Scope Z_scope.

(** ** The pieces of a text *)

Lemma contains_app_l p a b : contains p a = true -> contains p (a ++ b) = true.
Proof.
  rewrite !contains_spec. intros (l & r & ->). exists l, (r ++ b).
  rewrite <- !app_assoc. reflexivity.
Qed.

Lemma contains_app_r p a b : contains p b = true -> contains p (a ++ b) = true.
Proof.
  rewrite !contains_spec. intros (l & r & ->). exists (a ++ l), r.
  rewrite <- !app_assoc. reflexivity.
Qed.

Lemma contains_nil s : contains [] s = true.
Proof. destruct s; reflexivity. Qed.

Lemma contains_strip p s : contains p (strip s) = true -> contains p s = true.
Proof.
  intros Hp. unfold strip in Hp.
  destruct (lstrip_suffix s) as [l Hl].
  destruct (rstrip_prefix (lstrip s)) as [r Hr].
  rewrite Hl. apply contains_app_r. rewrite Hr. apply contains_app_l. exact Hp.
Qed.

(** The pieces of [s.split(sep)] are pieces of [s]. *)
Lemma split_on_head sep s : forall q qs,
  split_on sep s = q :: qs -> exists b, s = q ++ b.
Proof.
  induction s as [|c s IH]; intros q qs; simpl.
  - intros [= <- _]. exists []. reflexivity.
  - destruct (c =? sep); [intros [= <- _]; eexists; reflexivity|].
    destruct (split_on sep s) as [|q' qs'] eqn:Hs; simpl.
    + intros [= <- _]. exists s. reflexivity.
    + intros [= <- _]. destruct (IH q' qs' eq_refl) as [b ->].
      exists b. reflexivity.
Qed.

Lemma split_on_piece sep s l :
  In l (split_on sep s) -> exists a b, s = a ++ l ++ b.
Proof.
  induction s as [|c s IH]; simpl.
  - intros [<-|[]]. exists [], []. reflexivity.
  - destruct (c =? sep).
    + intros [<-|Hin]; [exists [], (c :: s); reflexivity|].
      destruct (IH Hin) as (a & b & ->). exists (c :: a), b. reflexivity.
    + destruct (split_on sep s) as [|q qs] eqn:Hs; simpl.
      * intros [<-|[]]. exists [], s. reflexivity.
      * intros [<-|Hin].
        -- destruct (split_on_head sep s q qs Hs) as [b ->].
           exists [], b. reflexivity.
        -- destruct (IH (or_intror Hin)) as (a & b & ->).
           exists (c :: a), b. reflexivity.
Qed.

Lemma contains_split_on p sep s l :
  In l (split_on sep s) -> contains p l = true -> contains p s = true.
Proof.
  intros Hin Hp. destruct (split_on_piece sep s l Hin) as (a & b & ->).
  apply contains_app_r, contains_app_l, Hp.
Qed.

Lemma contains_join_head p sep l ls :
  contains p l = true -> contains p (join sep (l :: ls)) = true.
Proof.
  intros Hp. destruct ls; simpl; [exact Hp|]. apply contains_app_l, Hp.
Qed.

Section JudgeBlocks.
Context `{PyLib}.
Import NCLAT.

(** ** extract_judge_blocks *)

Lemma judge_blocks_loop_hon lines : forall blocks current,
  Forall (fun b => contains (py "Hon") b = true) blocks ->
  match current with
  | [] => True
  | l :: _ => contains (py "Hon") l = true
  end ->
  Forall (fun b => contains (py "Hon") b = true)
    (judge_blocks_loop lines blocks current).
Proof.
  induction lines as [|line lines IH]; intros blocks current Hb Hc;
    cbn [judge_blocks_loop].
  - destruct current as [|l ls]; [exact Hb|].
    apply Forall_app. split; [exact Hb|].
    constructor; [apply contains_join_head, Hc|constructor].
  - destruct (contains (py "Hon") line) eqn:Hl.
    + destruct current as [|l ls]; apply IH; try exact Hl; try exact Hb.
      apply Forall_app. split; [exact Hb|].
      constructor; [apply contains_join_head, Hc|constructor].
    + destruct current as [|l ls]; [apply IH; auto|].
      match goal with
      | |- context [any_in ?k line] => destruct (any_in k line)
      end; apply IH; try exact Hb; try exact Hc; try exact I.
      apply Forall_app. split; [exact Hb|].
      constructor; [apply contains_join_head, Hc|constructor].
Qed.

Lemma judge_blocks_loop_none lines :
  Forall (fun l => contains (py "Hon") l = false) lines ->
  judge_blocks_loop lines [] [] = [].
Proof.
  induction lines as [|line lines IH]; intros Hl; [reflexivity|].
  apply Forall_cons in Hl as [Hline Hl]. simpl. rewrite Hline. apply IH, Hl.
Qed.

(** X18. Every block of judges that [extract_judge_blocks] finds on a
    page starts at a line with [Hon], so it holds [Hon]; and a page
    without [Hon] has no block: the judges of the page before it stay in
    force. *)
Theorem judge_blocks_start_at_hon page_text :
  Forall (fun b => contains (py "Hon") b = true)
    (extract_judge_blocks page_text)
  /\ (contains (py "Hon") page_text = false ->
      extract_judge_blocks page_text = []
      /\ forall current_judges,
           judges_after current_judges page_text = current_judges).
Proof.
  split.
  - apply judge_blocks_loop_hon; [constructor|exact I].
  - intros Hno.
    assert (Hnone : extract_judge_blocks page_text = []).
    { unfold extract_judge_blocks. apply judge_blocks_loop_none.
      apply List.Forall_map. apply List.Forall_forall. intros l Hin.
      apply list_elem_of_In, list_elem_of_filter in Hin as [_ Hin].
      apply list_elem_of_In in Hin.
      destruct (contains (py "Hon") (strip l)) eqn:Hl; [|reflexivity].
      apply contains_strip in Hl.
      rewrite (contains_split_on _ _ _ _ Hin Hl) in Hno. discriminate. }
    split; [exact Hnone|]. intros current_judges.
    unfold judges_after. rewrite Hnone. reflexivity.
Qed.

(** ** The matcher *)

Lemma tokens_from_blank s :
  forallb isspace s = true -> tokens_from [] s = [].
Proof.
  induction s as [|c s IH]; [reflexivity|]. simpl.
  intros [Hc Hs]%andb_prop. rewrite Hc. auto.
Qed.

Lemma sub_punct_blank s :
  (forall c, In c s -> isword c = false) ->
  forallb isspace (re_sub (Chr punct) [32] s) = true.
Proof.
  intros Hs. apply forallb_forall. intros c Hc.
  apply sub_punct_incl in Hc as [->|[Hin Hp]]; [reflexivity|].
  unfold punct in Hp. rewrite (Hs c Hin) in Hp. simpl in Hp.
  destruct (isspace c); [reflexivity|discriminate].
Qed.

Lemma normalize_without_words x :
  (forall c, In c (lower x) -> isword c = false) -> normalize x = [].
Proof.
  intros Hx. destruct (normalize_normal x) as [Hc Ht].
  rewrite <- (join_tokens _ Hc Ht).
  unfold normalize. rewrite tokens_strip. unfold tokens.
  change (py " ") with [32]. rewrite tokens_sub.
  rewrite tokens_from_blank; [reflexivity|]. apply sub_punct_blank, Hx.
Qed.

(** X19. A party name without a word character, made of punctuation and
    white space only, matches every page: its normal form is the empty
    string, which is in every string. *)
Theorem party_without_words_matches_every_page party_name :
  (forall c, In c (lower party_name) -> isword c = false) ->
  normalize party_name = []
  /\ forall text, party_matches party_name text = true.
Proof.
  intros Hp. pose proof (normalize_without_words party_name Hp) as Hn.
  split; [exact Hn|]. intros text. unfold party_matches.
  rewrite Hn. apply contains_nil.
Qed.

End JudgeBlocks.

Lemma party_without_words_matches_every_page_witness :
  NCLAT.party_matches (H := Reference.basic_latin) (py "& ...")
    (py "Ramesh Kumar vs State") = true.
Proof.
  apply (party_without_words_matches_every_page (H := Reference.basic_latin)
           (py "& ...")).
  intros c Hc. simpl in Hc.
  repeat (destruct Hc as [<-|Hc]; [reflexivity|]). destruct Hc.
Defined.

Section Extraction.
Context `{PyLib} (s : NCLAT.site).
Import NCLAT.

(** ** The pages sent to the extraction *)

Lemma extractions_app l1 l2 :
  extractions (l1 ++ l2) = (extractions l1 + extractions l2)%nat.
Proof. unfold extractions. rewrite List.filter_app, length_app. reflexivity. Qed.

Lemma ai_extract_events page_text party_name court_no judges w :
  exists evs rows,
    ai_extract s page_text party_name court_no judges w = (logged w evs, Ok rows)
    /\ extractions evs = 1%nat /\ Forall of_extraction evs.
Proof.
  destruct (client s (prompt page_text party_name court_no judges))
    as [rows|e] eqn:Hc.
  - eexists _, rows. split; [apply ai_extract_valid; exact Hc|].
    split; [reflexivity|repeat constructor].
  - eexists _, []. split; [apply ai_extract_invalid; exact Hc|].
    split; [reflexivity|repeat constructor].
Qed.

Lemma scan_pages_extractions party_name court_no pages :
  forall current_judges results w,
  exists evs rows,
    scan_pages s party_name court_no pages current_judges results w =
    (logged w evs, Ok (results ++ map model_dump rows))
    /\ extractions evs
       = length (List.filter (sent_to_extraction party_name) pages)
    /\ Forall of_extraction evs.
Proof.
  induction pages as [|page pages IH]; intros current_judges results w.
  - exists [], []. simpl. rewrite logged_nil, app_nil_r.
    split; [reflexivity|]. split; [reflexivity|constructor].
  - destruct page as [[|c t]|].
    + simpl. apply IH.
    + rewrite scan_pages_cons by discriminate. cbn [List.filter sent_to_extraction].
      destruct (party_matches party_name (c :: t)); [|apply IH].
      destruct (ai_extract_events (c :: t) party_name court_no
                  (judges_after current_judges (c :: t)) w)
        as (evs & rows & Hai & Hone & Hevs).
      unfold bind. rewrite Hai.
      destruct (IH (judges_after current_judges (c :: t))
                  (results ++ map model_dump rows) (logged w evs))
        as (evs' & rows' & -> & Hcount & Hevs').
      exists (evs ++ evs'), (rows ++ rows').
      rewrite logged_logged, map_app, app_assoc, extractions_app, Hone, Hcount.
      split; [reflexivity|]. split; [reflexivity|].
      apply Forall_app. auto.
    + simpl. apply IH.
Qed.

Lemma search_party_in_pdf_readable pdf_path party_name w page pages :
  files w !! pdf_path = Some (Pdf (page :: pages)) ->
  exists evs rows,
    search_party_in_pdf s pdf_path party_name w
    = (logged w evs, Ok (map model_dump rows))
    /\ extractions evs
       = length (List.filter (sent_to_extraction party_name) (page :: pages))
    /\ Forall of_extraction evs.
Proof.
  intros Hf. unfold search_party_in_pdf, bind at 1, pdf_open. rewrite Hf.
  unfold bind, lift, extract_court_no_page1.
  destruct (re_search court_re _); cbv beta iota;
    apply (scan_pages_extractions party_name _ (page :: pages) [] [] w).
Qed.



End Extraction.

(** X20. [search_party_in_pdf] reads a PDF with a page or more without
    raising and without a change on disk, and it calls the extraction
    once for every page that has text and matches the party, and for no
    other page. *)
Theorem extraction_is_called_for_matching_pages `{PyLib}
    s pdf_path party_name w page pages :
  NCLAT.files w !! pdf_path = Some (NCLAT.Pdf (page :: pages)) ->
  exists evs rows,
    NCLAT.search_party_in_pdf s pdf_path party_name w
    = (logged w evs, Ok (map NCLAT.model_dump rows))
    /\ extractions evs
       = length (List.filter (sent_to_extraction party_name) (page :: pages))
    /\ Forall of_extraction evs.
Proof. apply search_party_in_pdf_readable. Qed.


(** The second page of the sample PDF has no [Hon]. *)
Lemma judge_blocks_start_at_hon_witness :
  judges_after (py "Hon'ble Justice Ashok Bhushan, Chairperson")
    Examples.page2
  = py "Hon'ble Justice Ashok Bhushan, Chairperson".
Proof.
  apply (proj2 (judge_blocks_start_at_hon Examples.page2)).
  reflexivity.
Defined.

(** Two of the three pages of the sample PDF have text and name the
    party. *)
Lemma extraction_is_called_for_matching_pages_witness :
  exists evs rows,
    NCLAT.search_party_in_pdf (H := Reference.basic_latin) Examples.tribunal
      (py "nclat_pdfs/a.pdf") (py "Ramesh Kumar") sample_disk
    = (logged sample_disk evs, Ok (map NCLAT.model_dump rows))
    /\ extractions evs = 2%nat
    /\ Forall of_extraction evs.
Proof.
  exact (extraction_is_called_for_matching_pages (H := Reference.basic_latin)
           Examples.tribunal (py "nclat_pdfs/a.pdf") (py "Ramesh Kumar")
           sample_disk (Some Examples.page1) [None; Some Examples.page2]
           eq_refl).
Defined.


Section Downloads.
Context `{PyLib} (s : NCLAT.site) (start_dt end_dt : Z).
Import NCLAT.

(** ** What download_pdfs asks for and keeps *)

Lemma selected_weaken w w1 path :
  files w ⊆ files w1 ->
  selected s start_dt end_dt w path -> selected s start_dt end_dt w1 path.
Proof.
  intros Hsub [Hthere Hw]. split; [|exact Hw].
  eapply lookup_weaken_is_Some; eauto.
Qed.

Lemma fetch_facts href w w1 r :
  fetch_if_absent s href w = (w1, r) ->
  files w ⊆ files w1
  /\ (exists evs,
         log w1 = log w ++ evs
         /\ Forall (fun e => e = GetPdf (urljoin BASE href)
                             \/ e = WriteBytes (identity href)) evs)
  /\ (forall path, r = Ok path ->
        path = identity href /\ is_Some (files w1 !! path)).
Proof.
  destruct (files w !! identity href) as [f|] eqn:Hp.
  - rewrite fetch_cached by (rewrite Hp; eexists; reflexivity).
    intros [= <- <-]. split; [reflexivity|]. split.
    + exists []. rewrite app_nil_r. split; [reflexivity|constructor].
    + intros path [= <-]. split; [reflexivity|]. rewrite Hp. eexists; reflexivity.
  - rewrite fetch_absent by exact Hp.
    destruct (pdf_server s (urljoin BASE href)) as [content|e];
      intros [= <- <-]; simpl.
    + split; [apply insert_subseteq; exact Hp|]. split.
      * eexists. split; [reflexivity|].
        constructor; [left; reflexivity|].
        constructor; [right; reflexivity|constructor].
      * intros path [= <-]. split; [reflexivity|].
        rewrite lookup_insert_eq. eexists; reflexivity.
    + split; [reflexivity|]. split; [|discriminate].
      eexists. split; [reflexivity|].
      constructor; [left; reflexivity|constructor].
Qed.

Lemma rows_loop_facts rows : forall pdf_files w w1 r,
  (forall cols, In cols rows -> listed (listing s) cols) ->
  rows_loop s start_dt end_dt rows pdf_files w = (w1, r) ->
  files w ⊆ files w1
  /\ (exists evs,
         log w1 = log w ++ evs /\ Forall (of_download s start_dt end_dt) evs)
  /\ (forall stop out, r = Ok (stop, out) ->
        exists added,
          out = pdf_files ++ added
          /\ Forall (selected s start_dt end_dt w1) added).
Proof.
  assert (Hstay : forall pdf_files w (stop : bool),
             files w ⊆ files w
             /\ (exists evs,
                    log w = log w ++ evs
                    /\ Forall (of_download s start_dt end_dt) evs)
             /\ (forall stop' out, Ok (stop, pdf_files) = Ok (stop', out) ->
                   exists added,
                     out = pdf_files ++ added
                     /\ Forall (selected s start_dt end_dt w) added)).
  { intros pdf_files w stop. split; [reflexivity|]. split.
    - exists []. rewrite app_nil_r. split; [reflexivity|constructor].
    - intros stop' out [= _ <-]. exists []. rewrite app_nil_r.
      split; [reflexivity|constructor]. }
  induction rows as [|cols rows IH]; intros pdf_files w w1 r Hlisted;
    cbn [rows_loop].
  - intros [= <- <-]. apply Hstay.
  - assert (Hrest : forall cols', In cols' rows -> listed (listing s) cols')
      by (intros cols' Hin; apply Hlisted; right; exact Hin).
    destruct (cols !! 3%nat) as [c3|] eqn:H3; [|apply IH; exact Hrest].
    destruct (cols !! 4%nat) as [c4|] eqn:H4; [|apply IH; exact Hrest].
    destruct (strptime (cell_text c3) "%d/%m/%Y") as [row_dt|] eqn:Hdt;
      [|apply IH; exact Hrest].
    destruct (Z.ltb_spec row_dt start_dt) as [Hold|Hge];
      [intros [= <- <-]; apply Hstay|].
    destruct (Z.ltb_spec end_dt row_dt) as [Hnew|Hle]; [apply IH; exact Hrest|].
    destruct (cell_href c4) as [href|] eqn:Hhref; [|apply IH; exact Hrest].
    assert (Hwanted : wanted s start_dt end_dt href).
    { exists cols. split; [apply Hlisted; left; reflexivity|].
      unfold link_in_range. rewrite H3, H4, Hdt.
      replace (start_dt <=? row_dt)%Z with true by (symmetry; apply Z.leb_le; lia).
      replace (row_dt <=? end_dt)%Z with true by (symmetry; apply Z.leb_le; lia).
      exact Hhref. }
    unfold bind.
    destruct (fetch_if_absent s href w) as [wm [path|e]] eqn:Hf;
      apply fetch_facts in Hf as (Hsub & (evs & Hlog & Hevs) & Hpath).
    + intros Hr. destruct (Hpath path eq_refl) as [-> Hthere].
      apply IH in Hr as (Hsub' & (evs' & Hlog' & Hevs') & Hout); [|exact Hrest].
      split; [etransitivity; eauto|]. split.
      * exists (evs ++ evs'). rewrite Hlog', Hlog, app_assoc.
        split; [reflexivity|]. apply Forall_app. split; [|exact Hevs'].
        eapply List.Forall_impl; [|exact Hevs].
        intros e [-> | ->]; exists href; auto.
      * intros stop out Hok. destruct (Hout stop out Hok) as (added & -> & Hadded).
        exists (identity href :: added). rewrite <- app_assoc.
        split; [reflexivity|]. constructor; [|exact Hadded].
        apply (selected_weaken wm); [exact Hsub'|].
        split; [exact Hthere|]. exists href. auto.
    + intros [= <- <-]. split; [exact Hsub|]. split; [|discriminate].
      exists evs. split; [exact Hlog|].
      eapply List.Forall_impl; [|exact Hevs].
      intros e' [-> | ->]; exists href; auto.
Qed.

Lemma pages_loop_facts pages : forall page pdf_files w w1 r,
  (forall rows, In (Ok rows) pages -> In (Ok rows) (listing s)) ->
  pages_loop s start_dt end_dt pages page pdf_files w = (w1, r) ->
  files w ⊆ files w1
  /\ (exists evs,
         log w1 = log w ++ evs /\ Forall (of_download s start_dt end_dt) evs)
  /\ (forall out, r = Ok out ->
        exists added,
          out = pdf_files ++ added
          /\ Forall (selected s start_dt end_dt w1) added).
Proof.
  assert (Hstay : forall page pdf_files w,
             files w ⊆ files w
             /\ (exists evs,
                    log w ++ [GetListing page] = log w ++ evs
                    /\ Forall (of_download s start_dt end_dt) evs)
             /\ (forall out, @Ok (list (list N)) pdf_files = Ok out ->
                   exists added,
                     out = pdf_files ++ added
                     /\ Forall (selected s start_dt end_dt
                                  {| files := files w;
                                     log := log w ++ [GetListing page] |}) added)).
  { intros page pdf_files w. split; [reflexivity|]. split.
    - eexists. split; [reflexivity|]. repeat constructor.
    - intros out [= <-]. exists []. rewrite app_nil_r.
      split; [reflexivity|constructor]. }
  induction pages as [|p pages IH]; intros page pdf_files w w1 r Hlisted.
  - simpl. unfold bind, emit, ret. simpl. intros [= <- <-].
    exact (Hstay page pdf_files w).
  - rewrite pages_loop_cons. unfold bind at 1 2, emit, lift.
    destruct p as [rows|e].
    2:{ intros [= <- <-]. simpl. split; [reflexivity|]. split; [|discriminate].
        eexists. split; [reflexivity|]. repeat constructor. }
    destruct rows as [|row rows];
      [unfold ret; intros [= <- <-]; exact (Hstay page pdf_files w)|].
    set (rs := row :: rows) in *. cbv beta match. unfold bind.
    match goal with
    | |- context [rows_loop s start_dt end_dt rs pdf_files ?w0] =>
        destruct (rows_loop s start_dt end_dt rs pdf_files w0)
          as [wm [[stop out']|e]] eqn:Hrows;
        apply rows_loop_facts in Hrows
          as (Hsub & (evs & Hlog & Hevs) & Hout)
    end.
    2,4: intros cols Hin; exists rs; split; [apply Hlisted; left; reflexivity|exact Hin].
    + destruct (Hout stop out' eq_refl) as (added & -> & Hadded).
      simpl in Hsub, Hlog. destruct stop.
      * unfold ret. intros [= <- <-]. split; [exact Hsub|]. split.
        -- exists (GetListing page :: evs). rewrite Hlog, <- app_assoc.
           split; [reflexivity|]. constructor; [exact I|exact Hevs].
        -- intros out [= <-]. exists added. auto.
      * intros Hp. apply IH in Hp as (Hsub' & (evs' & Hlog' & Hevs') & Hout').
        2:{ intros rows' Hin. apply Hlisted. right. exact Hin. }
        split; [etransitivity; eauto|]. split.
        -- exists (GetListing page :: evs ++ evs').
           rewrite Hlog', Hlog, <- !app_assoc. split; [reflexivity|].
           constructor; [exact I|]. apply Forall_app. auto.
        -- intros out Hok. destruct (Hout' out Hok) as (added' & -> & Hadded').
           exists (added ++ added'). rewrite app_assoc. split; [reflexivity|].
           apply Forall_app. split; [|exact Hadded'].
           eapply List.Forall_impl; [|exact Hadded].
           intros path. apply selected_weaken. exact Hsub'.
    + simpl in Hsub, Hlog. intros [= <- <-]. split; [exact Hsub|].
      split; [|discriminate].
      exists (GetListing page :: evs). rewrite Hlog, <- app_assoc.
      split; [reflexivity|]. constructor; [exact I|exact Hevs].
Qed.

(** *** The end of the paging *)

Lemma rows_loop_older rows : forall pdf_files w w1 stop out,
  Exists (older start_dt) rows ->
  rows_loop s start_dt end_dt rows pdf_files w = (w1, Ok (stop, out)) ->
  stop = true.
Proof.
  induction rows as [|cols rows IH]; intros pdf_files w w1 stop out Hex;
    [inversion Hex|].
  cbn [rows_loop].
  assert (Hrest : forall pdf_files' w',
             (~ older start_dt cols) ->
             rows_loop s start_dt end_dt rows pdf_files' w' = (w1, Ok (stop, out)) ->
             stop = true).
  { intros pdf_files' w' Hno. apply IH.
    apply Exists_cons in Hex as [Hc|Hr]; [contradiction|exact Hr]. }
  destruct (cols !! 3%nat) as [c3|] eqn:H3.
  2:{ apply Hrest. intros (? & ? & ? & ? & _). congruence. }
  destruct (cols !! 4%nat) as [c4|] eqn:H4.
  2:{ apply Hrest. intros (? & ? & ? & _ & ? & _). congruence. }
  destruct (strptime (cell_text c3) "%d/%m/%Y") as [row_dt|] eqn:Hdt.
  2:{ apply Hrest. intros (? & ? & ? & ? & _ & ? & _). congruence. }
  destruct (Z.ltb_spec row_dt start_dt) as [Hold|Hge];
    [intros [= _ <- _]; reflexivity|].
  assert (Hno : ~ older start_dt cols).
  { intros (c3' & c4' & d & Hc3 & _ & Hd & Hlt).
    rewrite H3 in Hc3. injection Hc3 as <-. rewrite Hdt in Hd.
    injection Hd as <-. lia. }
  destruct (end_dt <? row_dt)%Z; [apply Hrest; exact Hno|].
  destruct (cell_href c4) as [href|]; [|apply Hrest; exact Hno].
  unfold bind. destruct (fetch_if_absent s href w) as [wm [path|e]];
    [apply Hrest; exact Hno|discriminate].
Qed.

Lemma pages_loop_rows rows rest page pdf_files w :
  rows <> [] ->
  pages_loop s start_dt end_dt (Ok rows :: rest) page pdf_files w =
  match rows_loop s start_dt end_dt rows pdf_files
          {| files := files w; log := log w ++ [GetListing page] |} with
  | (wm, Ok (true, out)) => (wm, Ok out)
  | (wm, Ok (false, out)) => pages_loop s start_dt end_dt rest (S page) out wm
  | (wm, Raise e) => (wm, Raise e)
  end.
Proof.
  intros Hne. rewrite pages_loop_cons. unfold bind at 1 2, emit, lift.
  destruct rows as [|row rows]; [congruence|].
  set (rs := row :: rows) in *. cbv beta match. unfold bind.
  destruct (rows_loop s start_dt end_dt rs pdf_files _)
    as [wm [[[] out]|e]]; reflexivity.
Qed.

Lemma pages_loop_stops rows rest page pdf_files w :
  Exists (older start_dt) rows ->
  pages_loop s start_dt end_dt (Ok rows :: rest) page pdf_files w
  = pages_loop s start_dt end_dt [Ok rows] page pdf_files w.
Proof.
  intros Hex.
  assert (Hne : rows <> []) by (intros ->; inversion Hex).
  rewrite !pages_loop_rows by exact Hne.
  destruct (rows_loop s start_dt end_dt rows pdf_files _)
    as [wm [[stop out]|e]] eqn:Hrows; [|reflexivity].
  rewrite (rows_loop_older _ _ _ _ _ _ Hex Hrows). reflexivity.
Qed.

Lemma pages_loop_prefix l1 l2 :
  (forall page pdf_files w,
      pages_loop s start_dt end_dt l1 page pdf_files w
      = pages_loop s start_dt end_dt l2 page pdf_files w) ->
  forall pre page pdf_files w,
    pages_loop s start_dt end_dt (pre ++ l1) page pdf_files w
    = pages_loop s start_dt end_dt (pre ++ l2) page pdf_files w.
Proof.
  intros Hl. induction pre as [|p pre IH]; intros page pdf_files w; [apply Hl|].
  simpl app. destruct p as [rows|e].
  - destruct rows as [|row rows].
    + rewrite !pages_loop_cons. reflexivity.
    + rewrite !pages_loop_rows by discriminate.
      destruct (rows_loop s start_dt end_dt (row :: rows) pdf_files _)
        as [wm [[[] out]|e]]; [reflexivity|apply IH|reflexivity].
  - rewrite !pages_loop_cons. reflexivity.
Qed.

End Downloads.

(** X22. [download_pdfs] handles wanted documents only. Whether it
    returns or raises, it asks for pages of the listing, gets documents
    behind links of the listing whose date is in the range, writes such
    documents at their paths, and does nothing else. Every path it
    returns is the path of such a document, and the document is on disk
    when it returns. *)
Theorem download_pdfs_handles_wanted_documents_only `{PyLib}
    s start_dt end_dt w w1 r :
  NCLAT.download_pdfs s start_dt end_dt w = (w1, r) ->
  (exists evs,
      NCLAT.log w1 = NCLAT.log w ++ evs
      /\ Forall (of_download s start_dt end_dt) evs)
  /\ (forall pdfs, r = Ok pdfs -> Forall (selected s start_dt end_dt w1) pdfs).
Proof.
  intros Hd. unfold NCLAT.download_pdfs in Hd.
  apply pages_loop_facts in Hd as (_ & Hevs & Hout); [|auto].
  split; [exact Hevs|]. intros pdfs Hr.
  destruct (Hout pdfs Hr) as (added & -> & Hadded). exact Hadded.
Qed.

(** X23. [download_pdfs] leaves the files on disk as they are: whether it
    returns or raises, every file that was there is there with the same
    content. *)
Theorem files_on_disk_are_kept `{PyLib} s start_dt end_dt w w1 r :
  NCLAT.download_pdfs s start_dt end_dt w = (w1, r) ->
  NCLAT.files w ⊆ NCLAT.files w1.
Proof.
  intros Hd. unfold NCLAT.download_pdfs in Hd.
  apply pages_loop_facts in Hd as (Hsub & _); [exact Hsub|auto].
Qed.

(** X24. The paging ends at the first page that shows a row older than
    the start of the range: the pages after it are not asked for, and
    [download_pdfs] does what it does on the listing cut after that
    page. *)
Theorem paging_stops_at_an_older_row `{PyLib}
    s start_dt end_dt pre rows rest w :
  NCLAT.listing s = pre ++ Ok rows :: rest ->
  Exists (older start_dt) rows ->
  NCLAT.download_pdfs s start_dt end_dt w
  = NCLAT.download_pdfs (with_listing s (pre ++ [Ok rows])) start_dt end_dt w.
Proof.
  intros Hl Hex. unfold NCLAT.download_pdfs. rewrite Hl. simpl NCLAT.listing.
  change (NCLAT.pages_loop (with_listing s (pre ++ [Ok rows])))
    with (NCLAT.pages_loop s).
  apply pages_loop_prefix. intros page pdf_files w'.
  apply pages_loop_stops. exact Hex.
Qed.

(** X25. A second run of [download_pdfs] over the same listing downloads
    nothing and selects the same files. *)
Theorem second_run_downloads_nothing `{PyLib} s start_dt end_dt w w1 pdfs :
  NCLAT.download_pdfs s start_dt end_dt w = (w1, Ok pdfs) ->
  exists evs,
    NCLAT.download_pdfs s start_dt end_dt w1 = (logged w1 evs, Ok pdfs)
    /\ downloads evs = 0%nat.
Proof. apply download_pdfs_again. Qed.

(** The listing of the sample tribunal, from 1 to 3 January 2024. *)
Lemma download_pdfs_handles_wanted_documents_only_witness :
  Forall
    (selected (H := Reference.basic_latin) Examples.tribunal 738886%Z 738888%Z
       (fst (NCLAT.download_pdfs (H := Reference.basic_latin)
               Examples.tribunal 738886%Z 738888%Z Examples.empty_disk)))
    [py "nclat_pdfs/cause_list_02012024.pdf"].
Proof.
  apply (proj2 (download_pdfs_handles_wanted_documents_only
                  (H := Reference.basic_latin)
                  Examples.tribunal 738886%Z 738888%Z Examples.empty_disk
                  (fst (NCLAT.download_pdfs (H := Reference.basic_latin)
                          Examples.tribunal 738886%Z 738888%Z
                          Examples.empty_disk))
                  (Ok [py "nclat_pdfs/cause_list_02012024.pdf"])
                  ltac:(vm_compute; reflexivity))).
  reflexivity.
Defined.

Lemma files_on_disk_are_kept_witness :
  NCLAT.files sample_disk
  ⊆ NCLAT.files
      (fst (NCLAT.download_pdfs (H := Reference.basic_latin)
              Examples.tribunal 738886%Z 738888%Z sample_disk)).
Proof.
  apply (files_on_disk_are_kept (H := Reference.basic_latin)
           Examples.tribunal 738886%Z 738888%Z sample_disk _
           (snd (NCLAT.download_pdfs (H := Reference.basic_latin)
                   Examples.tribunal 738886%Z 738888%Z sample_disk))).
  apply surjective_pairing.
Defined.

(** The first page of the listing ends with a row of 31 December 2023:
    for a range that starts on 1 January 2024 the second page does not
    count. *)
Lemma paging_stops_at_an_older_row_witness :
  NCLAT.download_pdfs (H := Reference.basic_latin)
    (with_listing Examples.tribunal [Ok first_page; Ok second_page])
    738886%Z 738888%Z Examples.empty_disk
  = NCLAT.download_pdfs (H := Reference.basic_latin)
      (with_listing Examples.tribunal [Ok first_page])
      738886%Z 738888%Z Examples.empty_disk.
Proof.
  apply (paging_stops_at_an_older_row (H := Reference.basic_latin)
           (with_listing Examples.tribunal [Ok first_page; Ok second_page])
           738886%Z 738888%Z [] first_page [Ok second_page]
           Examples.empty_disk).
  - reflexivity.
  - apply Exists_cons_tl, Exists_cons_hd.
    eexists _, _, 738885%Z. repeat split.
Defined.

Lemma second_run_downloads_nothing_witness :
  let w1 := fst (NCLAT.download_pdfs (H := Reference.basic_latin)
                   Examples.tribunal 738886%Z 738888%Z Examples.empty_disk) in
  exists evs,
    NCLAT.download_pdfs (H := Reference.basic_latin)
      Examples.tribunal 738886%Z 738888%Z w1
    = (logged w1 evs, Ok [py "nclat_pdfs/cause_list_02012024.pdf"])
    /\ downloads evs = 0%nat.
Proof.
  intros w1.
  apply (second_run_downloads_nothing (H := Reference.basic_latin)
           Examples.tribunal 738886%Z 738888%Z Examples.empty_disk).
  vm_compute. reflexivity.
Defined.

(** ** Groups *)

Lemma rx_captures {A : Type} r :
  forall s g (k : pystr -> list pystr -> option A) a,
  rx r s g k = Some a ->
  exists m s' gs, s = m ++ s' /\ captures r m gs /\ k s' (g ++ gs) = Some a.
Proof.
  induction r as [|p|r1 IH1 r2 IH2|r1 IH1 r2 IH2|r IH|p|r IH];
    intros s g k a; simpl.
  - intros Hk. exists [], s, []. rewrite app_nil_r.
    split; [reflexivity|]. split; [constructor|exact Hk].
  - destruct s as [|c s]; [discriminate|].
    destruct (p c) eqn:Hc; [|discriminate].
    intros Hk. exists [c], s, []. rewrite app_nil_r.
    split; [reflexivity|]. split; [constructor; exact Hc|exact Hk].
  - intros Hr. apply IH1 in Hr as (m1 & s1 & g1 & -> & Hm1 & Hr).
    apply IH2 in Hr as (m2 & s2 & g2 & -> & Hm2 & Hk).
    exists (m1 ++ m2), s2, (g1 ++ g2). rewrite !app_assoc in *.
    split; [reflexivity|]. split; [constructor; assumption|exact Hk].
  - destruct (rx r1 s g k) as [a'|] eqn:H1; simpl.
    + intros [= <-]. apply IH1 in H1 as (m & s' & gs & -> & Hm & Hk).
      exists m, s', gs. split; [reflexivity|].
      split; [apply cap_alt_l; exact Hm|exact Hk].
    + intros H2. apply IH2 in H2 as (m & s' & gs & -> & Hm & Hk).
      exists m, s', gs. split; [reflexivity|].
      split; [apply cap_alt_r; exact Hm|exact Hk].
  - destruct (rx r s g k) as [a'|] eqn:H1; simpl.
    + intros [= <-]. apply IH in H1 as (m & s' & gs & -> & Hm & Hk).
      exists m, s', gs. split; [reflexivity|].
      split; [apply cap_opt_some; exact Hm|exact Hk].
    + intros Hk. exists [], s, []. rewrite app_nil_r.
      split; [reflexivity|]. split; [apply cap_opt_none|exact Hk].
  - intros Hs. apply star_sound in Hs as (m & s' & -> & Hm & Hk).
    exists m, s', []. rewrite app_nil_r.
    split; [reflexivity|]. split; [constructor; exact Hm|exact Hk].
  - intros Hr. apply IH in Hr as (m & s' & gs & -> & Hm & Hk).
    exists m, s', (gs ++ [m]). split; [reflexivity|].
    split; [constructor; exact Hm|].
    rewrite length_app in Hk.
    replace (length m + length s' - length s')%nat with (length m) in Hk by lia.
    rewrite take_app_length in Hk. rewrite app_assoc. exact Hk.
Qed.

Lemma re_match_captures r s n g :
  re_match r s = Some (n, g) ->
  exists s', s = take n s ++ s' /\ captures r (take n s) g.
Proof.
  unfold re_match. intros Hm.
  apply rx_captures in Hm as (m & s' & gs & -> & Hc & [= <- <-]).
  rewrite length_app.
  replace (length m + length s' - length s')%nat with (length m) by lia.
  rewrite take_app_length. exists s'. split; [reflexivity|exact Hc].
Qed.

Lemma re_search_captures r s : forall g0 g,
  re_search r s = Some (g0, g) ->
  exists l s', s = l ++ g0 ++ s' /\ captures r g0 g.
Proof.
  induction s as [|c s IH]; intros g0 g; cbn [re_search].
  - destruct (re_match r []) as [[n g']|] eqn:Hm; [|discriminate].
    intros [= <- <-]. apply re_match_captures in Hm as (s' & Heq & Hc).
    exists [], s'. split; [exact Heq|exact Hc].
  - destruct (re_match r (c :: s)) as [[n g']|] eqn:Hm.
    + intros [= <- <-]. apply re_match_captures in Hm as (s' & Heq & Hc).
      exists [], s'. split; [exact Heq|exact Hc].
    + intros Hs. destruct (IH _ _ Hs) as (l & s' & -> & Hc).
      exists (c :: l), s'. split; [reflexivity|exact Hc].
Qed.

Lemma captures_plus p m g :
  captures (Plus p) m g -> g = [] /\ m <> [] /\ forallb p m = true.
Proof.
  unfold Plus. intros Hc.
  inversion Hc as [| |? ? m1 m2 g1 g2 H1 H2| | | | | |]; subst.
  inversion H1; subst. inversion H2; subst. simpl.
  split; [reflexivity|]. split; [discriminate|].
  match goal with Hp : p _ = true |- _ => rewrite Hp end. assumption.
Qed.

Lemma captures_groupless r m g : groupless r = true -> captures r m g -> g = [].
Proof.
  intros Hr Hc. induction Hc; simpl in Hr;
    try apply andb_prop in Hr as [Hr1 Hr2]; try reflexivity; auto;
    try discriminate.
  rewrite IHHc1, IHHc2 by assumption. reflexivity.
Qed.

(** A pattern that ends with its one group: the match ends with what the
    group captures. *)
Lemma captures_last_group r1 r2 m g :
  groupless r1 = true -> groupless r2 = true ->
  captures (Cat r1 (Grp r2)) m g ->
  exists l no, m = l ++ no /\ g = [no] /\ captures r2 no [].
Proof.
  intros Hr1 Hr2 Hc.
  inversion Hc as [| |? ? m1 m2 g1 g2 H1 H2| | | | | |]; subst.
  inversion H2; subst.
  match goal with
  | Hno : captures r2 ?no ?g' |- _ =>
      pose proof (captures_groupless _ _ _ Hr1 H1) as ->;
      pose proof (captures_groupless _ _ _ Hr2 Hno) as ->;
      exists m1, no; auto
  end.
Qed.

Section Groups.
Context `{PyLib}.

Lemma court_no_captured text g0 g :
  re_search NCLAT.court_re text = Some (g0, g) ->
  exists no,
    g = [no] /\ no <> [] /\ forallb NCLAT.roman_or_digit no = true
    /\ contains no text = true.
Proof.
  intros Hs. apply re_search_captures in Hs as (l & s' & -> & Hc).
  apply captures_last_group in Hc as (l' & no & -> & -> & Hno);
    [|reflexivity|reflexivity].
  apply captures_plus in Hno as (_ & Hne & Hall).
  exists no. split; [reflexivity|]. split; [exact Hne|]. split; [exact Hall|].
  apply contains_spec. exists (l ++ l'), s'. rewrite <- !app_assoc. reflexivity.
Qed.

Lemma bombay_court_no_captured text g0 g :
  re_search Bombay.court_no_re text = Some (g0, g) ->
  exists no, g = [no] /\ digits no = true.
Proof.
  intros Hs. apply re_search_captures in Hs as (l & s' & -> & Hc).
  apply captures_last_group in Hc as (l' & no & -> & -> & Hno);
    [|reflexivity|reflexivity].
  apply captures_plus in Hno as (_ & Hne & Hall).
  exists no. split; [reflexivity|]. unfold digits. rewrite Hall.
  destruct no; [congruence|reflexivity].
Qed.

Lemma bombay_date_captured text g0 g :
  re_search Bombay.date_re text = Some (g0, g) ->
  exists d, g = [d] /\ written_date d.
Proof.
  intros Hs. apply re_search_captures in Hs as (l & s' & -> & Hc).
  apply captures_last_group in Hc as (l' & d & -> & -> & Hd);
    [|reflexivity|reflexivity].
  exists d. split; [reflexivity|].
  repeat match goal with
         | Hcap : captures (Cat _ _) _ _ |- _ => inversion Hcap; subst; clear Hcap
         | Hcap : captures (Chr _) _ _ |- _ => inversion Hcap; subst; clear Hcap
         | Hcap : captures (lit _) _ _ |- _ => inversion Hcap; subst; clear Hcap
         end.
  repeat match goal with
         | Hlit : (_ =? _) = true |- _ =>
             apply N.eqb_eq in Hlit; vm_compute in Hlit; subst
         end.
  cbn [app]. unfold written_date. do 8 eexists. split; [reflexivity|].
  cbn [forallb].
  repeat match goal with Hdig : isdecimal _ = true |- _ => rewrite Hdig; clear Hdig end.
  reflexivity.
Qed.

End Groups.

(** X26. [extract_court_no_page1] raises [IndexError] for a PDF without
    pages. For a PDF with pages it returns the empty string, or a run of
    [I], [V], [X] and digits that is in the text of the first page. *)
Theorem court_no_is_read_on_the_first_page `{PyLib} pages :
  match NCLAT.extract_court_no_page1 pages with
  | Raise e => pages = [] /\ e = IndexError
  | Ok court_no =>
      exists page rest,
        pages = page :: rest
        /\ (court_no = []
            \/ (forallb NCLAT.roman_or_digit court_no = true
                /\ exists text,
                     page = Some text /\ contains court_no text = true))
  end.
Proof.
  unfold NCLAT.extract_court_no_page1.
  destruct pages as [|page rest]; [auto|].
  destruct (re_search NCLAT.court_re
              match page with Some t => t | None => [] end)
    as [[g0 g]|] eqn:Hs; [|exists page, rest; auto].
  exists page, rest. split; [reflexivity|].
  apply court_no_captured in Hs as (no & -> & Hne & Hall & Hin). simpl.
  destruct page as [text|].
  - right. split; [exact Hall|]. exists text. auto.
  - destruct no; [congruence|discriminate].
Qed.

(** X27. The court number of every record of a search is ["N/A"] or a
    string of digits, and its date is the date searched for or a date
    written as two digits, two digits and four digits between
    hyphens. *)
Theorem records_have_a_court_number_and_a_date `{PyLib}
    (site : pystr -> pystr -> Bombay.session) party_name date log log' rs :
  Bombay.search site (Some party_name) (Some date) log = (log', Ok rs) ->
  Forall (fun r =>
            (exists n, get "court_no" r = VStr n
                       /\ (n = py "N/A" \/ digits n = true))
            /\ (exists d, get "date" r = VStr d
                          /\ (d = date \/ written_date d))) rs.
Proof.
  intros Hs. apply search_ok in Hs as [->|(p & d & [= <-] & [= <-] & ->)];
    [constructor|].
  apply List.Forall_map.
  eapply List.Forall_impl; [|apply walk_table_cases].
  intros r [bench Hr].
  destruct (final_result_table_case _ _ _ _ _ Hr) as (_ & _ & _ & Hn & Hd).
  split.
  - eexists. split; [exact Hn|]. unfold shown_court_no.
    destruct (re_search Bombay.court_no_re _) as [[g0 g]|] eqn:Hm; [|auto].
    apply bombay_court_no_captured in Hm as (no & -> & Hno). auto.
  - eexists. split; [exact Hd|]. unfold shown_date.
    destruct (re_search Bombay.date_re _) as [[g0 g]|] eqn:Hm; [|auto].
    apply bombay_date_captured in Hm as (dt & -> & Hdt). auto.
Qed.

Lemma records_have_a_court_number_and_a_date_witness :
  Forall (fun r =>
            (exists n, get "court_no" r = VStr n
                       /\ (n = py "N/A"
                           \/ digits (H := Reference.basic_latin) n = true))
            /\ (exists d, get "date" r = VStr d
                          /\ (d = py "01-01-2024"
                              \/ written_date (H := Reference.basic_latin) d)))
    (records (daily (H := Reference.basic_latin)
                (Examples.court (py "02-01-2024")) (py "Ramesh") 738886)).
Proof.
  apply (records_have_a_court_number_and_a_date (H := Reference.basic_latin)
           (Examples.court (py "02-01-2024"))
           (py "Ramesh") (py "01-01-2024") []
           (fst (Bombay.search (H := Reference.basic_latin)
                   (Examples.court (py "02-01-2024"))
                   (Some (py "Ramesh")) (Some (py "01-01-2024")) []))).
  vm_compute. reflexivity.
Defined.

Section Answers.
Context `{PyLib} (s : NCLAT.site).
Import NCLAT.

(** *** Where the records come from *)

Lemma ai_extract_answered page_text party_name court_no judges w :
  exists evs rows,
    ai_extract s page_text party_name court_no judges w = (logged w evs, Ok rows)
    /\ Forall (answered s) rows.
Proof.
  destruct (client s (prompt page_text party_name court_no judges))
    as [rows|e] eqn:Hc.
  - eexists _, rows. split; [apply ai_extract_valid; exact Hc|].
    apply List.Forall_forall. intros r Hr. eexists _, rows. eauto.
  - eexists _, []. split; [apply ai_extract_invalid; exact Hc|constructor].
Qed.

Lemma scan_pages_answered party_name court_no pages :
  forall current_judges results w,
  exists evs rows,
    scan_pages s party_name court_no pages current_judges results w =
    (logged w evs, Ok (results ++ map model_dump rows))
    /\ Forall (answered s) rows.
Proof.
  induction pages as [|page pages IH]; intros current_judges results w.
  - exists [], []. simpl. rewrite logged_nil, app_nil_r.
    split; [reflexivity|constructor].
  - destruct page as [[|c t]|].
    + simpl. apply IH.
    + rewrite scan_pages_cons by discriminate.
      destruct (party_matches party_name (c :: t)); [|apply IH].
      destruct (ai_extract_answered (c :: t) party_name court_no
                  (judges_after current_judges (c :: t)) w)
        as (evs & rows & Hai & Hrows).
      unfold bind. rewrite Hai.
      destruct (IH (judges_after current_judges (c :: t))
                  (results ++ map model_dump rows) (logged w evs))
        as (evs' & rows' & -> & Hrows').
      exists (evs ++ evs'), (rows ++ rows').
      rewrite logged_logged, map_app, app_assoc.
      split; [reflexivity|]. apply Forall_app. auto.
    + simpl. apply IH.
Qed.

Lemma search_party_in_pdf_answered pdf_path party_name w w' rows :
  search_party_in_pdf s pdf_path party_name w = (w', Ok rows) ->
  exists ms, rows = map model_dump ms /\ Forall (answered s) ms.
Proof.
  unfold search_party_in_pdf, bind, pdf_open, lift.
  destruct (files w !! pdf_path) as [[pages|]|]; try discriminate.
  destruct (extract_court_no_page1 pages) as [court_no|e]; [|discriminate].
  destruct (scan_pages_answered party_name court_no pages [] [] w)
    as (evs & ms & -> & Hms).
  intros [= _ <-]. exists ms. auto.
Qed.

Lemma pdfs_loop_answered party_name pdfs : forall acc w w' rs,
  pdfs_loop s party_name pdfs (map record_of acc) w = (w', Ok rs) ->
  Forall (answered s) acc ->
  exists rows, rs = map record_of rows /\ Forall (answered s) rows.
Proof.
  induction pdfs as [|pdf pdfs IH]; intros acc w w' rs; cbn [pdfs_loop].
  - intros [= _ <-] Hacc. exists acc. auto.
  - unfold bind at 1.
    destruct (search_party_in_pdf s pdf party_name w) as [w1 [rows|e]] eqn:Hs;
      [|discriminate].
    apply search_party_in_pdf_answered in Hs as (ms & -> & Hms).
    unfold bind. rewrite rows_results_dump, <- map_app. intros Hl Hacc.
    eapply IH; [exact Hl|]. apply Forall_app. auto.
Qed.

End Answers.

(** X28. Every record [search_range] of [nclat.py] returns is made of a
    row that the extraction returned for some message, by the mapping of
    [search_range]: no record comes from elsewhere. *)
Theorem records_come_from_the_extraction `{PyLib}
    s party_name start_date end_date w w' rs :
  NCLAT.search_range s party_name start_date end_date w = (w', Ok rs) ->
  exists rows, rs = map record_of rows /\ Forall (answered s) rows.
Proof.
  unfold NCLAT.search_range.
  destruct (strptime start_date "%d/%m/%Y") as [start_dt|]; [|discriminate].
  destruct (strptime end_date "%d/%m/%Y") as [end_dt|]; [|discriminate].
  unfold bind.
  destruct (NCLAT.download_pdfs s start_dt end_dt w) as [w1 [pdfs|e]];
    [|discriminate].
  destruct pdfs as [|pdf pdfs].
  - intros [= _ <-]. exists []. split; [reflexivity|constructor].
  - intros Hl. apply (pdfs_loop_answered s party_name (pdf :: pdfs) [] w1 w' rs Hl).
    constructor.
Qed.

Lemma records_come_from_the_extraction_witness :
  exists rows,
    records (snd (NCLAT.search_range (H := Reference.basic_latin)
                    Examples.tribunal (py "Ramesh Kumar") (py "01/01/2024")
                    (py "03/01/2024") Examples.empty_disk))
    = map record_of rows
    /\ Forall (answered Examples.tribunal) rows.
Proof.
  apply (records_come_from_the_extraction (H := Reference.basic_latin)
           Examples.tribunal (py "Ramesh Kumar") (py "01/01/2024")
           (py "03/01/2024") Examples.empty_disk
           (fst (NCLAT.search_range (H := Reference.basic_latin)
                   Examples.tribunal (py "Ramesh Kumar") (py "01/01/2024")
                   (py "03/01/2024") Examples.empty_disk))).
  vm_compute. reflexivity.
Defined.

(** X29. The matcher does not look at the case of the letters: with the
    party name or the text in lower case it returns what it returns for
    them as they are. *)
Theorem matcher_ignores_case `{PyLib} party_name text :
  NCLAT.party_matches (lower party_name) text
  = NCLAT.party_matches party_name text
  /\ NCLAT.party_matches party_name (lower text)
     = NCLAT.party_matches party_name text.
Proof.
  assert (Hl : forall x, lower (lower x) = lower x).
  { intros x. apply lower_fixed. intros c Hc. eapply lower_lowered. exact Hc. }
  unfold NCLAT.party_matches, NCLAT.normalize. rewrite !Hl. auto.
Qed.
